(** * Bridge listener, staking sync queue and validator store of the
    delivery node, embedded in Rocq.

    Sources embedded here:
    - [staking/keep_sync.go]: the per-root staking queue of the keeper;
    - the staking keeper ([AddValidator], [GetValidatorInfo], [UpdateSigner],
      the validator-ID to signer map);
    - [bridge/setu/listener/rootchain.go]: [ProcessHeader] and
      [queryAndBroadcastEvents].

    Go values are modelled as follows: [uint64] as [N] with wrap-around
    written out, [*big.Int] as [Z], [[]byte] as [list Byte.byte], the cosmos
    KVStore as a [gmap] from byte strings to byte strings, the bridge
    LevelDB as a [gmap] from strings to strings.  Keeper and listener
    methods run in a small state monad whose outcome is a returned value
    or a runtime panic. *)

From Stdlib Require Import ZArith NArith Lia Ascii String DecimalString DecimalN.
From stdpp Require Import base option countable list strings gmap fin_maps.
From stdpp Require Import sorting.

Open Scope Z_scope.

(** ** Bytes *)

Abbreviation byte := Byte.byte.
Abbreviation bytes := (list Byte.byte).

#[global] Instance byte_eq_dec : EqDecision byte := Byte.byte_eq_dec.
#[global] Instance byte_countable : Countable byte :=
  inj_countable Byte.to_N Byte.of_N Byte.of_to_N.

(** ** Outcomes and the execution monad

    A Go method either returns or panics (index out of range).  Errors that
    Go returns as values are part of the returned value. *)

Inductive outcome (A : Type) : Type :=
| Returned (a : A)
| Panicked (msg : string).
Arguments Returned {A} a.
Arguments Panicked {A} msg.

Definition Exec (S A : Type) : Type := S -> outcome A * S.

Definition ret {S A} (a : A) : Exec S A := fun s => (Returned a, s).

Definition bind {S A B} (m : Exec S A) (k : A -> Exec S B) : Exec S B :=
  fun s =>
    match m s with
    | (Returned a, s') => k a s'
    | (Panicked msg, s') => (Panicked msg, s')
    end.

Definition panic {S A} (msg : string) : Exec S A := fun s => (Panicked msg, s).

Definition get_state {S} : Exec S S := fun s => (Returned s, s).

Definition modify_state {S} (f : S -> S) : Exec S unit := fun s => (Returned tt, f s).

Declare Scope exec_scope.
Delimit Scope exec_scope with exec.
Notation "x <- m ;; k" := (bind m (fun x => k))
  (at level 100, m at next level, right associativity) : exec_scope.
Notation "m ;;; k" := (bind m (fun _ => k))
  (at level 100, right associativity) : exec_scope.

(** Go errors carried as values: [ErrNil] is Go's [nil] error. *)
Variant goerror : Type :=
| ErrNil
| Err (msg : string).

(** ** The amino codec

    [k.cdc] is an external collaborator: encoding may report an error and
    decoding may reject a blob, both branches are handled by the keeper. *)

Class AminoCodec (A : Type) : Type := {
  MarshalBinaryBare : A -> option bytes;
  UnmarshalBinaryBare : bytes -> option A
}.

Definition amino_error : goerror := Err "amino: cannot decode".

(** What the keeper relies on: values of the registered plain types always
    encode, and a blob decodes to the value it was encoded from. *)
Class AminoCodecLaws (A : Type) `{AminoCodec A} : Prop := {
  marshal_total : forall a : A, is_Some (MarshalBinaryBare a);
  unmarshal_marshal : forall (a : A) (bz : bytes),
      MarshalBinaryBare a = Some bz -> UnmarshalBinaryBare bz = Some a
}.

Module Staking.

(** *** Store access ([ctx.KVStore(k.storeKey)]) *)

Abbreviation KVStore := (gmap bytes bytes).

Definition store_Has (key : bytes) : Exec KVStore bool :=
  fun s => (Returned (bool_decide (is_Some (s !! key))), s).

(** [store.Get] of an absent key is the nil slice. *)
Definition store_Get (key : bytes) : Exec KVStore bytes :=
  fun s => (Returned (default [] (s !! key)), s).

Definition store_Set (key value : bytes) : Exec KVStore unit :=
  fun s => (Returned tt, <[key := value]> s).

(** *** Staking records

    Modelled from the spec: [stakingTypes.StakingRecord] is declared outside
    the embedded sources; the queue reads [ValidatorID], [Nonce] and
    [TxHash], the data model adds the kind of event and its payload. *)

Variant RecordKind : Type := KindStake | KindUnstake | KindSignerChange.

Record StakingRecord : Type := {
  ValidatorID : N;
  Nonce : N;
  TxHash : bytes;
  Kind : RecordKind;
  Payload : bytes
}.

Section Queue.
Context `{!AminoCodec (list StakingRecord)}.

(** [stakingSendingQueueKey] is a package constant declared elsewhere. *)
Variable stakingSendingQueueKey : bytes.

Definition getStakingQueueKey (rootID : byte) : bytes :=
  stakingSendingQueueKey ++ [rootID].

Definition AddStakingRecordToQueue (rootID : byte) (stakingRecord : StakingRecord)
  : Exec KVStore unit :=
  (let key := getStakingQueueKey rootID in
   has <- store_Has key ;;
   (* [var records] is the nil slice unless the key is present;
      [None] stands for the early return on a decoding error *)
   decoded <- (if has : bool then
                 bz <- store_Get key ;;
                 ret (UnmarshalBinaryBare bz)
               else ret (Some [])) ;;
   match decoded with
   | None => ret tt
   | Some records =>
       let records := records ++ [stakingRecord] in
       match MarshalBinaryBare records with
       | None => ret tt
       | Some out => store_Set key out
       end
   end)%exec.

Definition GetNextStakingRecordFromQueue (rootID : byte)
  : Exec KVStore (option StakingRecord * goerror) :=
  (let key := getStakingQueueKey rootID in
   has <- store_Has key ;;
   if has : bool then
     bz <- store_Get key ;;
     match UnmarshalBinaryBare bz with
     | None => ret (None, amino_error)
     | Some records =>
         match records !! 0%nat with
         | Some r => ret (Some r, ErrNil)
         | None => panic "index out of range [0] with length 0"
         end
     end
   else ret (None, ErrNil))%exec.

Definition same_triple (record stakingRecord : StakingRecord) : bool :=
  (ValidatorID record =? ValidatorID stakingRecord)%N
  && (Nonce record =? Nonce stakingRecord)%N
  && bool_decide (TxHash record = TxHash stakingRecord).

Fixpoint find_loop (records : list StakingRecord) (stakingRecord : StakingRecord) : bool :=
  match records with
  | [] => false
  | record :: rest =>
      if same_triple record stakingRecord then true
      else find_loop rest stakingRecord
  end.

Definition findStakingRecordFromQueue (rootID : byte) (stakingRecord : StakingRecord)
  : Exec KVStore bool :=
  (let key := getStakingQueueKey rootID in
   has <- store_Has key ;;
   if has : bool then
     bz <- store_Get key ;;
     match UnmarshalBinaryBare bz with
     | None => ret false
     | Some records => ret (find_loop records stakingRecord)
     end
   else ret false)%exec.

Definition matches (validatorID nonce : N) (record : StakingRecord) : bool :=
  (ValidatorID record =? validatorID)%N && (Nonce record =? nonce)%N.

(** The [range] loop of [removeStakingRecordFromQueue]: [remaining] is the
    part of [records] still to visit, [index] the position of its head. *)
Fixpoint remove_loop (key : bytes) (records : list StakingRecord) (index : nat)
    (remaining : list StakingRecord) (validatorID nonce : N) : Exec KVStore unit :=
  match remaining with
  | [] => ret tt
  | record :: rest =>
      if matches validatorID nonce record then
        let results := drop (S index) records in
        match MarshalBinaryBare results with
        | None => ret tt
        | Some out => store_Set key out
        end
      else remove_loop key records (S index) rest validatorID nonce
  end.

Definition removeStakingRecordFromQueue (rootID : byte) (validatorID nonce : N)
  : Exec KVStore unit :=
  (let key := getStakingQueueKey rootID in
   has <- store_Has key ;;
   if negb has then ret tt
   else
     bz <- store_Get key ;;
     match UnmarshalBinaryBare bz with
     | None => ret tt
     | Some records => remove_loop key records 0 records validatorID nonce
     end)%exec.

(** The blob stored for [rootID], decoded: [None] when no blob is stored
    or when it does not decode. *)
Definition stored_queue (s : KVStore) (rootID : byte) : option (list StakingRecord) :=
  s !! getStakingQueueKey rootID ≫= UnmarshalBinaryBare.

(** The persisted list of [rootID] as the keeper reads it: empty when no
    blob is stored, [None] when the blob does not decode. *)
Definition persisted_list (s : KVStore) (rootID : byte) : option (list StakingRecord) :=
  match s !! getStakingQueueKey rootID with
  | None => Some []
  | Some bz => UnmarshalBinaryBare bz
  end.

(** Successive calls of [AddStakingRecordToQueue], one for each record. *)
Fixpoint enqueue_all (rootID : byte) (stakingRecords : list StakingRecord)
  : Exec KVStore unit :=
  match stakingRecords with
  | [] => ret tt
  | stakingRecord :: rest =>
      (AddStakingRecordToQueue rootID stakingRecord ;;; enqueue_all rootID rest)%exec
  end.

End Queue.

(** *** Validators

    Modelled from the spec: [types.Validator], [types.HeimdallAddress] and
    [types.ValidatorID] are declared outside the embedded sources.  An
    address is a 20-byte array, here the list of its bytes. *)

Abbreviation HeimdallAddress := bytes.

Definition AddressLength : nat := 20.

Record Validator : Type := {
  ID : N;
  StartEpoch : N;
  EndEpoch : N;
  Power : N;
  PubKey : bytes;
  Signer : HeimdallAddress;
  LastUpdated : N;
  Accum : Z
}.

Definition set_Power (v : Validator) (p : N) : Validator :=
  {| ID := ID v; StartEpoch := StartEpoch v; EndEpoch := EndEpoch v; Power := p;
     PubKey := PubKey v; Signer := Signer v; LastUpdated := LastUpdated v;
     Accum := Accum v |}.

Definition set_Signer (v : Validator) (a : HeimdallAddress) : Validator :=
  {| ID := ID v; StartEpoch := StartEpoch v; EndEpoch := EndEpoch v; Power := Power v;
     PubKey := PubKey v; Signer := a; LastUpdated := LastUpdated v;
     Accum := Accum v |}.

Definition set_PubKey (v : Validator) (k : bytes) : Validator :=
  {| ID := ID v; StartEpoch := StartEpoch v; EndEpoch := EndEpoch v; Power := Power v;
     PubKey := k; Signer := Signer v; LastUpdated := LastUpdated v;
     Accum := Accum v |}.

Definition set_EndEpoch (v : Validator) (e : N) : Validator :=
  {| ID := ID v; StartEpoch := StartEpoch v; EndEpoch := e; Power := Power v;
     PubKey := PubKey v; Signer := Signer v; LastUpdated := LastUpdated v;
     Accum := Accum v |}.

(** The zero value of the struct, returned next to an error. *)
Definition zero_Validator : Validator :=
  {| ID := 0; StartEpoch := 0; EndEpoch := 0; Power := 0; PubKey := [];
     Signer := repeat Byte.x00 AddressLength; LastUpdated := 0; Accum := 0 |}.

Definition ValidatorsKey : bytes := [Byte.x21].
Definition ValidatorMapKey : bytes := [Byte.x22].
Definition CurrentValidatorSetKey : bytes := [Byte.x23].

Definition GetValidatorKey (address : bytes) : bytes := ValidatorsKey ++ address.
Definition GetValidatorMapKey (address : bytes) : bytes := ValidatorMapKey ++ address.

(** go-ethereum's [common.BytesToAddress]: keep the last 20 bytes, pad on
    the left with zeros. *)
Definition BytesToAddress (b : bytes) : HeimdallAddress :=
  let b := if (AddressLength <? length b)%nat then drop (length b - AddressLength) b else b in
  repeat Byte.x00 (AddressLength - length b) ++ b.

Definition ZeroAddress : HeimdallAddress := repeat Byte.x00 AddressLength.

Section Validators.
Context `{!AminoCodec Validator}.

(** [valID.Bytes()] is declared with the type, outside the embedded
    sources. *)
Variable ValidatorID_Bytes : N -> bytes.

Definition SetValidatorIDToSignerAddr (valID : N) (signerAddr : HeimdallAddress)
  : Exec KVStore unit :=
  store_Set (GetValidatorMapKey (ValidatorID_Bytes valID)) signerAddr.

Definition AddValidator (validator : Validator) : Exec KVStore goerror :=
  (match MarshalBinaryBare validator with
   | None => ret (Err "amino: cannot encode")
   | Some bz =>
       store_Set (GetValidatorKey (Signer validator)) bz ;;;
       SetValidatorIDToSignerAddr (ID validator) (Signer validator) ;;;
       ret ErrNil
   end)%exec.

Definition GetValidatorInfo (address : bytes) : Exec KVStore (Validator * goerror) :=
  (let key := GetValidatorKey address in
   has <- store_Has key ;;
   if negb has then ret (zero_Validator, Err "Validator not found")
   else
     bz <- store_Get key ;;
     match UnmarshalBinaryBare bz with
     | None => ret (zero_Validator, amino_error)
     | Some validator => ret (validator, ErrNil)
     end)%exec.

Definition AddDeactivationEpoch (validator updatedVal : Validator) : Exec KVStore goerror :=
  if negb (EndEpoch updatedVal =? 0)%N then
    AddValidator (set_EndEpoch validator (EndEpoch updatedVal))
  else ret (Err "Deactivation period not set").

Definition UpdateSigner (newSigner : HeimdallAddress) (newPubkey : bytes)
    (prevSigner : HeimdallAddress) : Exec KVStore goerror :=
  (r <- GetValidatorInfo prevSigner ;;
   let '(validator, err) := r in
   match err with
   | Err msg => ret (Err msg)
   | ErrNil =>
       let validatorPower := Power validator in
       let validator := set_Power validator 0 in
       AddValidator validator ;;;
       let validator := set_Signer validator newSigner in
       let validator := set_PubKey validator newPubkey in
       let validator := set_Power validator validatorPower in
       AddValidator validator ;;;
       ret ErrNil
   end)%exec.

Definition GetSignerFromValidatorID (valID : N) : Exec KVStore (HeimdallAddress * bool) :=
  (let key := GetValidatorMapKey (ValidatorID_Bytes valID) in
   has <- store_Has key ;;
   if negb has then ret (ZeroAddress, false)
   else
     bz <- store_Get key ;;
     ret (BytesToAddress bz, true))%exec.

Definition GetValidatorFromValID (valID : N) : Exec KVStore (Validator * bool) :=
  (r <- GetSignerFromValidatorID valID ;;
   let '(signerAddr, ok) := r in
   if negb ok then ret (zero_Validator, ok)
   else
     r <- GetValidatorInfo signerAddr ;;
     let '(validator, err) := r in
     match err with
     | Err _ => ret (validator, false)
     | ErrNil => ret (validator, true)
     end)%exec.

Definition GetLastUpdated (valID : N) : Exec KVStore (N * bool) :=
  (r <- GetValidatorFromValID valID ;;
   let '(validator, ok) := r in
   if negb ok then ret (0%N, false)
   else ret (LastUpdated validator, true))%exec.

End Validators.

(** *** Iterating over the validators

    [sdk.KVStorePrefixIterator] visits the entries whose key starts with the
    prefix, in ascending order of the keys as byte strings. *)

Fixpoint bytes_leb (a b : bytes) : bool :=
  match a, b with
  | [], _ => true
  | _ :: _, [] => false
  | x :: a', y :: b' =>
      if (Byte.to_N x <? Byte.to_N y)%N then true
      else if (Byte.to_N x =? Byte.to_N y)%N then bytes_leb a' b'
      else false
  end.

Fixpoint has_prefix (prefix key : bytes) : bool :=
  match prefix, key with
  | [], _ => true
  | _ :: _, [] => false
  | x :: prefix', y :: key' => bool_decide (x = y) && has_prefix prefix' key'
  end.

Definition entry_le (e1 e2 : bytes * bytes) : Prop := bytes_leb (fst e1) (fst e2) = true.

#[global] Instance entry_le_dec (e1 e2 : bytes * bytes) : Decision (entry_le e1 e2).
Proof. unfold entry_le. apply _. Defined.

Definition KVStorePrefixIterator (s : KVStore) (prefix : bytes) : list (bytes * bytes) :=
  merge_sort entry_le (List.filter (fun e => has_prefix prefix (fst e)) (map_to_list s)).

(** The collaborator that counts the acknowledged checkpoints. *)
Class AckRetriever : Type := {
  GetACKCount : N
}.

Section ValidatorIteration.
Context `{!AminoCodec Validator} `{!AckRetriever}.

(** What [types.UnmarshallValidator] leaves in the struct when decoding
    fails; the loop ignores the error and goes on with that value. *)
Variable undecoded : bytes -> Validator.

(** [validator.IsCurrentValidator(ackCount)] is declared with the type,
    outside the embedded sources. *)
Variable IsCurrentValidator : Validator -> N -> bool.

Definition UnmarshallValidator_value (bz : bytes) : Validator :=
  match UnmarshalBinaryBare bz with
  | Some validator => validator
  | None => undecoded bz
  end.

(** The loop of [IterateValidatorsAndApplyFn] over the entries the iterator
    yields.  [f] is a Go closure: it changes what it captured, here [acc],
    and an error from it ends the loop. *)
Fixpoint iterate_loop {A} (f : Validator -> A -> A * goerror)
    (entries : list (bytes * bytes)) (acc : A) : A :=
  match entries with
  | [] => acc
  | entry :: rest =>
      let validator := UnmarshallValidator_value (snd entry) in
      match f validator acc with
      | (acc', Err _) => acc'
      | (acc', ErrNil) => iterate_loop f rest acc'
      end
  end.

Definition IterateValidatorsAndApplyFn {A} (f : Validator -> A -> A * goerror) (acc : A)
  : Exec KVStore A :=
  (s <- get_state ;;
   let iterator := KVStorePrefixIterator s ValidatorsKey in
   ret (iterate_loop f iterator acc))%exec.

Definition GetCurrentValidators : Exec KVStore (list Validator) :=
  let ackCount := GetACKCount in
  IterateValidatorsAndApplyFn
    (fun validator validators =>
       if IsCurrentValidator validator ackCount then (validators ++ [validator], ErrNil)
       else (validators, ErrNil))
    [].

Definition GetAllValidators : Exec KVStore (list Validator) :=
  IterateValidatorsAndApplyFn
    (fun validator validators => (validators ++ [validator], ErrNil))
    [].

End ValidatorIteration.

(** *** The current validator set

    [types.ValidatorSet] and its methods are declared outside the embedded
    sources: the set is a type parameter, its methods are parameters. *)

Section ValidatorSetStore.
Variable ValidatorSet : Type.
Context `{!AminoCodec ValidatorSet}.

(** What decoding leaves in [validatorSet] when it fails (the zero value
    for the nil slice of a missing key); the error is ignored. *)
Variable undecoded_set : bytes -> ValidatorSet.

Variable ValidatorSet_IncrementAccum : Z -> ValidatorSet -> ValidatorSet.
Variable ValidatorSet_CopyIncrementAccum : Z -> ValidatorSet -> ValidatorSet.
Variable ValidatorSet_GetProposer : ValidatorSet -> option Validator.

Definition UpdateValidatorSetInStore (newValidatorSet : ValidatorSet) : Exec KVStore goerror :=
  match MarshalBinaryBare newValidatorSet with
  | None => ret (Err "amino: cannot encode")
  | Some bz => (store_Set CurrentValidatorSetKey bz ;;; ret ErrNil)%exec
  end.

Definition GetValidatorSet : Exec KVStore ValidatorSet :=
  (bz <- store_Get CurrentValidatorSetKey ;;
   match UnmarshalBinaryBare bz with
   | Some validatorSet => ret validatorSet
   | None => ret (undecoded_set bz)
   end)%exec.




End ValidatorSetStore.

End Staking.

Module Listener.

(** *** Numbers: [math/big] and [strconv] *)

Definition uint64_modulus : N := 2 ^ 64.

(** [x.Uint64()]: the low 64 bits of the magnitude of [x]. *)
Definition big_Uint64 (x : Z) : N := (Z.abs_N x mod uint64_modulus)%N.

(** [big.NewInt(0).SetUint64(n)]. *)
Definition big_SetUint64 (n : N) : Z := Z.of_N n.

(** [x.String()]: decimal digits, with a minus sign for negative numbers. *)
Definition big_String (x : Z) : string := NilZero.string_of_int (Z.to_int x).

(** Addition on [uint64] wraps around. *)
Definition uint64_add (a b : N) : N := ((a + b) mod uint64_modulus)%N.

(** [strconv.ParseUint(s, 10, 64)]: a non-empty string of decimal digits
    whose value fits 64 bits; everything else is an error. *)
Definition ParseUint (s : string) : option N :=
  match NilZero.uint_of_string s with
  | Some d =>
      let n := N.of_uint d in
      if (n <? uint64_modulus)%N then Some n else None
  | None => None
  end.

(** *** Data *)

Record ChainParamsType : Type := {
  RootChainAddress : bytes;
  StakingInfoAddress : bytes;
  StateSenderAddress : bytes
}.

Record Params : Type := {
  MainchainTxConfirmations : N;
  ChainParams : ChainParamsType
}.

Record RootChainListenerContext : Type := {
  ChainmanagerParams : Params
}.

(** [ethTypes.Header]: [Number] is a pointer to a [big.Int], so arithmetic
    with that [big.Int] as receiver changes the header itself. *)
Record Header : Type := {
  Number : Z
}.

Record Log : Type := {
  Address : bytes;
  Topics : list bytes;
  Data : bytes;
  BlockNumber : N
}.

Record FilterQuery : Type := {
  FromBlock : Z;
  ToBlock : Z;
  Addresses : list bytes
}.

(** Modelled from the spec: [abi.ABI], [abi.Event] and [helper.EventByID]
    are outside the embedded sources.  An ABI is its catalogue of event
    definitions, each a name and a signature hash; [EventByID] returns the
    definition of the ABI whose signature hash is the given topic. *)
Record Event : Type := {
  Name : string;
  EventID : bytes
}.

Abbreviation ABI := (list Event).

Definition EventByID (abiObject : ABI) (sigdata : bytes) : option Event :=
  List.find (fun event => bool_decide (EventID event = sigdata)) abiObject.

(** [tasks.Arg] values: all three are strings, the second one is the JSON
    encoding of the log. *)
Variant ArgValue : Type :=
| StringValue (s : string)
| JSONValue (vLog : Log).

Record Arg : Type := {
  ArgType : string;
  Value : ArgValue
}.

(** [tasks.Signature]; [ETA] is kept as the delay added to the current
    time. *)
Record Signature : Type := {
  TaskName : string;
  Args : list Arg;
  RetryCount : Z;
  RetryTimeout : Z;
  ETA : Z
}.

Record RootChainListener : Type := {
  rootChainType : string;
  abis : list ABI
}.

Definition lastRootBlockKey : string := "rootchain-last-block".

(** *** The world of the listener

    [storage] is the bridge LevelDB, [trace] the outward calls made so far,
    oldest first, [oracleCalls] the number of rank queries made so far. *)

Variant Effect : Type :=
| EPut (key value : string) (ok : bool)
| EFilterLogs (query : FilterQuery)
| ESendTask (signature : Signature).

Record World : Type := {
  storage : gmap string string;
  trace : list Effect;
  oracleCalls : nat
}.

(** What the collaborators answer during one call of [ProcessHeader]. *)
Record Env : Type := {
  getRootChainContext : option RootChainListenerContext;
  Has_fails : bool;
  Get_fails : bool;
  Put_fails : bool;
  FilterLogs : FilterQuery -> option (list Log);
  CalculateTaskDelay : nat -> bool * Z
}.

Definition emit (e : Effect) : Exec World unit :=
  modify_state (fun w =>
    {| storage := storage w; trace := trace w ++ [e]; oracleCalls := oracleCalls w |}).

(** goleveldb's [Has] answers [false] next to an error. *)
Definition storage_Has (env : Env) (key : string) : Exec World bool :=
  (w <- get_state ;;
   ret (if Has_fails env then false else bool_decide (is_Some (storage w !! key))))%exec.

(** [None] is an error, also for a key that is not found. *)
Definition storage_Get (env : Env) (key : string) : Exec World (option string) :=
  (w <- get_state ;;
   ret (if Get_fails env then None else storage w !! key))%exec.

Definition storage_Put (env : Env) (key value : string) : Exec World bool :=
  (if Put_fails env then
     emit (EPut key value false) ;;; ret false
   else
     modify_state (fun w =>
       {| storage := <[key := value]> (storage w); trace := trace w;
          oracleCalls := oracleCalls w |}) ;;;
     emit (EPut key value true) ;;; ret true)%exec.

Definition client_FilterLogs (env : Env) (query : FilterQuery) : Exec World (option (list Log)) :=
  (emit (EFilterLogs query) ;;; ret (FilterLogs env query))%exec.

Definition util_CalculateTaskDelay (env : Env) : Exec World (bool * Z) :=
  (w <- get_state ;;
   modify_state (fun w =>
     {| storage := storage w; trace := trace w; oracleCalls := S (oracleCalls w) |}) ;;;
   ret (CalculateTaskDelay env (oracleCalls w)))%exec.

(** *** [sendTaskWithDelay] *)

Definition sendTaskWithDelay (rl : RootChainListener) (taskName eventName : string)
    (vLog : Log) (delay : Z) : Exec World unit :=
  let signature :=
    {| TaskName := taskName;
       Args := [ {| ArgType := "string"; Value := StringValue eventName |};
                 {| ArgType := "string"; Value := JSONValue vLog |};
                 {| ArgType := "string"; Value := StringValue (rootChainType rl) |} ];
       RetryCount := 3;
       RetryTimeout := 3;
       ETA := delay |} in
  emit (ESendTask signature).

(** *** [queryAndBroadcastEvents] *)

(** One case of the [switch]: ask the rank oracle, send when the node is a
    current validator. *)
Definition send_if_current (rl : RootChainListener) (env : Env) (taskName : string)
    (selectedEvent : Event) (vLog : Log) : Exec World unit :=
  (r <- util_CalculateTaskDelay env ;;
   let '(isCurrentValidator, delay) := r in
   if isCurrentValidator : bool then
     sendTaskWithDelay rl taskName (Name selectedEvent) vLog delay
   else ret tt)%exec.

Definition switch_event (rl : RootChainListener) (env : Env)
    (selectedEvent : Event) (vLog : Log) : Exec World unit :=
  if String.eqb (Name selectedEvent) "NewHeaderBlock" then
    send_if_current rl env "sendCheckpointAckToHeimdall" selectedEvent vLog
  else if String.eqb (Name selectedEvent) "StateSynced" then
    send_if_current rl env "sendStateSyncedToHeimdall" selectedEvent vLog
  else if String.eqb (Name selectedEvent) "StakeAck" then
    send_if_current rl env "sendStakingAckToHeimdall" selectedEvent vLog
  else ret tt.

(** The inner loop, over [rl.abis]: no iteration leaves the loop early. *)
Fixpoint abi_loop (rl : RootChainListener) (env : Env) (remaining : list ABI)
    (vLog : Log) (topic : bytes) : Exec World unit :=
  match remaining with
  | [] => ret tt
  | abiObject :: rest =>
      (let selectedEvent := EventByID abiObject topic in
       match selectedEvent with
       | Some selectedEvent => switch_event rl env selectedEvent vLog
       | None => ret tt
       end ;;;
       abi_loop rl env rest vLog topic)%exec
  end.

(** The outer loop, over the fetched logs; [vLog.Topics[0]] panics on a log
    without topics. *)
Fixpoint log_loop (rl : RootChainListener) (env : Env) (logs : list Log)
    : Exec World unit :=
  match logs with
  | [] => ret tt
  | vLog :: rest =>
      match Topics vLog !! 0%nat with
      | None => panic "index out of range [0] with length 0"
      | Some topic =>
          (abi_loop rl env (abis rl) vLog topic ;;;
           log_loop rl env rest)%exec
      end
  end.

Definition queryAndBroadcastEvents (rl : RootChainListener) (env : Env)
    (rootchainContext : RootChainListenerContext) (fromBlock toBlock : Z)
    : Exec World unit :=
  (let chainParams := ChainParams (ChainmanagerParams rootchainContext) in
   let query :=
     {| FromBlock := fromBlock; ToBlock := toBlock;
        Addresses := [ RootChainAddress chainParams;
                       StakingInfoAddress chainParams;
                       StateSenderAddress chainParams ] |} in
   r <- client_FilterLogs env query ;;
   match r with
   | None => ret tt
   | Some logs => log_loop rl env logs
   end)%exec.

(** *** [ProcessHeader]

    The result is the header as the call leaves it. *)
Definition ProcessHeader (rl : RootChainListener) (env : Env) (newHeader : Header)
    : Exec World Header :=
  match getRootChainContext env with
  | None => ret newHeader
  | Some rootchainContext =>
      let requiredConfirmations :=
        MainchainTxConfirmations (ChainmanagerParams rootchainContext) in
      let latestNumber := Number newHeader in
      let confirmationBlocks := big_SetUint64 requiredConfirmations in
      if latestNumber <=? confirmationBlocks then ret newHeader
      else
        (* [latestNumber] and [newHeader.Number] are one pointer, and [Sub]
           stores the difference in its receiver: the header changes too *)
        let newHeader := {| Number := latestNumber - confirmationBlocks |} in
        let latestNumber := Number newHeader in
        let fromBlock := latestNumber in
        (hasLastBlock <- storage_Has env lastRootBlockKey ;;
         (* [None] stands for an early return *)
         decided <-
           (if hasLastBlock : bool then
              r <- storage_Get env lastRootBlockKey ;;
              match r with
              | None => ret None
              | Some lastBlockBytes =>
                  match ParseUint lastBlockBytes with
                  | Some result =>
                      if (big_Uint64 (Number newHeader) <=? result)%N then ret None
                      else if (uint64_add result 1 <? big_Uint64 fromBlock)%N then
                        ret (Some (big_SetUint64 (uint64_add result 1)))
                      else ret (Some fromBlock)
                  | None => ret (Some fromBlock)
                  end
              end
            else ret (Some fromBlock)) ;;
         match decided with
         | None => ret newHeader
         | Some fromBlock =>
             let toBlock := latestNumber in
             let fromBlock := if toBlock <? fromBlock then toBlock else fromBlock in
             storage_Put env lastRootBlockKey (big_String toBlock) ;;;
             queryAndBroadcastEvents rl env rootchainContext fromBlock toBlock ;;;
             ret newHeader
         end)%exec
  end.

(** Successive head notifications, each with what the collaborators answer
    during it. *)
Fixpoint run (rl : RootChainListener) (inputs : list (Env * Header)) : Exec World unit :=
  match inputs with
  | [] => ret tt
  | (env, newHeader) :: rest =>
      (ProcessHeader rl env newHeader ;;; run rl rest)%exec
  end.

(** The persisted watermark, when one is stored and readable as a number. *)
Definition watermark (w : World) : option N :=
  storage w !! lastRootBlockKey ≫= ParseUint.

(** The log queries and the tasks of a trace. *)
Definition queries (t : list Effect) : list FilterQuery :=
  omap (fun e => match e with EFilterLogs q => Some q | _ => None end) t.

Definition tasks (t : list Effect) : list Signature :=
  omap (fun e => match e with ESendTask sg => Some sg | _ => None end) t.

(** What a computation adds to the trace when started in [w]. *)
Definition emitted {A} (m : Exec World A) (w : World) : list Effect :=
  drop (length (trace w)) (trace (snd (m w))).

(** *** The range decision of [ProcessHeader], read off its code

    Used in the proofs only: which range [ProcessHeader] queries for a head,
    given what the collaborators answer and what the storage holds; [None]
    when it returns before the query. *)
Definition range_decision (env : Env) (newHeader : Header) (st : gmap string string)
  : option (RootChainListenerContext * Z * Z) :=
  match getRootChainContext env with
  | None => None
  | Some rootchainContext =>
      let confirmationBlocks :=
        Z.of_N (MainchainTxConfirmations (ChainmanagerParams rootchainContext)) in
      if Number newHeader <=? confirmationBlocks then None
      else
        let toBlock := Number newHeader - confirmationBlocks in
        if Has_fails env then Some (rootchainContext, toBlock, toBlock)
        else
          match st !! lastRootBlockKey with
          | None => Some (rootchainContext, toBlock, toBlock)
          | Some lastBlockBytes =>
              if Get_fails env then None
              else
                match ParseUint lastBlockBytes with
                | None => Some (rootchainContext, toBlock, toBlock)
                | Some result =>
                    if (big_Uint64 toBlock <=? result)%N then None
                    else if (uint64_add result 1 <? big_Uint64 toBlock)%N then
                      Some (rootchainContext, Z.of_N (uint64_add result 1), toBlock)
                    else Some (rootchainContext, toBlock, toBlock)
                end
          end
  end.

(** [w'] is [w] after the tasks [sigs] were sent and nothing else was done
    to the storage or the trace. *)
Definition sent (w w' : World) (sigs : list Signature) : Prop :=
  storage w' = storage w /\ trace w' = trace w ++ map ESendTask sigs.

(** The event names the [switch] of [queryAndBroadcastEvents] has a case
    for. *)
Definition has_case (name : string) : bool :=
  String.eqb name "NewHeaderBlock" || String.eqb name "StateSynced"
  || String.eqb name "StakeAck".

(** The ABIs of a list whose catalogue holds the topic. *)
Definition matching_abis (remaining : list ABI) (topic : bytes) : list ABI :=
  List.filter (fun abiObject => bool_decide (is_Some (EventByID abiObject topic))) remaining.

(** The header as a call of [ProcessHeader] that returns leaves it: once
    the head is deeper than the confirmations, the subtraction has been
    stored in it. *)
Definition header_after (env : Env) (newHeader : Header) : Header :=
  match getRootChainContext env with
  | None => newHeader
  | Some rootchainContext =>
      let confirmationBlocks :=
        Z.of_N (MainchainTxConfirmations (ChainmanagerParams rootchainContext)) in
      if Number newHeader <=? confirmationBlocks then newHeader
      else {| Number := Number newHeader - confirmationBlocks |}
  end.

(** The world in which the logs of a cycle are processed. *)
Definition before_logs (env : Env) (w : World) (query : FilterQuery) : World :=
  {| storage := if Put_fails env then storage w
                else <[lastRootBlockKey := big_String (ToBlock query)]> (storage w);
     trace := trace w ++ [EPut lastRootBlockKey (big_String (ToBlock query))
                            (negb (Put_fails env)); EFilterLogs query];
     oracleCalls := oracleCalls w |}.

Definition query_of (rootchainContext : RootChainListenerContext) (fromBlock toBlock : Z)
  : FilterQuery :=
  let chainParams := ChainParams (ChainmanagerParams rootchainContext) in
  {| FromBlock := fromBlock; ToBlock := toBlock;
     Addresses := [ RootChainAddress chainParams;
                    StakingInfoAddress chainParams;
                    StateSenderAddress chainParams ] |}.

(** The cases of the [switch]: event name and task name. *)
Definition dispatch_table : list (string * string) :=
  [ ("NewHeaderBlock", "sendCheckpointAckToHeimdall");
    ("StateSynced", "sendStateSyncedToHeimdall");
    ("StakeAck", "sendStakingAckToHeimdall") ]%string.

(** [sg] is a task that the listener builds for the log [vLog]: an ABI of
    the listener holds the first topic of the log, the event found has a
    case in the [switch], and the signature is the one [sendTaskWithDelay]
    builds for it. *)
Definition task_of_log (rl : RootChainListener) (candidates : list ABI) (vLog : Log)
    (sg : Signature) : Prop :=
  exists (abiObject : ABI) (selectedEvent : Event) (topic : bytes) (taskName : string),
    abiObject ∈ candidates
    /\ Topics vLog !! 0%nat = Some topic
    /\ EventByID abiObject topic = Some selectedEvent
    /\ (Name selectedEvent, taskName) ∈ dispatch_table
    /\ TaskName sg = taskName
    /\ Args sg = [ {| ArgType := "string"; Value := StringValue (Name selectedEvent) |};
                   {| ArgType := "string"; Value := JSONValue vLog |};
                   {| ArgType := "string"; Value := StringValue (rootChainType rl) |} ]
    /\ RetryCount sg = 3 /\ RetryTimeout sg = 3.

End Listener.

Module Tron.

(** *** The Tron client ([tron/tronclient.go])

    The gRPC wallet client and the ABI of the root chain contract are
    collaborators: each remote call and each [Pack] or [Unpack] answers a
    value or an error message.  Pointers that the code follows without a
    check are options here, and following a nil one is a panic. *)

Definition Return_SUCCESS : Z := 0.

Record Return : Type := {
  Code : Z;
  Message : bytes
}.

Record Transaction : Type := {
  RawData : bytes
}.

Record TransactionExtention : Type := {
  TransactionOf : option Transaction;
  Result : option Return;
  ConstantResult : list bytes
}.

Record TriggerSmartContract : Type := {
  OwnerAddress : bytes;
  ContractAddress : bytes;
  CallValue : Z;
  Data : bytes;
  CallTokenValue : Z;
  TokenId : Z
}.

Record BlockHeader_raw : Type := {
  Number : Z
}.

Record BlockHeader : Type := {
  BlockHeader_RawData : option BlockHeader_raw
}.

Record BlockExtention : Type := {
  BlockHeaderOf : option BlockHeader
}.

(** The results of [headerBlocks] as [Unpack] fills them in. *)
Record HeaderBlock : Type := {
  Root : bytes;
  Start : Z;
  End_ : Z;
  CreatedAt : Z;
  Proposer : bytes
}.

(** [pb.WalletClient], the interface of the remote wallet. *)
Class WalletClient : Type := {
  client_TriggerContract : TriggerSmartContract -> TransactionExtention + string;
  client_TriggerConstantContract : TriggerSmartContract -> TransactionExtention + string;
  client_GetNowBlock2 : BlockExtention + string;
  client_BroadcastTransaction : Transaction -> Return + string
}.

(** The ABI of the root chain contract: [Pack] of a method with its
    arguments, [Unpack] of the results of a method into one number or into
    the fields of a header block. *)
Class RootchainABI : Type := {
  Pack : string -> list Z -> bytes + string;
  Unpack_number : string -> bytes -> Z + string;
  Unpack_headerBlock : string -> bytes -> HeaderBlock + string
}.

Definition nil_pointer : string := "invalid memory address or nil pointer dereference".

Section Client.
Context `{!WalletClient} `{!RootchainABI}.

(** [common.FromHex], [hex.EncodeToString] and the text of a response code
    under [%v] belong to libraries outside the embedded sources. *)
Variable FromHex : string -> bytes.
Variable hex_EncodeToString : bytes -> string.
Variable code_text : Z -> string.

(** [fmt.Errorf("code:%v message:%v", code, string(message))]. *)
Definition code_error (r : Return) : goerror :=
  Err ("code:" ++ code_text (Code r) ++ " message:" ++ string_of_list_byte (Message r)).

Definition TriggerContract (ownerAddress contractAddress : string) (data : bytes)
  : outcome (option Transaction * goerror) :=
  match client_TriggerContract
          {| OwnerAddress := FromHex ("41" ++ ownerAddress);
             ContractAddress := FromHex contractAddress;
             CallValue := 0; Data := data; CallTokenValue := 0; TokenId := 0 |} with
  | inr err => Returned (None, Err err)
  | inl response =>
      match Result response with
      | None => Panicked nil_pointer
      | Some result =>
          if negb (Code result =? Return_SUCCESS) then Returned (None, code_error result)
          else Returned (TransactionOf response, ErrNil)
      end
  end.

Definition TriggerConstantContract (contractAddress : string) (data : bytes)
  : outcome (bytes * goerror) :=
  match client_TriggerConstantContract
          {| OwnerAddress := [];
             ContractAddress := FromHex contractAddress;
             CallValue := 0; Data := data; CallTokenValue := 0; TokenId := 0 |} with
  | inr err => Returned ([], Err err)
  | inl response =>
      match Result response with
      | None => Panicked nil_pointer
      | Some result =>
          if negb (Code result =? Return_SUCCESS) then Returned ([], code_error result)
          else
            match ConstantResult response !! 0%nat with
            | None => Panicked "index out of range [0] with length 0"
            | Some first => Returned (first, ErrNil)
            end
      end
  end.

Definition GetNowBlock : outcome (Z * goerror) :=
  match client_GetNowBlock2 with
  | inr err => Returned (0, Err err)
  | inl block =>
      match BlockHeaderOf block with
      | None => Panicked nil_pointer
      | Some header =>
          match BlockHeader_RawData header with
          | None => Panicked nil_pointer
          | Some raw => Returned (Number raw, ErrNil)
          end
      end
  end.

Definition CurrentHeaderBlock (contractAddress : string) (childBlockInterval : N)
  : outcome (N * goerror) :=
  match Pack "currentHeaderBlock" [] with
  | inr err => Returned (0%N, Err err)
  | inl btsPack =>
      match TriggerConstantContract contractAddress btsPack with
      | Panicked msg => Panicked msg
      | Returned (_, Err err) => Returned (0%N, Err err)
      | Returned (data, ErrNil) =>
          match Unpack_number "currentHeaderBlock" data with
          | inr _ => Returned (0%N, ErrNil)
          | inl ret0 =>
              if (childBlockInterval =? 0)%N then Panicked "integer divide by zero"
              else Returned ((Listener.big_Uint64 ret0 / childBlockInterval)%N, ErrNil)
          end
      end
  end.

Definition GetHeaderInfo (number : N) (contractAddress : string) (childBlockInterval : N)
  : outcome (bytes * N * N * N * bytes * goerror) :=
  let zero_root := repeat Byte.x00 32 in
  let zero_address := repeat Byte.x00 20 in
  match Pack "headerBlocks"
          [Listener.big_SetUint64 number * Listener.big_SetUint64 childBlockInterval] with
  | inr err => Returned (zero_root, 0%N, 0%N, 0%N, zero_address, Err err)
  | inl btsPack =>
      match TriggerConstantContract contractAddress btsPack with
      | Panicked msg => Panicked msg
      | Returned (_, Err err) => Returned (zero_root, 0%N, 0%N, 0%N, zero_address, Err err)
      | Returned (data, ErrNil) =>
          match Unpack_headerBlock "headerBlocks" data with
          | inr err => Returned (zero_root, 0%N, 0%N, 0%N, zero_address, Err err)
          | inl ret =>
              Returned (Root ret, Listener.big_Uint64 (Start ret),
                        Listener.big_Uint64 (End_ ret),
                        Listener.big_Uint64 (CreatedAt ret), Proposer ret, ErrNil)
          end
      end
  end.

Definition GetLastChildBlock (contractAddress : string) : outcome (N * goerror) :=
  match Pack "getLastChildBlock" [] with
  | inr err => Returned (0%N, Err err)
  | inl btsPack =>
      match TriggerConstantContract contractAddress btsPack with
      | Panicked msg => Panicked msg
      | Returned (_, Err err) => Returned (0%N, Err err)
      | Returned (data, ErrNil) =>
          match Unpack_number "getLastChildBlock" data with
          | inr _ => Returned (0%N, ErrNil)
          | inl ret0 => Returned (Listener.big_Uint64 ret0, ErrNil)
          end
      end
  end.

Definition BroadcastTransaction (trx : Transaction) : outcome (string * goerror) :=
  match client_BroadcastTransaction trx with
  | inr err => Returned (EmptyString, Err err)
  | inl result =>
      if negb (Code result =? Return_SUCCESS) then Returned (EmptyString, code_error result)
      else Returned (hex_EncodeToString (Message result), ErrNil)
  end.

(** The remote wallet answers the constant call for [data] on
    [contractAddress] with the success code and [out] as first constant
    result. *)
Definition answers (contractAddress : string) (data out : bytes) : Prop :=
  exists response result,
    client_TriggerConstantContract
      {| OwnerAddress := []; ContractAddress := FromHex contractAddress;
         CallValue := 0; Data := data; CallTokenValue := 0; TokenId := 0 |}
    = inl response
    /\ Result response = Some result
    /\ Code result = Return_SUCCESS
    /\ ConstantResult response !! 0%nat = Some out.

End Client.

End Tron.

(** ** A codec to run the keeper on concrete stores

    Any countable type can be encoded through its [positive] code, one bit
    per byte.  It satisfies the laws the keeper relies on. *)

Fixpoint bytes_of_positive (p : positive) : bytes :=
  match p with
  | xH => []
  | xO q => Byte.x00 :: bytes_of_positive q
  | xI q => Byte.x01 :: bytes_of_positive q
  end.

Fixpoint positive_of_bytes (bz : bytes) : option positive :=
  match bz with
  | [] => Some xH
  | b :: rest =>
      q ← positive_of_bytes rest;
      if decide (b = Byte.x00) then Some (xO q)
      else if decide (b = Byte.x01) then Some (xI q)
      else None
  end.

Definition bit_codec (A : Type) `{Countable A} : AminoCodec A :=
  {| MarshalBinaryBare := fun a => Some (bytes_of_positive (encode a));
     UnmarshalBinaryBare := fun bz => positive_of_bytes bz ≫= decode |}.

#[global] Instance RecordKind_eq_dec : EqDecision Staking.RecordKind.
Proof. solve_decision. Defined.

#[global] Instance RecordKind_countable : Countable Staking.RecordKind :=
  inj_countable'
    (fun k => match k with
              | Staking.KindStake => 0%nat
              | Staking.KindUnstake => 1%nat
              | Staking.KindSignerChange => 2%nat
              end)
    (fun n => match n with
              | O => Staking.KindStake
              | S O => Staking.KindUnstake
              | _ => Staking.KindSignerChange
              end)
    (fun k => match k with
              | Staking.KindStake | Staking.KindUnstake | Staking.KindSignerChange => eq_refl
              end).

#[global] Instance StakingRecord_eq_dec : EqDecision Staking.StakingRecord.
Proof. solve_decision. Defined.

#[global] Instance StakingRecord_countable : Countable Staking.StakingRecord :=
  inj_countable'
    (fun r => (Staking.ValidatorID r, Staking.Nonce r, Staking.TxHash r,
               Staking.Kind r, Staking.Payload r))
    (fun t => let '(v, n, h, k, p) := t in
              {| Staking.ValidatorID := v; Staking.Nonce := n; Staking.TxHash := h;
                 Staking.Kind := k; Staking.Payload := p |})
    (fun r => match r with Staking.Build_StakingRecord _ _ _ _ _ => eq_refl end).

#[global] Instance Validator_eq_dec : EqDecision Staking.Validator.
Proof. solve_decision. Defined.

#[global] Instance Validator_countable : Countable Staking.Validator :=
  inj_countable'
    (fun v => (Staking.ID v, Staking.StartEpoch v, Staking.EndEpoch v, Staking.Power v,
               Staking.PubKey v, Staking.Signer v, Staking.LastUpdated v, Staking.Accum v))
    (fun t => let '(i, s, e, p, k, a, l, c) := t in
              {| Staking.ID := i; Staking.StartEpoch := s; Staking.EndEpoch := e;
                 Staking.Power := p; Staking.PubKey := k; Staking.Signer := a;
                 Staking.LastUpdated := l; Staking.Accum := c |})
    (fun v => match v with Staking.Build_Validator _ _ _ _ _ _ _ _ => eq_refl end).


(** ** Sample data *)

Module Sample.
Import Staking.

Definition queueKey : bytes := [Byte.x40].
Definition rootID : byte := Byte.x01.

Definition recA : StakingRecord :=
  {| ValidatorID := 1; Nonce := 7; TxHash := [Byte.x0a]; Kind := KindStake; Payload := [] |}.
Definition recB : StakingRecord :=
  {| ValidatorID := 2; Nonce := 3; TxHash := [Byte.x0b]; Kind := KindUnstake; Payload := [] |}.
Definition recC : StakingRecord :=
  {| ValidatorID := 3; Nonce := 5; TxHash := [Byte.x0c]; Kind := KindSignerChange;
     Payload := [] |}.

Definition queue_codec : AminoCodec (list StakingRecord) := bit_codec (list StakingRecord).

(** The store after enqueuing the given records, in order, from the empty
    store. *)
Definition store_with (records : list StakingRecord) : KVStore :=
  foldl (fun s r => snd (@AddStakingRecordToQueue queue_codec queueKey rootID r s))
        ∅ records.

Definition validator_codec : AminoCodec Validator := bit_codec Validator.

(** Validator IDs as the bytes of their binary code. *)
Definition id_bytes (valID : N) : bytes := bytes_of_positive (encode valID).

Definition signerOld : HeimdallAddress := repeat Byte.x11 AddressLength.
Definition signerNew : HeimdallAddress := repeat Byte.x22 AddressLength.

Definition validator1 : Validator :=
  {| ID := 4; StartEpoch := 1; EndEpoch := 0; Power := 10; PubKey := [Byte.xaa];
     Signer := signerOld; LastUpdated := 0; Accum := 0 |}.

Definition validator_store : KVStore :=
  snd (@AddValidator validator_codec id_bytes validator1 ∅).

End Sample.

Module SampleChain.
Import Listener.

Definition topicNewHeaderBlock : bytes := [Byte.x01].
Definition topicStateSynced : bytes := [Byte.x02].
Definition topicStakeAck : bytes := [Byte.x03].

Definition rootChainABI : ABI :=
  [ {| Name := "NewHeaderBlock"; EventID := topicNewHeaderBlock |} ].
Definition stateSenderABI : ABI :=
  [ {| Name := "StateSynced"; EventID := topicStateSynced |} ].
Definition stakingInfoABI : ABI :=
  [ {| Name := "StakeAck"; EventID := topicStakeAck |};
    {| Name := "StateSynced"; EventID := topicStateSynced |} ].

(** The three ABIs in the order of [NewRootChainListener]; in this sample
    the last one declares the [StateSynced] signature too. *)
Definition listener : RootChainListener :=
  {| rootChainType := "eth"; abis := [rootChainABI; stateSenderABI; stakingInfoABI] |}.

Definition context : RootChainListenerContext :=
  {| ChainmanagerParams :=
       {| MainchainTxConfirmations := 3;
          ChainParams := {| RootChainAddress := [Byte.xa1];
                              StakingInfoAddress := [Byte.xa2];
                              StateSenderAddress := [Byte.xa3] |} |} |}.

Definition stateSyncedLog : Log :=
  {| Address := [Byte.xa3]; Topics := [topicStateSynced]; Data := []; BlockNumber := 102 |}.

(** Every collaborator answers; the query returns one [StateSynced] log and
    the node is the first current validator. *)
Definition env : Env :=
  {| getRootChainContext := Some context;
     Has_fails := false; Get_fails := false; Put_fails := false;
     FilterLogs := fun _ => Some [stateSyncedLog];
     CalculateTaskDelay := fun _ => (true, 0) |}.

(** As [env], with a failing log query. *)
Definition env_query_fails : Env :=
  {| getRootChainContext := Some context;
     Has_fails := false; Get_fails := false; Put_fails := false;
     FilterLogs := fun _ => None;
     CalculateTaskDelay := fun _ => (true, 0) |}.

Definition fresh : World := {| storage := ∅; trace := []; oracleCalls := 0 |}.

(** A world whose stored watermark is 100. *)
Definition at100 : World :=
  {| storage := {[ lastRootBlockKey := "100"%string ]}; trace := []; oracleCalls := 0 |}.

End SampleChain.

Module SampleMore.
Import Staking.

Definition otherRoot : byte := Byte.x02.

(** A store whose blob for the sample root does not decode. *)
Definition corrupt_store : KVStore :=
  {[ getStakingQueueKey Sample.queueKey Sample.rootID := [Byte.x02] ]}.


Definition thirdSigner : HeimdallAddress := repeat Byte.x33 AddressLength.


Definition validator2 : Validator :=
  {| ID := 5; StartEpoch := 1; EndEpoch := 0; Power := 5; PubKey := [Byte.xcc];
     Signer := thirdSigner; LastUpdated := 9; Accum := 0 |}.

End SampleMore.

Module SampleChainMore.
Import Listener.

Definition with_failures (has_fails get_fails put_fails : bool) : Env :=
  {| getRootChainContext := Some SampleChain.context;
     Has_fails := has_fails; Get_fails := get_fails; Put_fails := put_fails;
     FilterLogs := fun _ => Some [SampleChain.stateSyncedLog];
     CalculateTaskDelay := fun _ => (true, 0) |}.

(** The node is not a current validator. *)
Definition env_not_validator : Env :=
  {| getRootChainContext := Some SampleChain.context;
     Has_fails := false; Get_fails := false; Put_fails := false;
     FilterLogs := fun _ => Some [SampleChain.stateSyncedLog];
     CalculateTaskDelay := fun _ => (false, 0) |}.

Definition unknownLog : Log :=
  {| Address := [Byte.xa1]; Topics := [[Byte.x09]]; Data := []; BlockNumber := 102 |}.

Definition bareLog : Log :=
  {| Address := [Byte.xa1]; Topics := []; Data := []; BlockNumber := 102 |}.

Definition env_with_logs (logs : list Log) : Env :=
  {| getRootChainContext := Some SampleChain.context;
     Has_fails := false; Get_fails := false; Put_fails := false;
     FilterLogs := fun _ => Some logs;
     CalculateTaskDelay := fun _ => (true, 0) |}.

(** A world whose stored value is not a number. *)
Definition garbled : World :=
  {| storage := {[ lastRootBlockKey := "12x"%string ]}; trace := []; oracleCalls := 0 |}.

End SampleChainMore.

Module SampleTron.
Import Tron.

(** A wallet that answers every constant call with the success code and
    the call data as only constant result, and an ABI that packs a method
    to one byte and decodes every number as 1200 and no header block. *)
Definition wallet : WalletClient :=
  {| client_TriggerContract := fun _ => inr "unavailable"%string;
     client_TriggerConstantContract := fun request =>
       inl {| TransactionOf := None;
              Result := Some {| Code := 0; Message := [] |};
              ConstantResult := [Data request] |};
     client_GetNowBlock2 := inr "unavailable"%string;
     client_BroadcastTransaction := fun _ => inr "unavailable"%string |}.

Definition abi : RootchainABI :=
  {| Pack := fun _ _ => inl [Byte.x01];
     Unpack_number := fun _ _ => inl 1200;
     Unpack_headerBlock := fun _ _ => inr "bad data"%string |}.

Definition fromHex (s : string) : bytes := list_byte_of_string s.
Definition codeText (code : Z) : string := "CODE"%string.

End SampleTron.

(** * Facts *)

Lemma positive_of_bytes_of_positive (p : positive) :
  positive_of_bytes (bytes_of_positive p) = Some p.
Proof.
  induction p as [q IH | q IH |]; simpl; [rewrite IH | rewrite IH |]; reflexivity.
Qed.

Lemma bit_codec_laws (A : Type) `{Countable A} : @AminoCodecLaws A (bit_codec A).
Proof.
  split.
  - intros a. simpl. eauto.
  - intros a bz. simpl. intros [= <-].
    rewrite positive_of_bytes_of_positive. simpl. apply decode_encode.
Qed.

(** ** The staking queue *)

Section QueueFacts.
Import Staking.
Context `{!AminoCodec (list StakingRecord)} `{!AminoCodecLaws (list StakingRecord)}.
Variable stakingSendingQueueKey : bytes.

Local Abbreviation key_of := (getStakingQueueKey stakingSendingQueueKey).
Local Abbreviation queue_of := (stored_queue stakingSendingQueueKey).

Lemma Has_present (s : KVStore) (key bz : bytes) :
  s !! key = Some bz -> store_Has key s = (Returned true, s).
Proof.
  intros E. unfold store_Has. rewrite E.
  rewrite bool_decide_eq_true_2 by eauto. reflexivity.
Qed.

Lemma Has_absent (s : KVStore) (key : bytes) :
  s !! key = None -> store_Has key s = (Returned false, s).
Proof.
  intros E. unfold store_Has. rewrite E.
  rewrite bool_decide_eq_false_2; [reflexivity |]. intros [x Hx]. discriminate.
Qed.

Lemma Get_present (s : KVStore) (key bz : bytes) :
  s !! key = Some bz -> store_Get key s = (Returned bz, s).
Proof. intros E. unfold store_Get. rewrite E. reflexivity. Qed.

(** A stored queue is a present blob that decodes. *)
Lemma queue_of_Some (s : KVStore) (rootID : byte) (records : list StakingRecord) :
  queue_of s rootID = Some records ->
  exists bz, s !! key_of rootID = Some bz /\ UnmarshalBinaryBare bz = Some records.
Proof.
  unfold stored_queue. destruct (s !! key_of rootID) as [bz |] eqn:E; simpl.
  - intros Hd. exists bz. split; [reflexivity | exact Hd].
  - discriminate.
Qed.

Lemma queue_of_insert (s : KVStore) (rootID : byte) (records : list StakingRecord)
    (bz : bytes) :
  MarshalBinaryBare records = Some bz ->
  queue_of (<[key_of rootID := bz]> s) rootID = Some records.
Proof.
  intros Hm. unfold stored_queue. rewrite lookup_insert_eq. simpl.
  apply unmarshal_marshal. exact Hm.
Qed.

(** *** Removal *)

(** The loop writes the part of [records] after the first match. *)
Lemma remove_loop_match (s : KVStore) (key : bytes) (validatorID nonce : N)
    (visited before : list StakingRecord) (record : StakingRecord)
    (after : list StakingRecord) :
  Forall (fun r => matches validatorID nonce r = false) before ->
  matches validatorID nonce record = true ->
  exists bz,
    MarshalBinaryBare after = Some bz /\
    remove_loop key (visited ++ before ++ record :: after) (length visited)
      (before ++ record :: after) validatorID nonce s
    = (Returned tt, <[key := bz]> s).
Proof.
  intros Hbefore Hrecord. revert visited.
  induction before as [| b before IH]; intros visited; simpl.
  - rewrite Hrecord.
    replace (drop (S (length visited)) (visited ++ record :: after)) with after.
    + destruct (marshal_total after) as [bz Hbz]. exists bz.
      rewrite Hbz. split; reflexivity.
    + change (S (length visited)) with (1 + length visited)%nat.
      rewrite Nat.add_comm, <- drop_drop, drop_app_length. reflexivity.
  - inversion Hbefore as [| ? ? Hb Hrest]; subst. rewrite Hb.
    destruct (IH Hrest (visited ++ [b])) as (bz & Hbz & Hrun).
    exists bz. split; [exact Hbz |].
    rewrite length_app in Hrun. simpl in Hrun.
    rewrite Nat.add_1_r in Hrun. rewrite <- Hrun.
    rewrite <- !app_assoc. reflexivity.
Qed.

Lemma remove_loop_no_match (s : KVStore) (key : bytes) (validatorID nonce : N)
    (records remaining : list StakingRecord) (index : nat) :
  Forall (fun r => matches validatorID nonce r = false) remaining ->
  remove_loop key records index remaining validatorID nonce s = (Returned tt, s).
Proof.
  intros Hall. revert index.
  induction Hall as [| r remaining Hr _ IH]; intros index; simpl.
  - reflexivity.
  - rewrite Hr. apply IH.
Qed.

(** What [removeStakingRecordFromQueue] stores: the records after the
    first match; the records before it are dropped with it. *)
Lemma removeStakingRecordFromQueue_stores_tail (s : KVStore) (rootID : byte)
    (validatorID nonce : N) (before : list StakingRecord) (record : StakingRecord)
    (after : list StakingRecord) :
  queue_of s rootID = Some (before ++ record :: after) ->
  Forall (fun r => matches validatorID nonce r = false) before ->
  matches validatorID nonce record = true ->
  queue_of (snd (removeStakingRecordFromQueue stakingSendingQueueKey rootID
                   validatorID nonce s)) rootID = Some after.
Proof.
  intros Hq Hbefore Hrecord.
  destruct (queue_of_Some _ _ _ Hq) as (bz & Hbz & Hdec).
  unfold removeStakingRecordFromQueue, bind.
  rewrite (Has_present _ _ _ Hbz). cbn beta iota delta [negb].
  rewrite (Get_present _ _ _ Hbz), Hdec.
  destruct (remove_loop_match s (key_of rootID) validatorID nonce [] before record after
              Hbefore Hrecord) as (out & Hout & Hrun).
  simpl in Hrun. rewrite Hrun. simpl.
  apply queue_of_insert. exact Hout.
Qed.

(** Without a match the store is left as it is. *)
Lemma removeStakingRecordFromQueue_no_match (s : KVStore) (rootID : byte)
    (validatorID nonce : N) (records : list StakingRecord) :
  queue_of s rootID = Some records ->
  Forall (fun r => matches validatorID nonce r = false) records ->
  removeStakingRecordFromQueue stakingSendingQueueKey rootID validatorID nonce s
  = (Returned tt, s).
Proof.
  intros Hq Hall.
  destruct (queue_of_Some _ _ _ Hq) as (bz & Hbz & Hdec).
  unfold removeStakingRecordFromQueue, bind.
  rewrite (Has_present _ _ _ Hbz). cbn beta iota delta [negb].
  rewrite (Get_present _ _ _ Hbz), Hdec.
  apply remove_loop_no_match. exact Hall.
Qed.

End QueueFacts.

Section QueueClaims.
Import Staking.
Context `{!AminoCodec (list StakingRecord)} `{!AminoCodecLaws (list StakingRecord)}.
Variable stakingSendingQueueKey : bytes.

Local Abbreviation key_of := (getStakingQueueKey stakingSendingQueueKey).
Local Abbreviation queue_of := (stored_queue stakingSendingQueueKey).
Local Abbreviation list_of := (persisted_list stakingSendingQueueKey).

Lemma find_loop_existsb (records : list StakingRecord) (r : StakingRecord) :
  find_loop records r = existsb (fun record => same_triple record r) records.
Proof.
  induction records as [| record rest IH]; simpl; [reflexivity |].
  rewrite IH. destruct (same_triple record r); reflexivity.
Qed.

Lemma same_triple_refl (r : StakingRecord) : same_triple r r = true.
Proof.
  unfold same_triple. rewrite !N.eqb_refl, bool_decide_eq_true_2; reflexivity.
Qed.

(** [AddStakingRecordToQueue] writes the persisted list with the record
    appended, whatever the list holds. *)
Lemma AddStakingRecordToQueue_appends (s : KVStore) (rootID : byte)
    (r : StakingRecord) (records : list StakingRecord) :
  list_of s rootID = Some records ->
  exists bz,
    MarshalBinaryBare (records ++ [r]) = Some bz /\
    AddStakingRecordToQueue stakingSendingQueueKey rootID r s
    = (Returned tt, <[key_of rootID := bz]> s).
Proof.
  unfold persisted_list. intros Hl.
  destruct (marshal_total (records ++ [r])) as [bz Hbz].
  exists bz. split; [exact Hbz |].
  unfold AddStakingRecordToQueue.
  destruct (s !! key_of rootID) as [blob |] eqn:E.
  - unfold bind. rewrite (Has_present _ _ _ E). cbn beta iota.
    rewrite (Get_present _ _ _ E). unfold ret. rewrite Hl, Hbz. reflexivity.
  - unfold bind. rewrite (Has_absent _ _ E). cbn beta iota.
    injection Hl as <-. unfold ret. simpl in Hbz |- *. rewrite Hbz. reflexivity.
Qed.

(** [findStakingRecordFromQueue] reads only, and answers whether the triple
    occurs in the persisted list. *)
Lemma findStakingRecordFromQueue_spec (s : KVStore) (rootID : byte)
    (r : StakingRecord) (records : list StakingRecord) :
  list_of s rootID = Some records ->
  findStakingRecordFromQueue stakingSendingQueueKey rootID r s
  = (Returned (existsb (fun record => same_triple record r) records), s).
Proof.
  unfold persisted_list. intros Hl. unfold findStakingRecordFromQueue.
  destruct (s !! key_of rootID) as [blob |] eqn:E.
  - unfold bind. rewrite (Has_present _ _ _ E). cbn beta iota.
    rewrite (Get_present _ _ _ E). rewrite Hl. unfold ret.
    rewrite find_loop_existsb. reflexivity.
  - unfold bind. rewrite (Has_absent _ _ E). cbn beta iota.
    injection Hl as <-. reflexivity.
Qed.

Lemma list_of_insert (s : KVStore) (rootID : byte) (records : list StakingRecord)
    (bz : bytes) :
  MarshalBinaryBare records = Some bz ->
  list_of (<[key_of rootID := bz]> s) rootID = Some records.
Proof.
  intros Hm. unfold persisted_list. rewrite lookup_insert_eq.
  apply unmarshal_marshal. exact Hm.
Qed.

(** C2, as amended: [AddStakingRecordToQueue] appends without looking for
    duplicates; [findStakingRecordFromQueue] is the dedup check, it answers
    whether the triple occurs in the persisted list and answers yes once
    the record was added; an add made when it answers no leaves exactly one
    record with that triple. *)
Theorem AddStakingRecordToQueue_appends_find_detects (s : KVStore) (rootID : byte)
    (r : StakingRecord) (records : list StakingRecord) :
  list_of s rootID = Some records ->
  let found := existsb (fun record => same_triple record r) records in
  let s' := snd (AddStakingRecordToQueue stakingSendingQueueKey rootID r s) in
  findStakingRecordFromQueue stakingSendingQueueKey rootID r s = (Returned found, s)
  /\ list_of s' rootID = Some (records ++ [r])
  /\ fst (findStakingRecordFromQueue stakingSendingQueueKey rootID r s') = Returned true
  /\ (found = false ->
      length (filter (fun record => same_triple record r = true) (records ++ [r])) = 1%nat).
Proof.
  intros Hl found s'.
  destruct (AddStakingRecordToQueue_appends s rootID r records Hl) as (bz & Hbz & Hadd).
  assert (Hl' : list_of s' rootID = Some (records ++ [r])).
  { unfold s'. rewrite Hadd. simpl. apply list_of_insert. exact Hbz. }
  split; [apply findStakingRecordFromQueue_spec; exact Hl |].
  split; [exact Hl' |].
  split.
  - rewrite (findStakingRecordFromQueue_spec s' rootID r _ Hl'). simpl.
    rewrite existsb_app. simpl. rewrite same_triple_refl.
    rewrite orb_true_r. reflexivity.
  - unfold found. clear. intros Hnone.
    induction records as [| record rest IH]; simpl.
    + rewrite filter_cons_True by apply same_triple_refl. reflexivity.
    + simpl in Hnone. apply orb_false_iff in Hnone as [Hrec Hrest].
      rewrite filter_cons_False by (rewrite Hrec; discriminate).
      apply IH. exact Hrest.
Qed.

(** [GetNextStakingRecordFromQueue] never writes the store. *)
Lemma GetNextStakingRecordFromQueue_read_only (s : KVStore) (rootID : byte) :
  snd (GetNextStakingRecordFromQueue stakingSendingQueueKey rootID s) = s.
Proof.
  unfold GetNextStakingRecordFromQueue, bind, store_Has, store_Get, ret, panic.
  destruct (bool_decide (is_Some (s !! key_of rootID))); [| reflexivity].
  destruct (UnmarshalBinaryBare (default [] (s !! key_of rootID))) as [records |];
    [| reflexivity].
  destruct (records !! 0%nat); reflexivity.
Qed.

(** Its results: nothing when no blob is stored, the head of a non-empty
    list, the decoding error for a blob that does not decode, and a panic
    when the stored list is empty. *)
Lemma GetNextStakingRecordFromQueue_cases (s : KVStore) (rootID : byte) :
  fst (GetNextStakingRecordFromQueue stakingSendingQueueKey rootID s) =
  match s !! key_of rootID with
  | None => Returned (None, ErrNil)
  | Some bz =>
      match UnmarshalBinaryBare bz with
      | None => Returned (None, amino_error)
      | Some [] => Panicked "index out of range [0] with length 0"
      | Some (r :: _) => Returned (Some r, ErrNil)
      end
  end.
Proof.
  unfold GetNextStakingRecordFromQueue.
  destruct (s !! key_of rootID) as [bz |] eqn:E.
  - unfold bind. rewrite (Has_present _ _ _ E). cbn beta iota.
    rewrite (Get_present _ _ _ E).
    destruct (UnmarshalBinaryBare bz) as [[| r rest] |]; reflexivity.
  - unfold bind. rewrite (Has_absent _ _ E). reflexivity.
Qed.

(** Removing the only record of a queue leaves an empty list stored, on
    which [GetNextStakingRecordFromQueue] panics. *)
Lemma GetNextStakingRecordFromQueue_after_last_removed (s : KVStore) (rootID : byte)
    (validatorID nonce : N) (record : StakingRecord) :
  queue_of s rootID = Some [record] ->
  matches validatorID nonce record = true ->
  let s' := snd (removeStakingRecordFromQueue stakingSendingQueueKey rootID
                   validatorID nonce s) in
  queue_of s' rootID = Some []
  /\ GetNextStakingRecordFromQueue stakingSendingQueueKey rootID s'
     = (Panicked "index out of range [0] with length 0", s').
Proof.
  intros Hq Hm s'.
  assert (Hq' : queue_of s' rootID = Some []).
  { apply (removeStakingRecordFromQueue_stores_tail stakingSendingQueueKey s rootID
             validatorID nonce [] record []); [exact Hq | constructor | exact Hm]. }
  split; [exact Hq' |].
  rewrite (surjective_pairing (GetNextStakingRecordFromQueue _ rootID s')).
  rewrite GetNextStakingRecordFromQueue_read_only, GetNextStakingRecordFromQueue_cases.
  destruct (queue_of_Some _ _ _ _ Hq') as (bz & Hbz & Hdec).
  rewrite Hbz, Hdec. reflexivity.
Qed.

End QueueClaims.

(** C1, at the queue [[A; B; C]]: removing [B] stores [[C]], the record [A]
    in front of the match is dropped with it, where the claim leaves
    [[A; C]]. *)
Theorem removeStakingRecordFromQueue_drops_earlier_records :
  let s := Sample.store_with [Sample.recA; Sample.recB; Sample.recC] in
  let s' := snd (@Staking.removeStakingRecordFromQueue Sample.queue_codec Sample.queueKey
                   Sample.rootID 2 3 s) in
  @Staking.stored_queue Sample.queue_codec Sample.queueKey s Sample.rootID
  = Some [Sample.recA; Sample.recB; Sample.recC]
  /\ @Staking.stored_queue Sample.queue_codec Sample.queueKey s' Sample.rootID
     = Some [Sample.recC]
  /\ @Staking.stored_queue Sample.queue_codec Sample.queueKey s' Sample.rootID
     <> Some [Sample.recA; Sample.recC].
Proof.
  cbv zeta. split; [| split].
  - vm_compute. reflexivity.
  - vm_compute. reflexivity.
  - vm_compute. discriminate.
Qed.

(** C2 fails as stated: the triple of [A] occurs in the stored list, and
    adding [A] again is not a no-op, the list then holds two copies. *)
Lemma AddStakingRecordToQueue_duplicate_not_noop :
  let s := Sample.store_with [Sample.recA] in
  let s' := snd (@Staking.AddStakingRecordToQueue Sample.queue_codec Sample.queueKey
                   Sample.rootID Sample.recA s) in
  fst (@Staking.findStakingRecordFromQueue Sample.queue_codec Sample.queueKey
         Sample.rootID Sample.recA s) = Returned true
  /\ s' <> s
  /\ @Staking.stored_queue Sample.queue_codec Sample.queueKey s' Sample.rootID
     = Some [Sample.recA; Sample.recA].
Proof.
  cbv zeta. split; [| split].
  - vm_compute. reflexivity.
  - intros Heq.
    apply (f_equal (fun st => @Staking.stored_queue Sample.queue_codec Sample.queueKey
                                st Sample.rootID)) in Heq.
    vm_compute in Heq. discriminate.
  - vm_compute. reflexivity.
Qed.

(** The amended C2 at the sample store. *)
Lemma AddStakingRecordToQueue_appends_find_detects_witness :
  let s := Sample.store_with [Sample.recA] in
  let s' := snd (@Staking.AddStakingRecordToQueue Sample.queue_codec Sample.queueKey
                   Sample.rootID Sample.recB s) in
  @Staking.findStakingRecordFromQueue Sample.queue_codec Sample.queueKey
    Sample.rootID Sample.recB s = (Returned false, s)
  /\ @Staking.persisted_list Sample.queue_codec Sample.queueKey s' Sample.rootID
     = Some [Sample.recA; Sample.recB]
  /\ fst (@Staking.findStakingRecordFromQueue Sample.queue_codec Sample.queueKey
            Sample.rootID Sample.recB s') = Returned true.
Proof.
  pose proof (@AddStakingRecordToQueue_appends_find_detects Sample.queue_codec
                (bit_codec_laws _) Sample.queueKey
                (Sample.store_with [Sample.recA]) Sample.rootID Sample.recB
                [Sample.recA] ltac:(vm_compute; reflexivity)) as (H1 & H2 & H3 & _).
  cbv zeta. split; [exact H1 | split; [exact H2 | exact H3]].
Defined.


(** ** The validator store *)

Section ValidatorFacts.
Import Staking.
Context `{!AminoCodec Validator} `{!AminoCodecLaws Validator}.
Variable ValidatorID_Bytes : N -> bytes.

Lemma GetValidatorKey_inj (a b : bytes) : GetValidatorKey a = GetValidatorKey b -> a = b.
Proof. unfold GetValidatorKey. intros [= E]. exact E. Qed.

Lemma validator_key_not_map_key (a b : bytes) : GetValidatorKey a <> GetValidatorMapKey b.
Proof. unfold GetValidatorKey, GetValidatorMapKey. intros [= E]. Qed.

Lemma BytesToAddress_of_address (a : HeimdallAddress) :
  length a = AddressLength -> BytesToAddress a = a.
Proof.
  intros Hlen. unfold BytesToAddress. rewrite Hlen, Nat.ltb_irrefl, Hlen, Nat.sub_diag.
  reflexivity.
Qed.

(** [AddValidator] writes the record under the key of its signer, then the
    signer under the key of its ID. *)
Lemma AddValidator_writes (s : KVStore) (validator : Validator) :
  exists bz,
    MarshalBinaryBare validator = Some bz /\
    AddValidator ValidatorID_Bytes validator s
    = (Returned ErrNil,
       <[GetValidatorMapKey (ValidatorID_Bytes (ID validator)) := Signer validator]>
         (<[GetValidatorKey (Signer validator) := bz]> s)).
Proof.
  destruct (marshal_total validator) as [bz Hbz]. exists bz. split; [exact Hbz |].
  unfold AddValidator. rewrite Hbz. reflexivity.
Qed.

Lemma GetValidatorInfo_stored (s : KVStore) (address bz : bytes) (validator : Validator) :
  s !! GetValidatorKey address = Some bz ->
  UnmarshalBinaryBare bz = Some validator ->
  GetValidatorInfo address s = (Returned (validator, ErrNil), s).
Proof.
  intros Hs Hd. unfold GetValidatorInfo, bind.
  rewrite (Has_present _ _ _ Hs). cbn beta iota delta [negb].
  rewrite (Get_present _ _ _ Hs), Hd. reflexivity.
Qed.

Lemma GetValidatorInfo_found (s : KVStore) (address : bytes) (validator : Validator) :
  GetValidatorInfo address s = (Returned (validator, ErrNil), s) ->
  exists bz, s !! GetValidatorKey address = Some bz
             /\ UnmarshalBinaryBare bz = Some validator.
Proof.
  unfold GetValidatorInfo, bind.
  destruct (s !! GetValidatorKey address) as [bz |] eqn:E.
  - rewrite (Has_present _ _ _ E). cbn beta iota delta [negb].
    rewrite (Get_present _ _ _ E).
    destruct (UnmarshalBinaryBare bz) as [v |] eqn:Hd.
    + intros [= <-]. exists bz. split; [reflexivity | exact Hd].
    + discriminate.
  - rewrite (Has_absent _ _ E). discriminate.
Qed.

(** C8: the validator stored under [prevSigner] keeps its record there with
    power 0, the record stored under [newSigner] carries its power and the
    new public key, and its ID resolves to [newSigner]. *)
Theorem UpdateSigner_rotates (s : KVStore) (newSigner : HeimdallAddress)
    (newPubkey : bytes) (prevSigner : HeimdallAddress) (validator : Validator) :
  GetValidatorInfo prevSigner s = (Returned (validator, ErrNil), s) ->
  Signer validator = prevSigner ->
  newSigner <> prevSigner ->
  length newSigner = AddressLength ->
  exists (s' : KVStore) (retired rotated : Validator),
    UpdateSigner ValidatorID_Bytes newSigner newPubkey prevSigner s = (Returned ErrNil, s')
    /\ GetValidatorInfo prevSigner s' = (Returned (retired, ErrNil), s')
    /\ Power retired = 0%N
    /\ GetValidatorInfo newSigner s' = (Returned (rotated, ErrNil), s')
    /\ Power rotated = Power validator
    /\ PubKey rotated = newPubkey
    /\ Signer rotated = newSigner
    /\ ID rotated = ID validator
    /\ GetSignerFromValidatorID ValidatorID_Bytes (ID validator) s'
       = (Returned (newSigner, true), s').
Proof.
  intros Hget Hsigner Hne Hlen.
  set (retired := set_Power validator 0).
  set (rotated := set_Power (set_PubKey (set_Signer retired newSigner) newPubkey)
                    (Power validator)).
  destruct (AddValidator_writes s retired) as (bz1 & Hbz1 & Hadd1).
  set (s1 := <[GetValidatorMapKey (ValidatorID_Bytes (ID retired)) := Signer retired]>
               (<[GetValidatorKey (Signer retired) := bz1]> s)) in *.
  destruct (AddValidator_writes s1 rotated) as (bz2 & Hbz2 & Hadd2).
  set (s2 := <[GetValidatorMapKey (ValidatorID_Bytes (ID rotated)) := Signer rotated]>
               (<[GetValidatorKey (Signer rotated) := bz2]> s1)) in *.
  exists s2, retired, rotated.
  assert (Hrun : UpdateSigner ValidatorID_Bytes newSigner newPubkey prevSigner s
                 = (Returned ErrNil, s2)).
  { unfold UpdateSigner, bind at 1. rewrite Hget. cbn beta iota zeta.
    fold retired. unfold bind at 1. rewrite Hadd1.
    fold rotated. unfold bind at 1. rewrite Hadd2. reflexivity. }
  assert (Hold : s2 !! GetValidatorKey prevSigner = Some bz1).
  { unfold s2. rewrite lookup_insert_ne by (apply not_eq_sym, validator_key_not_map_key).
    rewrite lookup_insert_ne by (simpl; intros E; apply GetValidatorKey_inj in E; auto).
    unfold s1. rewrite lookup_insert_ne by (apply not_eq_sym, validator_key_not_map_key).
    simpl. rewrite Hsigner. apply lookup_insert_eq. }
  assert (Hnew : s2 !! GetValidatorKey newSigner = Some bz2).
  { unfold s2. rewrite lookup_insert_ne by (apply not_eq_sym, validator_key_not_map_key).
    simpl. apply lookup_insert_eq. }
  assert (Hmap : s2 !! GetValidatorMapKey (ValidatorID_Bytes (ID validator))
                 = Some newSigner).
  { unfold s2. simpl. apply lookup_insert_eq. }
  split; [exact Hrun |].
  split; [apply (GetValidatorInfo_stored _ _ bz1);
          [exact Hold | apply unmarshal_marshal; exact Hbz1] |].
  split; [reflexivity |].
  split; [apply (GetValidatorInfo_stored _ _ bz2);
          [exact Hnew | apply unmarshal_marshal; exact Hbz2] |].
  repeat (split; [reflexivity |]).
  unfold GetSignerFromValidatorID, bind.
  rewrite (Has_present _ _ _ Hmap). cbn beta iota delta [negb].
  rewrite (Get_present _ _ _ Hmap).
  rewrite (BytesToAddress_of_address _ Hlen). reflexivity.
Qed.

End ValidatorFacts.

(** C8 at the sample store: validator 4 with power 10 rotates its signer. *)
Lemma UpdateSigner_rotates_witness :
  exists (s' : Staking.KVStore) (retired rotated : Staking.Validator),
    @Staking.UpdateSigner Sample.validator_codec Sample.id_bytes Sample.signerNew
      [Byte.xbb] Sample.signerOld Sample.validator_store = (Returned ErrNil, s')
    /\ @Staking.GetValidatorInfo Sample.validator_codec Sample.signerOld s'
       = (Returned (retired, ErrNil), s')
    /\ Staking.Power retired = 0%N
    /\ @Staking.GetValidatorInfo Sample.validator_codec Sample.signerNew s'
       = (Returned (rotated, ErrNil), s')
    /\ Staking.Power rotated = 10%N
    /\ Staking.PubKey rotated = [Byte.xbb]
    /\ Staking.Signer rotated = Sample.signerNew
    /\ Staking.ID rotated = 4%N
    /\ Staking.GetSignerFromValidatorID Sample.id_bytes 4 s'
       = (Returned (Sample.signerNew, true), s').
Proof.
  apply (@UpdateSigner_rotates Sample.validator_codec (bit_codec_laws _) Sample.id_bytes
           Sample.validator_store Sample.signerNew [Byte.xbb] Sample.signerOld
           Sample.validator1).
  - vm_compute. reflexivity.
  - reflexivity.
  - vm_compute. discriminate.
  - reflexivity.
Defined.

(** ** The root chain listener *)

Section ListenerFacts.
Import Listener.

(** *** Numbers *)

Lemma ParseUint_big_String (z : Z) :
  0 <= z < 2 ^ 64 -> ParseUint (big_String z) = Some (Z.to_N z).
Proof.
  intros Hz. unfold ParseUint, big_String.
  assert (Hparse : NilZero.uint_of_string (NilZero.string_of_int (Z.to_int z))
                   = Some (N.to_uint (Z.to_N z))).
  { destruct z as [| p | p]; [reflexivity | | lia].
    simpl. apply NilZero.usu. apply DecimalPos.Unsigned.to_uint_nonnil. }
  rewrite Hparse, DecimalN.Unsigned.of_to.
  assert (Hlt : (Z.to_N z <? uint64_modulus)%N = true).
  { apply N.ltb_lt. unfold uint64_modulus. lia. }
  rewrite Hlt. reflexivity.
Qed.

Lemma big_Uint64_small (z : Z) : 0 <= z < 2 ^ 64 -> big_Uint64 z = Z.to_N z.
Proof.
  intros Hz. unfold big_Uint64, uint64_modulus.
  rewrite N.mod_small by lia. lia.
Qed.

Lemma big_Uint64_le (z : Z) : 0 <= z -> Z.of_N (big_Uint64 z) <= z.
Proof.
  intros Hz. unfold big_Uint64, uint64_modulus.
  pose proof (N.Div0.mod_le (Z.abs_N z) (2 ^ 64)) as Hle. lia.
Qed.

Lemma ParseUint_bound (b : string) (n : N) : ParseUint b = Some n -> (n < 2 ^ 64)%N.
Proof.
  unfold ParseUint. destruct (NilZero.uint_of_string b) as [d |]; [| discriminate].
  cbv zeta. destruct (N.ltb_spec (N.of_uint d) uint64_modulus) as [Hlt | Hge];
    [| discriminate].
  intros [= <-]. exact Hlt.
Qed.

(** *** Sending tasks *)

Lemma sent_refl (w : World) : sent w w [].
Proof. split; [reflexivity |]. simpl. rewrite app_nil_r. reflexivity. Qed.

Lemma sent_trans (w1 w2 w3 : World) (sigs1 sigs2 : list Signature) :
  sent w1 w2 sigs1 -> sent w2 w3 sigs2 -> sent w1 w3 (sigs1 ++ sigs2).
Proof.
  intros [Hs1 Ht1] [Hs2 Ht2]. split.
  - congruence.
  - rewrite Ht2, Ht1, map_app, app_assoc. reflexivity.
Qed.

Lemma send_if_current_sent (rl : RootChainListener) (env : Env) (taskName : string)
    (selectedEvent : Event) (vLog : Log) (w : World) :
  exists (w' : World) (sigs : list Signature),
    send_if_current rl env taskName selectedEvent vLog w = (Returned tt, w')
    /\ sent w w' sigs /\ (length sigs <= 1)%nat.
Proof.
  unfold send_if_current, bind, util_CalculateTaskDelay, bind, get_state, modify_state, ret.
  destruct (CalculateTaskDelay env (oracleCalls w)) as [[|] delay].
  - eexists _, [_]. split; [reflexivity |]. split; [| simpl; lia].
    split; reflexivity.
  - eexists _, []. split; [reflexivity |]. split; [| simpl; lia].
    split; [reflexivity |]. simpl. rewrite app_nil_r. reflexivity.
Qed.

Lemma switch_event_sent (rl : RootChainListener) (env : Env)
    (selectedEvent : Event) (vLog : Log) (w : World) :
  exists (w' : World) (sigs : list Signature),
    switch_event rl env selectedEvent vLog w = (Returned tt, w')
    /\ sent w w' sigs /\ (length sigs <= 1)%nat.
Proof.
  unfold switch_event.
  repeat (match goal with
          | |- context [String.eqb ?a ?b] => destruct (String.eqb a b)
          end; [apply send_if_current_sent |]).
  exists w, []. split; [reflexivity |]. split; [apply sent_refl | simpl; lia].
Qed.

(** The inner loop never panics, and sends at most one task for each ABI
    whose catalogue holds the topic. *)
Lemma abi_loop_sent (rl : RootChainListener) (env : Env) (remaining : list ABI)
    (vLog : Log) (topic : bytes) (w : World) :
  exists (w' : World) (sigs : list Signature),
    abi_loop rl env remaining vLog topic w = (Returned tt, w')
    /\ sent w w' sigs
    /\ (length sigs <= length (matching_abis remaining topic))%nat.
Proof.
  revert w. induction remaining as [| abiObject rest IH]; intros w.
  - exists w, []. split; [reflexivity |]. split; [apply sent_refl | simpl; lia].
  - cbn [abi_loop]. unfold matching_abis. cbn [List.filter].
    destruct (EventByID abiObject topic) as [selectedEvent |] eqn:E.
    + destruct (switch_event_sent rl env selectedEvent vLog w)
        as (w1 & sigs1 & Hrun1 & Hsent1 & Hlen1).
      destruct (IH w1) as (w2 & sigs2 & Hrun2 & Hsent2 & Hlen2).
      exists w2, (sigs1 ++ sigs2). unfold bind at 1. rewrite Hrun1.
      split; [exact Hrun2 |]. split; [eapply sent_trans; eauto |].
      rewrite bool_decide_eq_true_2 by eauto.
      rewrite length_app. cbn [length]. unfold matching_abis in Hlen2. lia.
    + destruct (IH w) as (w2 & sigs2 & Hrun2 & Hsent2 & Hlen2).
      exists w2, sigs2. unfold bind at 1, ret.
      split; [exact Hrun2 |]. split; [exact Hsent2 |].
      rewrite bool_decide_eq_false_2 by (intros [x Hx]; discriminate).
      exact Hlen2.
Qed.

(** The outer loop sends tasks and does nothing else, whether it returns or
    panics. *)
Lemma log_loop_sent (rl : RootChainListener) (env : Env) (logs : list Log) (w : World) :
  exists sigs : list Signature, sent w (snd (log_loop rl env logs w)) sigs.
Proof.
  revert w. induction logs as [| vLog rest IH]; intros w.
  - exists []. apply sent_refl.
  - cbn [log_loop]. destruct (Topics vLog !! 0%nat) as [topic |].
    + destruct (abi_loop_sent rl env (abis rl) vLog topic w)
        as (w1 & sigs1 & Hrun1 & Hsent1 & _).
      destruct (IH w1) as (sigs2 & Hsent2).
      exists (sigs1 ++ sigs2). unfold bind at 1. rewrite Hrun1.
      eapply sent_trans; eauto.
    + exists []. apply sent_refl.
Qed.

(** [queryAndBroadcastEvents] queries once, first, then only sends tasks;
    it sends none when the query fails. *)
Lemma queryAndBroadcastEvents_trace (rl : RootChainListener) (env : Env)
    (rootchainContext : RootChainListenerContext) (fromBlock toBlock : Z) (w : World) :
  let chainParams := ChainParams (ChainmanagerParams rootchainContext) in
  let query :=
    {| FromBlock := fromBlock; ToBlock := toBlock;
       Addresses := [ RootChainAddress chainParams;
                      StakingInfoAddress chainParams;
                      StateSenderAddress chainParams ] |} in
  let w' := snd (queryAndBroadcastEvents rl env rootchainContext fromBlock toBlock w) in
  exists sigs : list Signature,
    storage w' = storage w
    /\ trace w' = trace w ++ EFilterLogs query :: map ESendTask sigs
    /\ (FilterLogs env query = None -> sigs = []).
Proof.
  intros chainParams query w'. subst w'.
  unfold queryAndBroadcastEvents. fold chainParams. fold query.
  unfold bind at 1, client_FilterLogs, bind, emit, modify_state, ret.
  cbn beta iota.
  destruct (FilterLogs env query) as [logs |].
  - match goal with
    | |- context [log_loop rl env logs ?w0] =>
        destruct (log_loop_sent rl env logs w0) as (sigs & Hs & Ht)
    end.
    exists sigs. cbn [storage trace] in Hs, Ht.
    split; [exact Hs |]. split; [| discriminate].
    rewrite Ht, <- app_assoc. reflexivity.
  - exists []. cbn [snd storage trace]. split; [reflexivity |].
    split; reflexivity.
Qed.

(** *** [ProcessHeader] follows its range decision *)

Lemma ProcessHeader_skips (rl : RootChainListener) (env : Env) (newHeader : Header)
    (w : World) :
  range_decision env newHeader (storage w) = None ->
  snd (ProcessHeader rl env newHeader w) = w.
Proof.
  unfold ProcessHeader, range_decision.
  destruct (getRootChainContext env) as [rootchainContext |]; [| reflexivity].
  cbv zeta. unfold big_SetUint64.
  destruct (Number newHeader <=? _); [reflexivity |].
  unfold bind at 1. unfold storage_Has, bind, get_state, ret. cbn beta iota.
  destruct (Has_fails env).
  - discriminate.
  - destruct (storage w !! lastRootBlockKey) as [lastBlockBytes |] eqn:E.
    + rewrite bool_decide_eq_true_2 by eauto.
      unfold storage_Get, bind, get_state, ret. cbn beta iota. rewrite E.
      destruct (Get_fails env); [reflexivity |].
      destruct (ParseUint lastBlockBytes) as [result |]; [| discriminate].
      cbn [Number].
      destruct (_ <=? result)%N; [reflexivity |].
      destruct (_ <? _)%N; discriminate.
    + discriminate.
Qed.

Lemma ProcessHeader_scans (rl : RootChainListener) (env : Env) (newHeader : Header)
    (w : World) (rootchainContext : RootChainListenerContext) (fromBlock toBlock : Z) :
  range_decision env newHeader (storage w) = Some (rootchainContext, fromBlock, toBlock) ->
  snd (ProcessHeader rl env newHeader w)
  = snd ((storage_Put env lastRootBlockKey (big_String toBlock) ;;;
          queryAndBroadcastEvents rl env rootchainContext fromBlock toBlock)%exec w).
Proof.
  unfold ProcessHeader, range_decision.
  destruct (getRootChainContext env) as [ctx |]; [| discriminate].
  cbv zeta. unfold big_SetUint64.
  destruct (Z.leb_spec (Number newHeader)
              (Z.of_N (MainchainTxConfirmations (ChainmanagerParams ctx))))
    as [Hle | Hgt]; [discriminate |].
  cbn [Number].
  set (toB := Number newHeader - Z.of_N (MainchainTxConfirmations (ChainmanagerParams ctx))).
  assert (Hclamp : (if toB <? toB then toB else toB) = toB) by (destruct (toB <? toB); reflexivity).
  assert (Hfinish : forall fromB,
    fromB <= toB ->
    snd ((storage_Put env lastRootBlockKey (big_String toB) ;;;
            queryAndBroadcastEvents rl env ctx (if toB <? fromB then toB else fromB) toB ;;;
            ret {| Number := toB |})%exec w)
    = snd ((storage_Put env lastRootBlockKey (big_String toB) ;;;
            queryAndBroadcastEvents rl env ctx fromB toB)%exec w)).
  { intros fromB Hfrom.
    replace (toB <? fromB) with false by (symmetry; apply Z.ltb_ge; exact Hfrom).
    unfold bind.
    destruct (storage_Put env lastRootBlockKey (big_String toB) w) as [[ok | msg] w1];
      [| reflexivity].
    destruct (queryAndBroadcastEvents rl env ctx fromB toB w1) as [[[] | msg] w2];
      reflexivity. }
  unfold bind at 1. unfold storage_Has, bind, get_state, ret. cbn beta iota.
  destruct (Has_fails env).
  - intros [= <- <- <-]. apply Hfinish. lia.
  - destruct (storage w !! lastRootBlockKey) as [lastBlockBytes |] eqn:E.
    + rewrite bool_decide_eq_true_2 by eauto.
      unfold storage_Get, bind, get_state, ret. cbn beta iota. rewrite E.
      destruct (Get_fails env); [discriminate |].
      destruct (ParseUint lastBlockBytes) as [result |].
      * destruct (_ <=? result)%N; [discriminate |].
        destruct (N.ltb_spec (uint64_add result 1) (big_Uint64 toB)) as [Hlt | Hge].
        -- intros [= <- <- <-]. apply Hfinish.
           pose proof (big_Uint64_le toB ltac:(lia)). lia.
        -- intros [= <- <- <-]. apply Hfinish. lia.
      * intros [= <- <- <-]. apply Hfinish. lia.
    + rewrite bool_decide_eq_false_2 by (intros [x Hx]; discriminate).
      intros [= <- <- <-]. apply Hfinish. lia.
Qed.

Lemma emitted_of_trace {A} (m : Exec World A) (w : World) (effs : list Effect) :
  trace (snd (m w)) = trace w ++ effs -> emitted m w = effs.
Proof. intros Ht. unfold emitted. rewrite Ht. apply drop_app_length. Qed.

Lemma queries_tasks (sigs : list Signature) : queries (map ESendTask sigs) = [].
Proof. induction sigs as [| sg rest IH]; [reflexivity | exact IH]. Qed.

Lemma tasks_tasks (sigs : list Signature) : tasks (map ESendTask sigs) = sigs.
Proof.
  induction sigs as [| sg rest IH]; [reflexivity |].
  change (tasks (map ESendTask (sg :: rest))) with (sg :: tasks (map ESendTask rest)).
  rewrite IH. reflexivity.
Qed.

Lemma queries_cycle (key value : string) (ok : bool) (q : FilterQuery)
    (sigs : list Signature) :
  queries (EPut key value ok :: EFilterLogs q :: map ESendTask sigs) = [q].
Proof.
  change (q :: queries (map ESendTask sigs) = [q]).
  rewrite queries_tasks. reflexivity.
Qed.

(** A cycle that reaches the query: the watermark is written, then the
    query is made, then tasks are sent. *)
Lemma ProcessHeader_cycle (rl : RootChainListener) (env : Env) (newHeader : Header)
    (w : World) (rootchainContext : RootChainListenerContext) (fromBlock toBlock : Z) :
  range_decision env newHeader (storage w) = Some (rootchainContext, fromBlock, toBlock) ->
  let chainParams := ChainParams (ChainmanagerParams rootchainContext) in
  let query :=
    {| FromBlock := fromBlock; ToBlock := toBlock;
       Addresses := [ RootChainAddress chainParams;
                      StakingInfoAddress chainParams;
                      StateSenderAddress chainParams ] |} in
  let w' := snd (ProcessHeader rl env newHeader w) in
  exists sigs : list Signature,
    storage w' = (if Put_fails env then storage w
                  else <[lastRootBlockKey := big_String toBlock]> (storage w))
    /\ trace w' = trace w ++ EPut lastRootBlockKey (big_String toBlock) (negb (Put_fails env))
                            :: EFilterLogs query :: map ESendTask sigs
    /\ (FilterLogs env query = None -> sigs = []).
Proof.
  intros Hd chainParams query w'. subst w'.
  rewrite (ProcessHeader_scans rl env newHeader w _ _ _ Hd).
  assert (Hput : exists w1,
    storage_Put env lastRootBlockKey (big_String toBlock) w
    = (Returned (negb (Put_fails env)), w1)
    /\ storage w1 = (if Put_fails env then storage w
                     else <[lastRootBlockKey := big_String toBlock]> (storage w))
    /\ trace w1 = trace w ++ [EPut lastRootBlockKey (big_String toBlock)
                                (negb (Put_fails env))]).
  { unfold storage_Put. destruct (Put_fails env); eexists; repeat split. }
  destruct Hput as (w1 & Hrun & Hs1 & Ht1).
  unfold bind. rewrite Hrun. cbn beta iota.
  pose proof (queryAndBroadcastEvents_trace rl env rootchainContext fromBlock toBlock w1)
    as Hquery.
  cbv zeta in Hquery. destruct Hquery as (sigs & Hs2 & Ht2 & Hnone).
  exists sigs. split; [congruence |]. split; [| exact Hnone].
  rewrite Ht2, Ht1, <- app_assoc. reflexivity.
Qed.

(** Every cycle either leaves the world as it is or makes exactly one
    query. *)
Lemma ProcessHeader_queries (rl : RootChainListener) (env : Env) (newHeader : Header)
    (w : World) (q : FilterQuery) :
  In q (queries (emitted (ProcessHeader rl env newHeader) w)) ->
  exists rootchainContext,
    range_decision env newHeader (storage w)
    = Some (rootchainContext, FromBlock q, ToBlock q)
    /\ queries (emitted (ProcessHeader rl env newHeader) w) = [q].
Proof.
  destruct (range_decision env newHeader (storage w)) as [[[ctx fromBlock] toBlock] |] eqn:Hd.
  - destruct (ProcessHeader_cycle rl env newHeader w _ _ _ Hd) as (sigs & _ & Ht & _).
    rewrite (emitted_of_trace _ _ _ Ht), queries_cycle.
    intros [<- | []]. exists ctx. split; reflexivity.
  - unfold emitted. rewrite (ProcessHeader_skips rl env newHeader w Hd).
    rewrite drop_all. intros [].
Qed.

(** *** Facts about the range decision *)

Lemma range_decision_range (env : Env) (newHeader : Header) (st : gmap string string)
    (rootchainContext : RootChainListenerContext) (fromBlock toBlock : Z) :
  range_decision env newHeader st = Some (rootchainContext, fromBlock, toBlock) ->
  let c := Z.of_N (MainchainTxConfirmations (ChainmanagerParams rootchainContext)) in
  getRootChainContext env = Some rootchainContext
  /\ c < Number newHeader
  /\ toBlock = Number newHeader - c
  /\ fromBlock <= toBlock.
Proof.
  unfold range_decision.
  destruct (getRootChainContext env) as [ctx |]; [| discriminate].
  cbv zeta.
  destruct (Z.leb_spec (Number newHeader)
              (Z.of_N (MainchainTxConfirmations (ChainmanagerParams ctx))))
    as [Hle | Hgt]; [discriminate |].
  set (toB := Number newHeader - Z.of_N (MainchainTxConfirmations (ChainmanagerParams ctx))).
  assert (Hsame : Some (ctx, toB, toB) = Some (rootchainContext, fromBlock, toBlock) ->
                  Some ctx = Some rootchainContext
                  /\ Z.of_N (MainchainTxConfirmations (ChainmanagerParams rootchainContext))
                     < Number newHeader
                  /\ toBlock = Number newHeader
                               - Z.of_N (MainchainTxConfirmations
                                           (ChainmanagerParams rootchainContext))
                  /\ fromBlock <= toBlock).
  { intros [= <- <- <-]. repeat split; [exact Hgt | lia]. }
  destruct (Has_fails env); [exact Hsame |].
  destruct (st !! lastRootBlockKey) as [lastBlockBytes |]; [| exact Hsame].
  destruct (Get_fails env); [discriminate |].
  destruct (ParseUint lastBlockBytes) as [result |]; [| exact Hsame].
  destruct (_ <=? result)%N; [discriminate |].
  destruct (N.ltb_spec (uint64_add result 1) (big_Uint64 toB)) as [Hlt | Hge];
    [| exact Hsame].
  intros [= <- <- <-]. repeat split; [exact Hgt |].
  pose proof (big_Uint64_le toB ltac:(lia)). fold toB. lia.
Qed.

Lemma range_decision_no_watermark (env : Env) (newHeader : Header)
    (st : gmap string string) (rootchainContext : RootChainListenerContext)
    (fromBlock toBlock : Z) :
  st !! lastRootBlockKey = None ->
  range_decision env newHeader st = Some (rootchainContext, fromBlock, toBlock) ->
  fromBlock = toBlock.
Proof.
  intros Hst. unfold range_decision. rewrite Hst.
  destruct (getRootChainContext env) as [ctx |]; [| discriminate].
  cbv zeta. destruct (_ <=? _); [discriminate |].
  destruct (Has_fails env); intros [= <- <- <-]; reflexivity.
Qed.

(** With a readable watermark below 2^64 and a head below 2^64, a cycle
    that reaches the query starts right after the watermark. *)
Lemma range_decision_watermark (env : Env) (newHeader : Header)
    (st : gmap string string) (rootchainContext : RootChainListenerContext)
    (fromBlock toBlock : Z) (wm : N) :
  Has_fails env = false ->
  st !! lastRootBlockKey ≫= ParseUint = Some wm ->
  Number newHeader < 2 ^ 64 ->
  range_decision env newHeader st = Some (rootchainContext, fromBlock, toBlock) ->
  Z.of_N wm < toBlock /\ fromBlock = Z.of_N wm + 1.
Proof.
  intros Hhas Hwm Hhead Hd.
  destruct (range_decision_range _ _ _ _ _ _ Hd) as (_ & Hgt & Hto & _).
  cbv zeta in Hgt, Hto.
  revert Hd. unfold range_decision. rewrite Hhas.
  destruct (getRootChainContext env) as [ctx |]; [| discriminate].
  cbv zeta. destruct (_ <=? _); [discriminate |].
  destruct (st !! lastRootBlockKey) as [lastBlockBytes |]; [| discriminate].
  simpl in Hwm. rewrite Hwm.
  destruct (Get_fails env); [discriminate |].
  pose proof (ParseUint_bound _ _ Hwm) as Hbound.
  set (toB := Number newHeader - Z.of_N (MainchainTxConfirmations (ChainmanagerParams ctx))).
  destruct (N.leb_spec (big_Uint64 toB) wm) as [Hle | Hlt]; [discriminate |].
  destruct (N.ltb_spec (uint64_add wm 1) (big_Uint64 toB)) as [Hlt' | Hge'];
    intros [= <- <- <-];
    assert (Hrange : 0 <= toB < 2 ^ 64) by (unfold toB; lia);
    clearbody toB;
    rewrite big_Uint64_small in * by exact Hrange;
    unfold uint64_add, uint64_modulus in *;
    rewrite N.mod_small in * by lia; lia.
Qed.

Lemma range_decision_at_or_below_watermark (env : Env) (newHeader : Header)
    (st : gmap string string) (wm : N) :
  Has_fails env = false ->
  st !! lastRootBlockKey ≫= ParseUint = Some wm ->
  Number newHeader <= Z.of_N wm ->
  range_decision env newHeader st = None.
Proof.
  intros Hhas Hwm Hhead. unfold range_decision. rewrite Hhas.
  destruct (getRootChainContext env) as [ctx |]; [| reflexivity].
  cbv zeta.
  destruct (Z.leb_spec (Number newHeader)
              (Z.of_N (MainchainTxConfirmations (ChainmanagerParams ctx))))
    as [Hle | Hgt]; [reflexivity |].
  destruct (st !! lastRootBlockKey) as [lastBlockBytes |]; [| discriminate].
  simpl in Hwm. rewrite Hwm.
  destruct (Get_fails env); [reflexivity |].
  pose proof (ParseUint_bound _ _ Hwm) as Hbound.
  set (toB := Number newHeader - Z.of_N (MainchainTxConfirmations (ChainmanagerParams ctx))).
  destruct (N.leb_spec (big_Uint64 toB) wm) as [Hle | Hlt]; [reflexivity |].
  exfalso. rewrite big_Uint64_small in Hlt by lia. lia.
Qed.

End ListenerFacts.

(** ** Claims about [ProcessHeader] *)

Section ListenerClaims.
Import Listener.

(** C6: a head that is not deeper than the required confirmations is
    skipped: the call returns at once, the world (storage, queries, tasks)
    and the header are as before. *)
Theorem ProcessHeader_skips_shallow_head (rl : RootChainListener) (env : Env)
    (newHeader : Header) (w : World) (rootchainContext : RootChainListenerContext) :
  getRootChainContext env = Some rootchainContext ->
  Number newHeader <= Z.of_N (MainchainTxConfirmations (ChainmanagerParams rootchainContext)) ->
  ProcessHeader rl env newHeader w = (Returned newHeader, w)
  /\ emitted (ProcessHeader rl env newHeader) w = [].
Proof.
  intros Hctx Hle.
  assert (Hrun : ProcessHeader rl env newHeader w = (Returned newHeader, w)).
  { unfold ProcessHeader. rewrite Hctx. cbv zeta. unfold big_SetUint64.
    replace (Number newHeader <=? _) with true by (symmetry; apply Z.leb_le; exact Hle).
    reflexivity. }
  split; [exact Hrun |].
  unfold emitted. rewrite Hrun. apply drop_all.
Qed.

(** C4: with a stored watermark at or above the observed head the cycle is
    skipped: the world is left as it is, so nothing is queried, sent or
    written. *)
Theorem ProcessHeader_skips_at_or_below_watermark (rl : RootChainListener) (env : Env)
    (newHeader : Header) (w : World) (wm : N) :
  Has_fails env = false ->
  watermark w = Some wm ->
  Number newHeader <= Z.of_N wm ->
  snd (ProcessHeader rl env newHeader w) = w
  /\ emitted (ProcessHeader rl env newHeader) w = [].
Proof.
  intros Hhas Hwm Hhead.
  assert (Hsame : snd (ProcessHeader rl env newHeader w) = w).
  { apply ProcessHeader_skips.
    apply (range_decision_at_or_below_watermark env newHeader (storage w) wm);
      assumption. }
  split; [exact Hsame |].
  unfold emitted. rewrite Hsame. apply drop_all.
Qed.

(** C5: whenever a cycle makes its query, the upper end of the range is
    the confirmed head, the observed head minus the required confirmations;
    the lower end is the confirmed head when no watermark is stored; with a
    stored watermark [wm] it is [wm + 1] when that does not exceed the
    confirmed head and the confirmed head otherwise; the lower end never
    exceeds the upper end. *)
Theorem ProcessHeader_scan_range (rl : RootChainListener) (env : Env)
    (newHeader : Header) (w : World) (rootchainContext : RootChainListenerContext)
    (q : FilterQuery) :
  getRootChainContext env = Some rootchainContext ->
  In q (queries (emitted (ProcessHeader rl env newHeader) w)) ->
  let confirmedHead :=
    Number newHeader
    - Z.of_N (MainchainTxConfirmations (ChainmanagerParams rootchainContext)) in
  ToBlock q = confirmedHead
  /\ FromBlock q <= ToBlock q
  /\ (storage w !! lastRootBlockKey = None -> FromBlock q = confirmedHead)
  /\ (forall wm : N,
        watermark w = Some wm -> Has_fails env = false -> Number newHeader < 2 ^ 64 ->
        FromBlock q = if Z.of_N wm + 1 <=? confirmedHead then Z.of_N wm + 1
                      else confirmedHead).
Proof.
  intros Hctx Hq confirmedHead.
  destruct (ProcessHeader_queries rl env newHeader w q Hq) as (ctx & Hd & _).
  destruct (range_decision_range _ _ _ _ _ _ Hd) as (Hctx' & Hgt & Hto & Hle).
  cbv zeta in Hgt, Hto.
  assert (ctx = rootchainContext) as -> by congruence.
  fold confirmedHead in Hto.
  split; [exact Hto |]. split; [exact Hle |]. split.
  - intros Hnone. rewrite <- Hto.
    apply (range_decision_no_watermark _ _ _ _ _ _ Hnone Hd).
  - intros wm Hwm Hhas Hhead.
    destruct (range_decision_watermark _ _ _ _ _ _ wm Hhas Hwm Hhead Hd) as [Hlt Hfrom].
    rewrite Hfrom.
    replace (Z.of_N wm + 1 <=? confirmedHead) with true; [reflexivity |].
    symmetry. apply Z.leb_le. lia.
Qed.

(** C7: in a cycle that reaches the query the write of the watermark comes
    first, with the upper end of the range as value; when the write
    succeeds the storage holds that value at the end of the cycle, also
    when the query fails, in which case nothing follows it. *)
Theorem ProcessHeader_persists_before_query (rl : RootChainListener) (env : Env)
    (newHeader : Header) (w : World) (q : FilterQuery) :
  In q (queries (emitted (ProcessHeader rl env newHeader) w)) ->
  exists sigs : list Signature,
    emitted (ProcessHeader rl env newHeader) w
    = EPut lastRootBlockKey (big_String (ToBlock q)) (negb (Put_fails env))
        :: EFilterLogs q :: map ESendTask sigs
    /\ (FilterLogs env q = None -> sigs = [])
    /\ (Put_fails env = false ->
        storage (snd (ProcessHeader rl env newHeader w)) !! lastRootBlockKey
        = Some (big_String (ToBlock q))).
Proof.
  intros Hq.
  destruct (ProcessHeader_queries rl env newHeader w q Hq) as (ctx & Hd & Hone).
  pose proof (ProcessHeader_cycle rl env newHeader w _ _ _ Hd) as Hcycle.
  cbv zeta in Hcycle. destruct Hcycle as (sigs & Hs & Ht & Hnone).
  pose proof (emitted_of_trace _ _ _ Ht) as Hem.
  rewrite Hem, queries_cycle in Hone. injection Hone as Hquery.
  rewrite Hquery in Hem, Hnone.
  exists sigs. split; [exact Hem |]. split; [exact Hnone |].
  intros Hput. rewrite Hs, Hput. apply lookup_insert_eq.
Qed.

(** One cycle from a world with a readable watermark. *)
Lemma ProcessHeader_watermark_step (rl : RootChainListener) (env : Env)
    (newHeader : Header) (w : World) (wm : N) :
  Has_fails env = false ->
  Number newHeader < 2 ^ 64 ->
  watermark w = Some wm ->
  exists (effs : list Effect) (wm' : N),
    trace (snd (ProcessHeader rl env newHeader w)) = trace w ++ effs
    /\ watermark (snd (ProcessHeader rl env newHeader w)) = Some wm'
    /\ (wm <= wm')%N
    /\ Forall (fun q => Z.of_N wm < FromBlock q <= ToBlock q) (queries effs).
Proof.
  intros Hhas Hhead Hwm.
  destruct (range_decision env newHeader (storage w)) as [[[ctx fromBlock] toBlock] |] eqn:Hd.
  - pose proof (ProcessHeader_cycle rl env newHeader w _ _ _ Hd) as Hcycle.
    cbv zeta in Hcycle. destruct Hcycle as (sigs & Hs & Ht & _).
    destruct (range_decision_range _ _ _ _ _ _ Hd) as (_ & Hgt & Hto & Hle).
    cbv zeta in Hgt, Hto.
    destruct (range_decision_watermark _ _ _ _ _ _ wm Hhas Hwm Hhead Hd) as [Hlt Hfrom].
    eexists. exists (if Put_fails env then wm else Z.to_N toBlock).
    split; [exact Ht |]. split; [| split].
    + unfold watermark. rewrite Hs. destruct (Put_fails env); [exact Hwm |].
      rewrite lookup_insert_eq. simpl. apply ParseUint_big_String. lia.
    + destruct (Put_fails env); lia.
    + rewrite queries_cycle. constructor; [| constructor]. simpl. lia.
  - exists [], wm. rewrite (ProcessHeader_skips rl env newHeader w Hd).
    split; [symmetry; apply app_nil_r |]. split; [exact Hwm |].
    split; [lia | constructor].
Qed.

Lemma queries_app (t1 t2 : list Effect) : queries (t1 ++ t2) = queries t1 ++ queries t2.
Proof. unfold queries. apply omap_app. Qed.

(** Any sequence of cycles from a world with a readable watermark: the
    watermark stays readable, does not decrease, and every range queried on
    the way starts above it. *)
Lemma run_above_watermark (rl : RootChainListener)
    (inputs : list (Env * Header)) (w : World) (wm : N) :
  Forall (fun input => Has_fails (fst input) = false /\ Number (snd input) < 2 ^ 64) inputs ->
  watermark w = Some wm ->
  exists wm' : N,
    watermark (snd (run rl inputs w)) = Some wm'
    /\ (wm <= wm')%N
    /\ Forall (fun q => Z.of_N wm < FromBlock q <= ToBlock q)
         (queries (emitted (run rl inputs) w)).
Proof.
  intros Hinputs Hwm.
  enough (Hgen : exists (effs : list Effect) (wm' : N),
             trace (snd (run rl inputs w)) = trace w ++ effs
             /\ watermark (snd (run rl inputs w)) = Some wm'
             /\ (wm <= wm')%N
             /\ Forall (fun q => Z.of_N wm < FromBlock q <= ToBlock q) (queries effs)).
  { destruct Hgen as (effs & wm' & Ht & Hw & Hle & Hall).
    exists wm'. rewrite (emitted_of_trace _ _ _ Ht). auto. }
  revert w wm Hwm.
  induction Hinputs as [| [env newHeader] rest [Hhas Hhead] _ IH]; intros w wm Hwm.
  - exists [], wm. simpl. rewrite app_nil_r.
    split; [reflexivity |]. split; [exact Hwm |]. split; [lia | constructor].
  - simpl in Hhas, Hhead.
    destruct (ProcessHeader_watermark_step rl env newHeader w wm Hhas Hhead Hwm)
      as (effs1 & wm1 & Ht1 & Hw1 & Hle1 & Hall1).
    cbn [run]. unfold bind.
    destruct (ProcessHeader rl env newHeader w) as [[header' | msg] w1].
    + cbn [snd] in Ht1, Hw1.
      destruct (IH w1 wm1 Hw1) as (effs2 & wm2 & Ht2 & Hw2 & Hle2 & Hall2).
      exists (effs1 ++ effs2), wm2.
      split; [rewrite Ht2, Ht1, app_assoc; reflexivity |].
      split; [exact Hw2 |]. split; [lia |].
      rewrite queries_app. apply Forall_app. split; [exact Hall1 |].
      eapply Forall_impl; [exact Hall2 |]. intros q Hq. simpl in Hq. lia.
    + exists effs1, wm1. cbn [snd] in Ht1, Hw1 |- *. auto.
Qed.

(** C3: take any cycles [earlier] and then any cycles [later], all with
    storage look-ups that answer and heads that fit 64 bits, from a world
    with a readable watermark.  The watermark after [earlier] is not below
    the one before, the watermark after [later] is not below that one, and
    no range queried during [later] holds a block at or below the watermark
    stored when [later] starts. *)
Theorem watermark_never_regresses (rl : RootChainListener)
    (earlier later : list (Env * Header)) (w : World) (wm : N) :
  Forall (fun input => Has_fails (fst input) = false /\ Number (snd input) < 2 ^ 64)
    (earlier ++ later) ->
  watermark w = Some wm ->
  let w1 := snd (run rl earlier w) in
  let w2 := snd (run rl later w1) in
  exists wm1 wm2 : N,
    watermark w1 = Some wm1
    /\ watermark w2 = Some wm2
    /\ (wm <= wm1)%N /\ (wm1 <= wm2)%N
    /\ Forall (fun q => forall block : Z,
                  FromBlock q <= block <= ToBlock q -> Z.of_N wm1 < block)
         (queries (emitted (run rl later) w1)).
Proof.
  intros Hinputs Hwm w1 w2.
  apply Forall_app in Hinputs as [Hearlier Hlater].
  destruct (run_above_watermark rl earlier w wm Hearlier Hwm) as (wm1 & Hw1 & Hle1 & _).
  fold w1 in Hw1.
  destruct (run_above_watermark rl later w1 wm1 Hlater Hw1) as (wm2 & Hw2 & Hle2 & Hall).
  exists wm1, wm2. repeat (split; [assumption |]).
  eapply Forall_impl; [exact Hall |].
  intros q Hq block Hblock. simpl in Hq. lia.
Qed.

Lemma switch_event_sent_current (rl : RootChainListener) (env : Env)
    (selectedEvent : Event) (vLog : Log) (w : World) :
  (forall n, fst (CalculateTaskDelay env n) = true) ->
  has_case (Name selectedEvent) = true ->
  exists (w' : World) (sg : Signature),
    switch_event rl env selectedEvent vLog w = (Returned tt, w') /\ sent w w' [sg].
Proof.
  intros Hcurrent Hcase.
  assert (Hsend : forall taskName,
    exists (w' : World) (sg : Signature),
      send_if_current rl env taskName selectedEvent vLog w = (Returned tt, w')
      /\ sent w w' [sg]).
  { intros taskName.
    unfold send_if_current, bind, util_CalculateTaskDelay, bind, get_state,
      modify_state, ret.
    specialize (Hcurrent (oracleCalls w)).
    destruct (CalculateTaskDelay env (oracleCalls w)) as [isCurrentValidator delay].
    simpl in Hcurrent. subst isCurrentValidator.
    eexists _, _. split; [reflexivity |]. split; reflexivity. }
  unfold switch_event. unfold has_case in Hcase.
  destruct (String.eqb (Name selectedEvent) "NewHeaderBlock"); [apply Hsend |].
  destruct (String.eqb (Name selectedEvent) "StateSynced"); [apply Hsend |].
  destruct (String.eqb (Name selectedEvent) "StakeAck"); [apply Hsend |].
  discriminate.
Qed.

Lemma abi_loop_sent_current (rl : RootChainListener) (env : Env) (remaining : list ABI)
    (vLog : Log) (topic : bytes) (w : World) :
  (forall n, fst (CalculateTaskDelay env n) = true) ->
  Forall (fun abiObject => forall selectedEvent,
            EventByID abiObject topic = Some selectedEvent ->
            has_case (Name selectedEvent) = true) remaining ->
  exists (w' : World) (sigs : list Signature),
    abi_loop rl env remaining vLog topic w = (Returned tt, w')
    /\ sent w w' sigs
    /\ length sigs = length (matching_abis remaining topic).
Proof.
  intros Hcurrent Hall. revert w.
  induction Hall as [| abiObject rest Hcase _ IH]; intros w.
  - exists w, []. split; [reflexivity |]. split; [apply sent_refl | reflexivity].
  - cbn [abi_loop]. unfold matching_abis. cbn [List.filter].
    destruct (EventByID abiObject topic) as [selectedEvent |] eqn:E.
    + destruct (switch_event_sent_current rl env selectedEvent vLog w Hcurrent
                  (Hcase _ eq_refl)) as (w1 & sg & Hrun1 & Hsent1).
      destruct (IH w1) as (w2 & sigs2 & Hrun2 & Hsent2 & Hlen2).
      exists w2, ([sg] ++ sigs2). unfold bind at 1. rewrite Hrun1.
      split; [exact Hrun2 |]. split; [eapply sent_trans; eauto |].
      rewrite bool_decide_eq_true_2 by eauto.
      cbn [app length]. unfold matching_abis in Hlen2. rewrite Hlen2. reflexivity.
    + destruct (IH w) as (w2 & sigs2 & Hrun2 & Hsent2 & Hlen2).
      exists w2, sigs2. unfold bind at 1, ret.
      split; [exact Hrun2 |]. split; [exact Hsent2 |].
      rewrite bool_decide_eq_false_2 by (intros [x Hx]; discriminate).
      exact Hlen2.
Qed.

(** C9, as amended: for one log the ABIs are all tried, in order, and the
    loop does not stop at a match.  The log sends at most one task for each
    ABI whose catalogue holds its first topic, hence at most one when a
    single ABI holds it; and it sends exactly one for each of them when the
    node is a current validator at every rank query and the matched events
    are among those the [switch] has a case for. *)
Theorem abi_loop_one_task_per_matching_abi (rl : RootChainListener) (env : Env)
    (vLog : Log) (topic : bytes) (w : World) :
  let sends := tasks (emitted (abi_loop rl env (abis rl) vLog topic) w) in
  let holders := matching_abis (abis rl) topic in
  fst (abi_loop rl env (abis rl) vLog topic w) = Returned tt
  /\ (length sends <= length holders)%nat
  /\ ((forall n, fst (CalculateTaskDelay env n) = true) ->
      Forall (fun abiObject => forall selectedEvent,
                EventByID abiObject topic = Some selectedEvent ->
                has_case (Name selectedEvent) = true) (abis rl) ->
      length sends = length holders).
Proof.
  intros sends holders. subst sends holders.
  destruct (abi_loop_sent rl env (abis rl) vLog topic w)
    as (w' & sigs & Hrun & [_ Ht] & Hlen).
  assert (Hem : emitted (abi_loop rl env (abis rl) vLog topic) w = map ESendTask sigs).
  { apply emitted_of_trace. rewrite Hrun. exact Ht. }
  split; [rewrite Hrun; reflexivity |].
  split; [rewrite Hem, tasks_tasks; exact Hlen |].
  intros Hcurrent Hall.
  destruct (abi_loop_sent_current rl env (abis rl) vLog topic w Hcurrent Hall)
    as (w2 & sigs2 & Hrun2 & [_ Ht2] & Hlen2).
  rewrite Hrun in Hrun2. injection Hrun2 as <-.
  rewrite Ht in Ht2. apply app_inv_head in Ht2.
  rewrite Hem, Ht2, tasks_tasks. exact Hlen2.
Qed.

End ListenerClaims.

(** ** The claims on the sample chain *)

(** C6 at head 3 with 3 required confirmations. *)
Lemma ProcessHeader_skips_shallow_head_witness :
  Listener.ProcessHeader SampleChain.listener SampleChain.env
    {| Listener.Number := 3 |} SampleChain.fresh
  = (Returned {| Listener.Number := 3 |}, SampleChain.fresh)
  /\ Listener.emitted
       (Listener.ProcessHeader SampleChain.listener SampleChain.env
          {| Listener.Number := 3 |}) SampleChain.fresh = [].
Proof.
  apply (ProcessHeader_skips_shallow_head SampleChain.listener SampleChain.env
           {| Listener.Number := 3 |} SampleChain.fresh SampleChain.context).
  - reflexivity.
  - simpl. lia.
Defined.

(** C4 at watermark 100 and head 100. *)
Lemma ProcessHeader_skips_at_or_below_watermark_witness :
  snd (Listener.ProcessHeader SampleChain.listener SampleChain.env
         {| Listener.Number := 100 |} SampleChain.at100) = SampleChain.at100
  /\ Listener.emitted
       (Listener.ProcessHeader SampleChain.listener SampleChain.env
          {| Listener.Number := 100 |}) SampleChain.at100 = [].
Proof.
  apply (ProcessHeader_skips_at_or_below_watermark SampleChain.listener SampleChain.env
           {| Listener.Number := 100 |} SampleChain.at100 100).
  - reflexivity.
  - vm_compute. reflexivity.
  - simpl. lia.
Defined.

(** C5 at watermark 100, head 110 and 3 confirmations: the range is
    [101, 107]. *)
Lemma ProcessHeader_scan_range_witness :
  let q := {| Listener.FromBlock := 101; Listener.ToBlock := 107;
              Listener.Addresses := [[Byte.xa1]; [Byte.xa2]; [Byte.xa3]] |} in
  In q (Listener.queries
          (Listener.emitted
             (Listener.ProcessHeader SampleChain.listener SampleChain.env
                {| Listener.Number := 110 |}) SampleChain.at100))
  /\ Listener.ToBlock q = 110 - 3
  /\ Listener.FromBlock q <= Listener.ToBlock q
  /\ Listener.FromBlock q = (if 100 + 1 <=? 110 - 3 then 100 + 1 else 110 - 3).
Proof.
  intros q.
  assert (Hq : In q (Listener.queries
                       (Listener.emitted
                          (Listener.ProcessHeader SampleChain.listener SampleChain.env
                             {| Listener.Number := 110 |}) SampleChain.at100))).
  { vm_compute. left. reflexivity. }
  split; [exact Hq |].
  destruct (ProcessHeader_scan_range SampleChain.listener SampleChain.env
              {| Listener.Number := 110 |} SampleChain.at100 SampleChain.context q
              eq_refl Hq) as (Hto & Hle & _ & Hfrom).
  split; [exact Hto |]. split; [exact Hle |].
  apply (Hfrom 100%N).
  - vm_compute. reflexivity.
  - reflexivity.
  - simpl. lia.
Defined.

(** C7 at head 105 with no stored watermark and a failing query: the
    watermark 102 is written, the query follows and nothing else. *)
Lemma ProcessHeader_persists_before_query_witness :
  let q := {| Listener.FromBlock := 102; Listener.ToBlock := 102;
              Listener.Addresses := [[Byte.xa1]; [Byte.xa2]; [Byte.xa3]] |} in
  exists sigs : list Listener.Signature,
    Listener.emitted
      (Listener.ProcessHeader SampleChain.listener SampleChain.env_query_fails
         {| Listener.Number := 105 |}) SampleChain.fresh
    = Listener.EPut Listener.lastRootBlockKey (Listener.big_String 102) true
        :: Listener.EFilterLogs q :: map Listener.ESendTask sigs
    /\ (Listener.FilterLogs SampleChain.env_query_fails q = None -> sigs = [])
    /\ (Listener.Put_fails SampleChain.env_query_fails = false ->
        Listener.storage
          (snd (Listener.ProcessHeader SampleChain.listener SampleChain.env_query_fails
                  {| Listener.Number := 105 |} SampleChain.fresh))
          !! Listener.lastRootBlockKey
        = Some (Listener.big_String 102)).
Proof.
  intros q.
  apply (ProcessHeader_persists_before_query SampleChain.listener
           SampleChain.env_query_fails {| Listener.Number := 105 |} SampleChain.fresh q).
  vm_compute. left. reflexivity.
Defined.

(** C3 from watermark 100: first the head 110, then the heads 104, with a
    failing query, and 120. *)
Lemma watermark_never_regresses_witness :
  let earlier := [ (SampleChain.env, {| Listener.Number := 110 |}) ] in
  let later := [ (SampleChain.env_query_fails, {| Listener.Number := 104 |});
                 (SampleChain.env, {| Listener.Number := 120 |}) ] in
  let w1 := snd (Listener.run SampleChain.listener earlier SampleChain.at100) in
  let w2 := snd (Listener.run SampleChain.listener later w1) in
  exists wm1 wm2 : N,
    Listener.watermark w1 = Some wm1
    /\ Listener.watermark w2 = Some wm2
    /\ (100 <= wm1)%N /\ (wm1 <= wm2)%N
    /\ Forall (fun q => forall block : Z,
                  Listener.FromBlock q <= block <= Listener.ToBlock q ->
                  Z.of_N wm1 < block)
         (Listener.queries
            (Listener.emitted (Listener.run SampleChain.listener later) w1)).
Proof.
  intros earlier later.
  apply (watermark_never_regresses SampleChain.listener earlier later SampleChain.at100 100).
  - repeat constructor; simpl; lia.
  - vm_compute. reflexivity.
Defined.

(** The amended C9 on the sample chain: two ABIs hold the [StateSynced]
    topic, and the log sends two tasks. *)
Lemma abi_loop_one_task_per_matching_abi_witness :
  length (Listener.tasks
            (Listener.emitted
               (Listener.abi_loop SampleChain.listener SampleChain.env
                  (Listener.abis SampleChain.listener) SampleChain.stateSyncedLog
                  SampleChain.topicStateSynced) SampleChain.fresh))
  = length (Listener.matching_abis (Listener.abis SampleChain.listener)
              SampleChain.topicStateSynced)
  /\ length (Listener.matching_abis (Listener.abis SampleChain.listener)
               SampleChain.topicStateSynced) = 2%nat.
Proof.
  split; [| reflexivity].
  apply (abi_loop_one_task_per_matching_abi SampleChain.listener SampleChain.env
           SampleChain.stateSyncedLog SampleChain.topicStateSynced SampleChain.fresh).
  - intros n. reflexivity.
  - repeat constructor; intros selectedEvent; vm_compute; intros [= <-]; reflexivity.
Defined.

(** C9 fails as stated: one log is fetched, its first topic is held by the
    catalogue of the second ABI and by that of the third, and both send a
    task, where the first match alone would send one. *)
Lemma queryAndBroadcastEvents_later_match_sends_too :
  Listener.FilterLogs SampleChain.env
    {| Listener.FromBlock := 102; Listener.ToBlock := 102;
       Listener.Addresses := [[Byte.xa1]; [Byte.xa2]; [Byte.xa3]] |}
  = Some [SampleChain.stateSyncedLog]
  /\ Listener.matching_abis (Listener.abis SampleChain.listener)
       SampleChain.topicStateSynced
     = [SampleChain.stateSenderABI; SampleChain.stakingInfoABI]
  /\ map Listener.TaskName
       (Listener.tasks
          (Listener.emitted
             (Listener.ProcessHeader SampleChain.listener SampleChain.env
                {| Listener.Number := 105 |}) SampleChain.fresh))
     = ["sendStateSyncedToHeimdall"%string; "sendStateSyncedToHeimdall"%string].
Proof.
  split; [reflexivity |]. split; vm_compute; reflexivity.
Qed.

(** * Further properties of the embedded code *)

(** ** The staking queue as a FIFO *)

Section QueueProtocol.
Import Staking.
Context `{!AminoCodec (list StakingRecord)} `{!AminoCodecLaws (list StakingRecord)}.
Variable stakingSendingQueueKey : bytes.

Local Abbreviation key_of := (getStakingQueueKey stakingSendingQueueKey).
Local Abbreviation queue_of := (stored_queue stakingSendingQueueKey).
Local Abbreviation list_of := (persisted_list stakingSendingQueueKey).




(** X2: records are stored in the order of the calls.  After any number
    of calls of [AddStakingRecordToQueue] the persisted list is the old
    list followed by the added records, and the head returned by
    [GetNextStakingRecordFromQueue] is the head of that list: the oldest
    record, or the first added one when the queue was empty or absent. *)
Theorem enqueue_all_appends_in_order (s : KVStore) (rootID : byte)
    (records added : list StakingRecord) :
  list_of s rootID = Some records ->
  let s' := snd (enqueue_all stakingSendingQueueKey rootID added s) in
  fst (enqueue_all stakingSendingQueueKey rootID added s) = Returned tt
  /\ list_of s' rootID = Some (records ++ added)
  /\ (forall first, head (records ++ added) = Some first -> added <> [] ->
      fst (GetNextStakingRecordFromQueue stakingSendingQueueKey rootID s')
      = Returned (Some first, ErrNil)).
Proof.
  intros Hl s'.
  assert (Hgen : fst (enqueue_all stakingSendingQueueKey rootID added s) = Returned tt
                 /\ list_of s' rootID = Some (records ++ added)
                 /\ (added <> [] -> is_Some (s' !! key_of rootID))).
  { subst s'. revert s records Hl.
    induction added as [| r rest IH]; intros s records Hl.
    - simpl. rewrite app_nil_r. split; [reflexivity |]. split; [exact Hl | congruence].
    - destruct (AddStakingRecordToQueue_appends stakingSendingQueueKey s rootID r records Hl)
        as (bz & Hbz & Hadd).
      cbn [enqueue_all]. unfold bind. rewrite Hadd.
      assert (Hl1 : list_of (<[key_of rootID := bz]> s) rootID = Some (records ++ [r])).
      { apply list_of_insert; assumption. }
      destruct (IH _ _ Hl1) as (Hret & Hlist & Hsome).
      split; [exact Hret |]. split.
      + rewrite Hlist, <- app_assoc. reflexivity.
      + intros _. destruct rest as [| r2 rest2].
        * simpl. rewrite lookup_insert_eq. eauto.
        * apply Hsome. discriminate. }
  destruct Hgen as (Hret & Hlist & Hsome).
  split; [exact Hret |]. split; [exact Hlist |].
  intros first Hhead Hne.
  rewrite GetNextStakingRecordFromQueue_cases.
  destruct (Hsome Hne) as [bz Hbz].
  unfold persisted_list in Hlist. rewrite Hbz in Hlist |- *. rewrite Hlist.
  destruct (records ++ added) as [| r0 l0]; [discriminate |].
  simpl in Hhead. injection Hhead as ->. reflexivity.
Qed.

(** Every call on the queue of one root either leaves the store as it is
    or writes the key of that root. *)
Lemma AddStakingRecordToQueue_writes_own_key (s : KVStore) (rootID : byte)
    (r : StakingRecord) :
  snd (AddStakingRecordToQueue stakingSendingQueueKey rootID r s) = s
  \/ exists bz, snd (AddStakingRecordToQueue stakingSendingQueueKey rootID r s)
                = <[key_of rootID := bz]> s.
Proof.
  unfold AddStakingRecordToQueue, bind, store_Has, store_Get, store_Set, ret.
  destruct (bool_decide (is_Some (s !! key_of rootID))).
  - destruct (UnmarshalBinaryBare (default [] (s !! key_of rootID))) as [records |];
      [| left; reflexivity].
    destruct (MarshalBinaryBare (records ++ [r])) as [out |];
      [right; eexists; reflexivity | left; reflexivity].
  - destruct (MarshalBinaryBare ([] ++ [r])) as [out |];
      [right; eexists; reflexivity | left; reflexivity].
Qed.

Lemma remove_loop_writes_own_key (s : KVStore) (key : bytes) (validatorID nonce : N)
    (records remaining : list StakingRecord) (index : nat) :
  snd (remove_loop key records index remaining validatorID nonce s) = s
  \/ exists bz, snd (remove_loop key records index remaining validatorID nonce s)
                = <[key := bz]> s.
Proof.
  revert index. induction remaining as [| record rest IH]; intros index; simpl.
  - left. reflexivity.
  - destruct (matches validatorID nonce record); [| apply IH].
    destruct (MarshalBinaryBare (drop (S index) records)) as [out |];
      [right; eexists; reflexivity | left; reflexivity].
Qed.

Lemma removeStakingRecordFromQueue_writes_own_key (s : KVStore) (rootID : byte)
    (validatorID nonce : N) :
  snd (removeStakingRecordFromQueue stakingSendingQueueKey rootID validatorID nonce s) = s
  \/ exists bz,
       snd (removeStakingRecordFromQueue stakingSendingQueueKey rootID validatorID nonce s)
       = <[key_of rootID := bz]> s.
Proof.
  unfold removeStakingRecordFromQueue, bind, store_Has, store_Get, ret.
  destruct (bool_decide (is_Some (s !! key_of rootID))); cbn [negb]; [| left; reflexivity].
  destruct (UnmarshalBinaryBare (default [] (s !! key_of rootID))) as [records |];
    [| left; reflexivity].
  apply remove_loop_writes_own_key.
Qed.

Lemma key_of_inj (rootID rootID' : byte) : key_of rootID = key_of rootID' -> rootID = rootID'.
Proof.
  unfold getStakingQueueKey. intros E. apply app_inv_head in E. congruence.
Qed.

Lemma GetNext_depends_on_own_key (s s' : KVStore) (rootID : byte) :
  s' !! key_of rootID = s !! key_of rootID ->
  fst (GetNextStakingRecordFromQueue stakingSendingQueueKey rootID s')
  = fst (GetNextStakingRecordFromQueue stakingSendingQueueKey rootID s).
Proof.
  intros E. rewrite !GetNextStakingRecordFromQueue_cases, E. reflexivity.
Qed.

(** X3: the queues of two source chains do not touch each other.  Adding
    to, or removing from, the queue of [rootID] leaves the blob of every
    other root as it is, and with it what
    [GetNextStakingRecordFromQueue] returns for that root. *)
Theorem queues_of_other_roots_untouched (s : KVStore) (rootID other : byte)
    (r : StakingRecord) (validatorID nonce : N) :
  other <> rootID ->
  let s1 := snd (AddStakingRecordToQueue stakingSendingQueueKey rootID r s) in
  let s2 := snd (removeStakingRecordFromQueue stakingSendingQueueKey rootID
                   validatorID nonce s) in
  s1 !! key_of other = s !! key_of other
  /\ s2 !! key_of other = s !! key_of other
  /\ fst (GetNextStakingRecordFromQueue stakingSendingQueueKey other s1)
     = fst (GetNextStakingRecordFromQueue stakingSendingQueueKey other s)
  /\ fst (GetNextStakingRecordFromQueue stakingSendingQueueKey other s2)
     = fst (GetNextStakingRecordFromQueue stakingSendingQueueKey other s).
Proof.
  intros Hne s1 s2.
  assert (Hkey : key_of rootID <> key_of other).
  { intros E. apply key_of_inj in E. congruence. }
  assert (H1 : s1 !! key_of other = s !! key_of other).
  { subst s1. destruct (AddStakingRecordToQueue_writes_own_key s rootID r) as [-> | [bz ->]];
      [reflexivity | apply lookup_insert_ne; exact Hkey]. }
  assert (H2 : s2 !! key_of other = s !! key_of other).
  { subst s2.
    destruct (removeStakingRecordFromQueue_writes_own_key s rootID validatorID nonce)
      as [-> | [bz ->]]; [reflexivity | apply lookup_insert_ne; exact Hkey]. }
  split; [exact H1 |]. split; [exact H2 |].
  split; apply GetNext_depends_on_own_key; assumption.
Qed.

(** X4: a stored blob that does not decode blocks the queue of its root.
    [AddStakingRecordToQueue] returns without storing the record,
    [removeStakingRecordFromQueue] removes nothing,
    [findStakingRecordFromQueue] answers no and
    [GetNextStakingRecordFromQueue] returns the decoding error; none of
    them changes the store. *)
Theorem undecodable_queue_blocks (s : KVStore) (rootID : byte) (bz : bytes)
    (r : StakingRecord) (validatorID nonce : N) :
  s !! key_of rootID = Some bz ->
  UnmarshalBinaryBare bz = (None : option (list StakingRecord)) ->
  AddStakingRecordToQueue stakingSendingQueueKey rootID r s = (Returned tt, s)
  /\ removeStakingRecordFromQueue stakingSendingQueueKey rootID validatorID nonce s
     = (Returned tt, s)
  /\ findStakingRecordFromQueue stakingSendingQueueKey rootID r s = (Returned false, s)
  /\ GetNextStakingRecordFromQueue stakingSendingQueueKey rootID s
     = (Returned (None, amino_error), s).
Proof.
  intros Hs Hd.
  unfold AddStakingRecordToQueue, removeStakingRecordFromQueue,
    findStakingRecordFromQueue, GetNextStakingRecordFromQueue, bind.
  rewrite (Has_present _ _ _ Hs). cbn beta iota delta [negb].
  rewrite (Get_present _ _ _ Hs). unfold ret. rewrite Hd. repeat split.
Qed.




(** X6: removal is a no-op when no queue is stored for the root and when
    no stored record has the validator ID and nonce. *)
Theorem remove_without_match_is_noop (s : KVStore) (rootID : byte)
    (validatorID nonce : N) (records : list StakingRecord) :
  list_of s rootID = Some records ->
  Forall (fun r => matches validatorID nonce r = false) records ->
  removeStakingRecordFromQueue stakingSendingQueueKey rootID validatorID nonce s
  = (Returned tt, s).
Proof.
  intros Hl Hall. unfold persisted_list in Hl.
  destruct (s !! key_of rootID) as [bz |] eqn:E.
  - apply (removeStakingRecordFromQueue_no_match stakingSendingQueueKey s rootID
             validatorID nonce records); [| exact Hall].
    unfold stored_queue. rewrite E. exact Hl.
  - unfold removeStakingRecordFromQueue, bind. rewrite (Has_absent _ _ E). reflexivity.
Qed.

End QueueProtocol.

(** ** Validator records and the ID index *)

Section ValidatorStore.
Import Staking.
Context `{!AminoCodec Validator} `{!AminoCodecLaws Validator}.
Variable ValidatorID_Bytes : N -> bytes.

Lemma GetValidatorInfo_absent (s : KVStore) (address : bytes) :
  s !! GetValidatorKey address = None ->
  GetValidatorInfo address s = (Returned (zero_Validator, Err "Validator not found"), s).
Proof.
  intros E. unfold GetValidatorInfo, bind. rewrite (Has_absent _ _ E). reflexivity.
Qed.

Lemma GetSignerFromValidatorID_stored (s : KVStore) (valID : N) (signer : bytes) :
  s !! GetValidatorMapKey (ValidatorID_Bytes valID) = Some signer ->
  GetSignerFromValidatorID ValidatorID_Bytes valID s
  = (Returned (BytesToAddress signer, true), s).
Proof.
  intros E. unfold GetSignerFromValidatorID, bind.
  rewrite (Has_present _ _ _ E). cbn beta iota delta [negb].
  rewrite (Get_present _ _ _ E). reflexivity.
Qed.

Lemma GetSignerFromValidatorID_absent (s : KVStore) (valID : N) :
  s !! GetValidatorMapKey (ValidatorID_Bytes valID) = None ->
  GetSignerFromValidatorID ValidatorID_Bytes valID s = (Returned (ZeroAddress, false), s).
Proof.
  intros E. unfold GetSignerFromValidatorID, bind. rewrite (Has_absent _ _ E). reflexivity.
Qed.

(** The two look-ups read one key each and leave the store as it is. *)
Lemma GetValidatorInfo_cases (s : KVStore) (address : bytes) :
  GetValidatorInfo address s =
  (Returned match s !! GetValidatorKey address with
            | None => (zero_Validator, Err "Validator not found")
            | Some bz =>
                match UnmarshalBinaryBare bz with
                | Some validator => (validator, ErrNil)
                | None => (zero_Validator, amino_error)
                end
            end, s).
Proof.
  destruct (s !! GetValidatorKey address) as [bz |] eqn:E.
  - unfold GetValidatorInfo, bind. rewrite (Has_present _ _ _ E).
    cbn beta iota delta [negb]. rewrite (Get_present _ _ _ E).
    destruct (UnmarshalBinaryBare bz); reflexivity.
  - apply GetValidatorInfo_absent. exact E.
Qed.

Lemma GetSignerFromValidatorID_cases (s : KVStore) (valID : N) :
  GetSignerFromValidatorID ValidatorID_Bytes valID s =
  (Returned match s !! GetValidatorMapKey (ValidatorID_Bytes valID) with
            | None => (ZeroAddress, false)
            | Some signer => (BytesToAddress signer, true)
            end, s).
Proof.
  destruct (s !! GetValidatorMapKey (ValidatorID_Bytes valID)) as [signer |] eqn:E.
  - apply GetSignerFromValidatorID_stored. exact E.
  - apply GetSignerFromValidatorID_absent. exact E.
Qed.

(** X7: what [AddValidator] stores can be read back by signer and by ID.
    After [AddValidator v], [GetValidatorInfo] of the signer of [v] returns
    [v], the ID of [v] resolves to its signer, and [GetValidatorFromValID]
    and [GetLastUpdated] of that ID return [v] and its [LastUpdated]. *)
Theorem AddValidator_then_lookups (s : KVStore) (validator : Validator) :
  length (Signer validator) = AddressLength ->
  exists s' : KVStore,
    AddValidator ValidatorID_Bytes validator s = (Returned ErrNil, s')
    /\ GetValidatorInfo (Signer validator) s' = (Returned (validator, ErrNil), s')
    /\ GetSignerFromValidatorID ValidatorID_Bytes (ID validator) s'
       = (Returned (Signer validator, true), s')
    /\ GetValidatorFromValID ValidatorID_Bytes (ID validator) s'
       = (Returned (validator, true), s')
    /\ GetLastUpdated ValidatorID_Bytes (ID validator) s'
       = (Returned (LastUpdated validator, true), s').
Proof.
  intros Hlen.
  destruct (AddValidator_writes ValidatorID_Bytes s validator) as (bz & Hbz & Hadd).
  eexists. split; [exact Hadd |].
  match goal with |- context [GetValidatorInfo _ ?st] => set (s' := st) end.
  assert (Hrec : s' !! GetValidatorKey (Signer validator) = Some bz).
  { unfold s'. rewrite lookup_insert_ne by (apply not_eq_sym, validator_key_not_map_key).
    apply lookup_insert_eq. }
  assert (Hmap : s' !! GetValidatorMapKey (ValidatorID_Bytes (ID validator))
                 = Some (Signer validator)).
  { unfold s'. apply lookup_insert_eq. }
  assert (Hinfo : GetValidatorInfo (Signer validator) s' = (Returned (validator, ErrNil), s')).
  { apply (GetValidatorInfo_stored _ _ bz); [exact Hrec |].
    apply unmarshal_marshal. exact Hbz. }
  assert (Hsigner : GetSignerFromValidatorID ValidatorID_Bytes (ID validator) s'
                    = (Returned (Signer validator, true), s')).
  { rewrite (GetSignerFromValidatorID_stored _ _ _ Hmap).
    rewrite (BytesToAddress_of_address _ Hlen). reflexivity. }
  assert (Hval : GetValidatorFromValID ValidatorID_Bytes (ID validator) s'
                 = (Returned (validator, true), s')).
  { unfold GetValidatorFromValID, bind at 1. rewrite Hsigner. cbn beta iota delta [negb].
    unfold bind. rewrite Hinfo. reflexivity. }
  split; [exact Hinfo |]. split; [exact Hsigner |]. split; [exact Hval |].
  unfold GetLastUpdated, bind. rewrite Hval. reflexivity.
Qed.

(** X8: look-ups by an ID that leads nowhere.  When the ID has no index
    entry, or when its entry names a signer under which no record is
    stored, [GetValidatorFromValID] answers not found and [GetLastUpdated]
    returns 0 and not found; the store is not changed. *)
Theorem lookups_by_unknown_ID (s : KVStore) (valID : N) :
  s !! GetValidatorMapKey (ValidatorID_Bytes valID) = None
  \/ (exists signer,
        s !! GetValidatorMapKey (ValidatorID_Bytes valID) = Some signer
        /\ s !! GetValidatorKey (BytesToAddress signer) = None) ->
  GetValidatorFromValID ValidatorID_Bytes valID s = (Returned (zero_Validator, false), s)
  /\ GetLastUpdated ValidatorID_Bytes valID s = (Returned (0%N, false), s).
Proof.
  intros Hcase.
  assert (Hval : GetValidatorFromValID ValidatorID_Bytes valID s
                 = (Returned (zero_Validator, false), s)).
  { unfold GetValidatorFromValID, bind at 1.
    destruct Hcase as [Hnone | (signer & Hmap & Hrec)].
    - rewrite (GetSignerFromValidatorID_absent _ _ Hnone). reflexivity.
    - rewrite (GetSignerFromValidatorID_stored _ _ _ Hmap). cbn beta iota delta [negb].
      unfold bind. rewrite (GetValidatorInfo_absent _ _ Hrec). reflexivity. }
  split; [exact Hval |].
  unfold GetLastUpdated, bind. rewrite Hval. reflexivity.
Qed.

(** X9: [AddValidator] writes two keys only.  The record of every other
    signer and the index entry of every ID with other key bytes are as
    before, and so is what [GetValidatorInfo] returns for other signers. *)
Theorem AddValidator_leaves_others (s : KVStore) (validator : Validator)
    (address : bytes) (valID : N) :
  let s' := snd (AddValidator ValidatorID_Bytes validator s) in
  (address <> Signer validator ->
   s' !! GetValidatorKey address = s !! GetValidatorKey address
   /\ fst (GetValidatorInfo address s') = fst (GetValidatorInfo address s))
  /\ (ValidatorID_Bytes valID <> ValidatorID_Bytes (ID validator) ->
      s' !! GetValidatorMapKey (ValidatorID_Bytes valID)
      = s !! GetValidatorMapKey (ValidatorID_Bytes valID)
      /\ fst (GetSignerFromValidatorID ValidatorID_Bytes valID s')
         = fst (GetSignerFromValidatorID ValidatorID_Bytes valID s)).
Proof.
  intros s'.
  destruct (AddValidator_writes ValidatorID_Bytes s validator) as (bz & Hbz & Hadd).
  subst s'. rewrite Hadd. cbn [snd]. split.
  - intros Hne.
    assert (Hkey : <[GetValidatorMapKey (ValidatorID_Bytes (ID validator)) := Signer validator]>
                     (<[GetValidatorKey (Signer validator) := bz]> s)
                   !! GetValidatorKey address = s !! GetValidatorKey address).
    { rewrite lookup_insert_ne by (apply not_eq_sym, validator_key_not_map_key).
      apply lookup_insert_ne. intros E. apply GetValidatorKey_inj in E. congruence. }
    split; [exact Hkey |].
    rewrite !GetValidatorInfo_cases. cbn [fst]. rewrite Hkey. reflexivity.
  - intros Hne.
    assert (Hkey : <[GetValidatorMapKey (ValidatorID_Bytes (ID validator)) := Signer validator]>
                     (<[GetValidatorKey (Signer validator) := bz]> s)
                   !! GetValidatorMapKey (ValidatorID_Bytes valID)
                   = s !! GetValidatorMapKey (ValidatorID_Bytes valID)).
    { rewrite lookup_insert_ne
        by (unfold GetValidatorMapKey; intros E; apply app_inv_head in E; congruence).
      apply lookup_insert_ne. apply validator_key_not_map_key. }
    split; [exact Hkey |].
    rewrite !GetSignerFromValidatorID_cases. cbn [fst]. rewrite Hkey. reflexivity.
Qed.

(** X10: [AddDeactivationEpoch] takes the end epoch from [updatedVal] and
    nothing else.  With a zero end epoch it reports that the deactivation
    period is not set and leaves the store as it is; otherwise it stores
    [validator] with that end epoch, every other field as [validator] has
    it, under the signer of [validator]. *)
Theorem AddDeactivationEpoch_cases (s : KVStore) (validator updatedVal : Validator) :
  (EndEpoch updatedVal = 0%N ->
   AddDeactivationEpoch ValidatorID_Bytes validator updatedVal s
   = (Returned (Err "Deactivation period not set"), s))
  /\ (EndEpoch updatedVal <> 0%N ->
      exists s' : KVStore,
        AddDeactivationEpoch ValidatorID_Bytes validator updatedVal s = (Returned ErrNil, s')
        /\ GetValidatorInfo (Signer validator) s'
           = (Returned (set_EndEpoch validator (EndEpoch updatedVal), ErrNil), s')).
Proof.
  unfold AddDeactivationEpoch. split.
  - intros ->. reflexivity.
  - intros Hne. apply N.eqb_neq in Hne. rewrite Hne. cbn [negb].
    set (stored := set_EndEpoch validator (EndEpoch updatedVal)).
    destruct (AddValidator_writes ValidatorID_Bytes s stored) as (bz & Hbz & Hadd).
    eexists. split; [exact Hadd |].
    apply (GetValidatorInfo_stored _ _ bz); [| apply unmarshal_marshal; exact Hbz].
    rewrite lookup_insert_ne by (apply not_eq_sym, validator_key_not_map_key).
    apply lookup_insert_eq.
Qed.

(** X11: [UpdateSigner] of a signer without a stored record returns the
    not-found error and writes nothing; the same holds, with the decoding
    error, when the stored blob does not decode. *)
Theorem UpdateSigner_unknown_signer (s : KVStore) (newSigner : HeimdallAddress)
    (newPubkey : bytes) (prevSigner : HeimdallAddress) :
  (s !! GetValidatorKey prevSigner = None ->
   UpdateSigner ValidatorID_Bytes newSigner newPubkey prevSigner s
   = (Returned (Err "Validator not found"), s))
  /\ (forall bz, s !! GetValidatorKey prevSigner = Some bz ->
      UnmarshalBinaryBare bz = (None : option Validator) ->
      UpdateSigner ValidatorID_Bytes newSigner newPubkey prevSigner s
      = (Returned amino_error, s)).
Proof.
  split.
  - intros E. unfold UpdateSigner, bind at 1.
    rewrite (GetValidatorInfo_absent _ _ E). reflexivity.
  - intros bz E Hd. unfold UpdateSigner, bind at 1.
    unfold GetValidatorInfo, bind. rewrite (Has_present _ _ _ E).
    cbn beta iota delta [negb]. rewrite (Get_present _ _ _ E), Hd. reflexivity.
Qed.

(** X12: [UpdateSigner] with the same address as new and previous signer
    changes the public key in place: the second write replaces the zeroed
    record, so the record under that address keeps its power. *)
Theorem UpdateSigner_same_signer_keeps_power (s : KVStore) (signer : HeimdallAddress)
    (newPubkey : bytes) (validator : Validator) :
  GetValidatorInfo signer s = (Returned (validator, ErrNil), s) ->
  Signer validator = signer ->
  exists (s' : KVStore) (stored : Validator),
    UpdateSigner ValidatorID_Bytes signer newPubkey signer s = (Returned ErrNil, s')
    /\ GetValidatorInfo signer s' = (Returned (stored, ErrNil), s')
    /\ Power stored = Power validator
    /\ PubKey stored = newPubkey
    /\ ID stored = ID validator.
Proof.
  intros Hget Hsigner.
  set (retired := set_Power validator 0).
  set (rotated := set_Power (set_PubKey (set_Signer retired signer) newPubkey)
                    (Power validator)).
  destruct (AddValidator_writes ValidatorID_Bytes s retired) as (bz1 & Hbz1 & Hadd1).
  match type of Hadd1 with _ = (_, ?st) => set (s1 := st) in * end.
  destruct (AddValidator_writes ValidatorID_Bytes s1 rotated) as (bz2 & Hbz2 & Hadd2).
  match type of Hadd2 with _ = (_, ?st) => set (s2 := st) in * end.
  exists s2, rotated.
  split.
  { unfold UpdateSigner, bind at 1. rewrite Hget. cbn beta iota zeta.
    fold retired. unfold bind at 1. rewrite Hadd1.
    fold rotated. unfold bind at 1. rewrite Hadd2. reflexivity. }
  split; [| repeat split].
  apply (GetValidatorInfo_stored _ _ bz2); [| apply unmarshal_marshal; exact Hbz2].
  unfold s2. rewrite lookup_insert_ne by (apply not_eq_sym, validator_key_not_map_key).
  simpl. apply lookup_insert_eq.
Qed.

(** Every key [UpdateSigner] writes is one of the four keys of the two
    signers and of the ID. *)
Lemma UpdateSigner_writes (s : KVStore) (newSigner : HeimdallAddress)
    (newPubkey : bytes) (prevSigner : HeimdallAddress) (validator : Validator) :
  GetValidatorInfo prevSigner s = (Returned (validator, ErrNil), s) ->
  exists bz1 bz2 : bytes,
    let retired := set_Power validator 0 in
    let rotated := set_Power (set_PubKey (set_Signer retired newSigner) newPubkey)
                     (Power validator) in
    MarshalBinaryBare retired = Some bz1
    /\ MarshalBinaryBare rotated = Some bz2
    /\ UpdateSigner ValidatorID_Bytes newSigner newPubkey prevSigner s
       = (Returned ErrNil,
          <[GetValidatorMapKey (ValidatorID_Bytes (ID validator)) := newSigner]>
            (<[GetValidatorKey newSigner := bz2]>
               (<[GetValidatorMapKey (ValidatorID_Bytes (ID validator)) := Signer validator]>
                  (<[GetValidatorKey (Signer validator) := bz1]> s)))).
Proof.
  intros Hget.
  set (retired := set_Power validator 0).
  set (rotated := set_Power (set_PubKey (set_Signer retired newSigner) newPubkey)
                    (Power validator)).
  destruct (AddValidator_writes ValidatorID_Bytes s retired) as (bz1 & Hbz1 & Hadd1).
  match type of Hadd1 with _ = (_, ?st) => set (s1 := st) in * end.
  destruct (AddValidator_writes ValidatorID_Bytes s1 rotated) as (bz2 & Hbz2 & Hadd2).
  exists bz1, bz2. cbv zeta. fold retired rotated.
  split; [exact Hbz1 |]. split; [exact Hbz2 |].
  unfold UpdateSigner, bind at 1. rewrite Hget. cbn beta iota zeta.
  fold retired. unfold bind at 1. rewrite Hadd1.
  fold rotated. unfold bind at 1. rewrite Hadd2. reflexivity.
Qed.

(** X13: after a rotation the ID leads to the rotated record, and the
    records of third signers are as before.  [GetValidatorFromValID] of the
    validator's ID returns the record stored under [newSigner], with the
    old power, and [GetValidatorInfo] of any address other than the two
    signers returns what it returned before. *)
Theorem UpdateSigner_ID_follows_and_others_stay (s : KVStore)
    (newSigner : HeimdallAddress) (newPubkey : bytes) (prevSigner : HeimdallAddress)
    (validator : Validator) (address : bytes) :
  GetValidatorInfo prevSigner s = (Returned (validator, ErrNil), s) ->
  Signer validator = prevSigner ->
  length newSigner = AddressLength ->
  let s' := snd (UpdateSigner ValidatorID_Bytes newSigner newPubkey prevSigner s) in
  (exists rotated : Validator,
     GetValidatorFromValID ValidatorID_Bytes (ID validator) s' = (Returned (rotated, true), s')
     /\ Signer rotated = newSigner
     /\ Power rotated = Power validator
     /\ GetLastUpdated ValidatorID_Bytes (ID validator) s'
        = (Returned (LastUpdated validator, true), s'))
  /\ (address <> prevSigner -> address <> newSigner ->
      fst (GetValidatorInfo address s') = fst (GetValidatorInfo address s)).
Proof.
  intros Hget Hsigner Hlen s'.
  pose proof (UpdateSigner_writes s newSigner newPubkey prevSigner validator Hget) as Hw.
  cbv zeta in Hw. destruct Hw as (bz1 & bz2 & Hbz1 & Hbz2 & Hrun).
  subst s'. rewrite Hrun. cbn [snd].
  match goal with |- context [GetValidatorFromValID _ _ ?st] => set (s' := st) end.
  set (rotated := set_Power (set_PubKey (set_Signer (set_Power validator 0) newSigner)
                               newPubkey) (Power validator)) in *.
  assert (Hnew : s' !! GetValidatorKey newSigner = Some bz2).
  { unfold s'. rewrite lookup_insert_ne by (apply not_eq_sym, validator_key_not_map_key).
    apply lookup_insert_eq. }
  assert (Hmap : s' !! GetValidatorMapKey (ValidatorID_Bytes (ID validator))
                 = Some newSigner).
  { unfold s'. apply lookup_insert_eq. }
  assert (Hinfo : GetValidatorInfo newSigner s' = (Returned (rotated, ErrNil), s')).
  { apply (GetValidatorInfo_stored _ _ bz2); [exact Hnew |].
    apply unmarshal_marshal. exact Hbz2. }
  assert (Hval : GetValidatorFromValID ValidatorID_Bytes (ID validator) s'
                 = (Returned (rotated, true), s')).
  { unfold GetValidatorFromValID, bind at 1.
    rewrite (GetSignerFromValidatorID_stored _ _ _ Hmap),
      (BytesToAddress_of_address _ Hlen).
    cbn beta iota delta [negb]. unfold bind. rewrite Hinfo. reflexivity. }
  split.
  - exists rotated. split; [exact Hval |]. split; [reflexivity |].
    split; [reflexivity |].
    unfold GetLastUpdated, bind. rewrite Hval. reflexivity.
  - intros Hne1 Hne2.
    assert (Hkey : s' !! GetValidatorKey address = s !! GetValidatorKey address).
    { unfold s'.
      rewrite lookup_insert_ne by (apply not_eq_sym, validator_key_not_map_key).
      rewrite lookup_insert_ne
        by (intros E; apply GetValidatorKey_inj in E; congruence).
      rewrite lookup_insert_ne by (apply not_eq_sym, validator_key_not_map_key).
      apply lookup_insert_ne. intros E. apply GetValidatorKey_inj in E. congruence. }
    rewrite !GetValidatorInfo_cases. cbn [fst]. rewrite Hkey. reflexivity.
Qed.

End ValidatorStore.

(** ** Iterating over the validators *)

Section ValidatorIterationFacts.
Import Staking.
Context `{!AminoCodec Validator} `{!AckRetriever}.
Variable undecoded : bytes -> Validator.
Variable IsCurrentValidator : Validator -> N -> bool.

Local Abbreviation value_of := (UnmarshallValidator_value undecoded).

Lemma bytes_leb_total (a b : bytes) : bytes_leb a b = true \/ bytes_leb b a = true.
Proof.
  revert b. induction a as [| x a IH]; intros [| y b]; simpl; auto.
  destruct (N.ltb_spec (Byte.to_N x) (Byte.to_N y)) as [Hlt | Hge]; [auto |].
  destruct (N.ltb_spec (Byte.to_N y) (Byte.to_N x)) as [Hlt' | Hge']; [auto |].
  assert (E : Byte.to_N x = Byte.to_N y) by lia.
  rewrite E, N.eqb_refl. apply IH.
Qed.

Lemma entry_le_total : Total entry_le.
Proof. intros e1 e2. unfold entry_le. apply bytes_leb_total. Qed.

Lemma has_prefix_app (prefix key : bytes) :
  has_prefix prefix key = true <-> exists rest, key = prefix ++ rest.
Proof.
  revert key. induction prefix as [| x prefix IH]; intros key; simpl.
  - split; [intros _; exists key; reflexivity | reflexivity].
  - destruct key as [| y key].
    + split; [discriminate | intros [rest E]; discriminate].
    + rewrite andb_true_iff, bool_decide_eq_true, IH. split.
      * intros [-> [rest ->]]. exists rest. reflexivity.
      * intros [rest [= -> ->]]. split; [reflexivity | exists rest; reflexivity].
Qed.

(** The iterator yields the entries of the store under the prefix, each
    once, in ascending order of their keys. *)
Lemma KVStorePrefixIterator_spec (s : KVStore) (prefix : bytes) :
  Sorted entry_le (KVStorePrefixIterator s prefix)
  /\ NoDup (KVStorePrefixIterator s prefix)
  /\ forall key bz,
       (key, bz) ∈ KVStorePrefixIterator s prefix
       <-> s !! key = Some bz /\ exists rest, key = prefix ++ rest.
Proof.
  unfold KVStorePrefixIterator.
  set (l := List.filter (fun e => has_prefix prefix (fst e)) (map_to_list s)).
  split; [apply (@Sorted_merge_sort _ entry_le _ entry_le_total) |].
  split.
  - rewrite merge_sort_Permutation. subst l.
    apply NoDup_ListNoDup, List.NoDup_filter, NoDup_ListNoDup, NoDup_map_to_list.
  - intros key bz. rewrite merge_sort_Permutation. subst l.
    rewrite list_elem_of_In, List.filter_In, <- list_elem_of_In, elem_of_map_to_list.
    simpl. rewrite has_prefix_app. reflexivity.
Qed.

Lemma iterate_loop_all (entries : list (bytes * bytes)) (acc : list Validator) :
  iterate_loop undecoded (fun validator validators => (validators ++ [validator], ErrNil))
    entries acc
  = acc ++ map (fun entry => value_of (snd entry)) entries.
Proof.
  revert acc. induction entries as [| entry rest IH]; intros acc; simpl.
  - rewrite app_nil_r. reflexivity.
  - rewrite IH, <- app_assoc. reflexivity.
Qed.

Lemma iterate_loop_filter (p : Validator -> bool) (entries : list (bytes * bytes))
    (acc : list Validator) :
  iterate_loop undecoded
    (fun validator validators =>
       if p validator then (validators ++ [validator], ErrNil) else (validators, ErrNil))
    entries acc
  = acc ++ List.filter p (map (fun entry => value_of (snd entry)) entries).
Proof.
  revert acc. induction entries as [| entry rest IH]; intros acc; simpl.
  - rewrite app_nil_r. reflexivity.
  - destruct (p (value_of (snd entry))); rewrite IH; [| reflexivity].
    rewrite <- app_assoc. reflexivity.
Qed.

Lemma GetAllValidators_entries (s : KVStore) :
  GetAllValidators undecoded s
  = (Returned (map (fun entry => value_of (snd entry))
                 (KVStorePrefixIterator s ValidatorsKey)), s).
Proof.
  unfold GetAllValidators, IterateValidatorsAndApplyFn, bind, get_state, ret.
  rewrite iterate_loop_all. reflexivity.
Qed.

(** X14: [GetCurrentValidators] returns the validators that
    [GetAllValidators] returns and that are current at the acknowledged
    count, in the same order; neither changes the store. *)
Theorem GetCurrentValidators_filters_all (s : KVStore) :
  exists validators : list Validator,
    GetAllValidators undecoded s = (Returned validators, s)
    /\ GetCurrentValidators undecoded IsCurrentValidator s
       = (Returned (List.filter (fun validator => IsCurrentValidator validator GetACKCount)
                      validators), s).
Proof.
  eexists. split; [apply GetAllValidators_entries |].
  unfold GetCurrentValidators, IterateValidatorsAndApplyFn, bind, get_state, ret.
  rewrite iterate_loop_filter. reflexivity.
Qed.

(** X15: [GetAllValidators] returns one validator for each key of the
    validator prefix, decoded from the blob under it, in ascending order of
    the keys, that is of the signer addresses; the entries of the ID index
    and the validator set blob are not among them. *)
Theorem GetAllValidators_lists_validator_keys (s : KVStore) :
  exists entries : list (bytes * bytes),
    GetAllValidators undecoded s
    = (Returned (map (fun entry => value_of (snd entry)) entries), s)
    /\ Sorted (fun e1 e2 => bytes_leb (fst e1) (fst e2) = true) entries
    /\ NoDup (map fst entries)
    /\ (forall key bz,
          (key, bz) ∈ entries
          <-> s !! key = Some bz /\ exists address, key = GetValidatorKey address)
    /\ (forall valID_bytes bz, (GetValidatorMapKey valID_bytes, bz) ∉ entries)
    /\ (forall bz, (CurrentValidatorSetKey, bz) ∉ entries).
Proof.
  exists (KVStorePrefixIterator s ValidatorsKey).
  destruct (KVStorePrefixIterator_spec s ValidatorsKey) as (Hsorted & Hnodup & Hin).
  split; [apply GetAllValidators_entries |].
  split; [exact Hsorted |].
  split.
  { apply NoDup_fmap_fst; [| exact Hnodup].
    intros key bz1 bz2 H1 H2. apply Hin in H1 as [H1 _]. apply Hin in H2 as [H2 _].
    congruence. }
  split; [exact Hin |].
  split.
  - intros valID_bytes bz Hel. apply Hin in Hel as [_ [rest E]]. discriminate.
  - intros bz Hel. apply Hin in Hel as [_ [rest E]]. discriminate.
Qed.

End ValidatorIterationFacts.

Section RotationLeavesTwoRecords.
Import Staking.
Context `{!AminoCodec Validator} `{!AminoCodecLaws Validator}.
Variable ValidatorID_Bytes : N -> bytes.
Variable undecoded : bytes -> Validator.

(** X16: a rotation leaves two records of one validator.  After
    [UpdateSigner] to a new signer, [GetAllValidators] lists both the
    retired record, with power 0 under the previous signer, and the rotated
    record under the new signer; they carry the same ID. *)
Theorem UpdateSigner_leaves_two_records (s : KVStore) (newSigner : HeimdallAddress)
    (newPubkey : bytes) (prevSigner : HeimdallAddress) (validator : Validator) :
  GetValidatorInfo prevSigner s = (Returned (validator, ErrNil), s) ->
  Signer validator = prevSigner ->
  newSigner <> prevSigner ->
  let s' := snd (UpdateSigner ValidatorID_Bytes newSigner newPubkey prevSigner s) in
  exists (validators : list Validator) (retired rotated : Validator),
    GetAllValidators undecoded s' = (Returned validators, s')
    /\ retired ∈ validators /\ rotated ∈ validators
    /\ Signer retired = prevSigner /\ Power retired = 0%N
    /\ Signer rotated = newSigner /\ Power rotated = Power validator
    /\ ID retired = ID validator /\ ID rotated = ID validator.
Proof.
  intros Hget Hsigner Hne s'.
  pose proof (UpdateSigner_writes ValidatorID_Bytes s newSigner newPubkey prevSigner
                validator Hget) as Hw.
  cbv zeta in Hw. destruct Hw as (bz1 & bz2 & Hbz1 & Hbz2 & Hrun).
  subst s'. rewrite Hrun. cbn [snd].
  match goal with |- context [GetAllValidators _ ?st] => set (s' := st) end.
  set (retired := set_Power validator 0) in *.
  set (rotated := set_Power (set_PubKey (set_Signer retired newSigner) newPubkey)
                    (Power validator)) in *.
  assert (Hold : s' !! GetValidatorKey prevSigner = Some bz1).
  { unfold s'. rewrite lookup_insert_ne by (apply not_eq_sym, validator_key_not_map_key).
    rewrite lookup_insert_ne by (intros E; apply GetValidatorKey_inj in E; auto).
    rewrite lookup_insert_ne by (apply not_eq_sym, validator_key_not_map_key).
    rewrite Hsigner. apply lookup_insert_eq. }
  assert (Hnew : s' !! GetValidatorKey newSigner = Some bz2).
  { unfold s'. rewrite lookup_insert_ne by (apply not_eq_sym, validator_key_not_map_key).
    apply lookup_insert_eq. }
  destruct (KVStorePrefixIterator_spec s' ValidatorsKey) as (_ & _ & Hin).
  eexists _, retired, rotated.
  split; [apply GetAllValidators_entries |].
  split.
  { apply list_elem_of_fmap. exists (GetValidatorKey prevSigner, bz1). split.
    - unfold UnmarshallValidator_value. simpl.
      rewrite (unmarshal_marshal _ _ Hbz1). reflexivity.
    - apply Hin. split; [exact Hold | exists prevSigner; reflexivity]. }
  split.
  { apply list_elem_of_fmap. exists (GetValidatorKey newSigner, bz2). split.
    - unfold UnmarshallValidator_value. simpl.
      rewrite (unmarshal_marshal _ _ Hbz2). reflexivity.
    - apply Hin. split; [exact Hnew | exists newSigner; reflexivity]. }
  repeat split. exact Hsigner.
Qed.

End RotationLeavesTwoRecords.

(** ** The current validator set *)

Section ValidatorSetFacts.
Import Staking.
Variable ValidatorSet : Type.
Context `{!AminoCodec ValidatorSet} `{!AminoCodecLaws ValidatorSet}.
Variable undecoded_set : bytes -> ValidatorSet.
Variable ValidatorSet_IncrementAccum : Z -> ValidatorSet -> ValidatorSet.
Variable ValidatorSet_CopyIncrementAccum : Z -> ValidatorSet -> ValidatorSet.
Variable ValidatorSet_GetProposer : ValidatorSet -> option Validator.



(** X18: the validator set blob and the validator records share the store
    without touching each other.  Writing the set leaves every validator
    record and every index entry as it is; [AddValidator] leaves the stored
    set as it is. *)
Theorem validator_set_and_records_separate `{!AminoCodec Validator}
    (ValidatorID_Bytes : N -> bytes) (s : KVStore) (validatorSet : ValidatorSet)
    (validator : Validator) (address valID_bytes : bytes) :
  let s1 := snd (UpdateValidatorSetInStore ValidatorSet validatorSet s) in
  let s2 := snd (AddValidator ValidatorID_Bytes validator s) in
  s1 !! GetValidatorKey address = s !! GetValidatorKey address
  /\ s1 !! GetValidatorMapKey valID_bytes = s !! GetValidatorMapKey valID_bytes
  /\ s2 !! CurrentValidatorSetKey = s !! CurrentValidatorSetKey
  /\ GetValidatorSet ValidatorSet undecoded_set s2
     = (fst (GetValidatorSet ValidatorSet undecoded_set s), s2).
Proof.
  intros s1 s2.
  assert (H1 : s1 = s \/ exists bz, s1 = <[CurrentValidatorSetKey := bz]> s).
  { subst s1. unfold UpdateValidatorSetInStore.
    destruct (MarshalBinaryBare validatorSet) as [bz |];
      [right; exists bz; reflexivity | left; reflexivity]. }
  assert (H2 : s2 !! CurrentValidatorSetKey = s !! CurrentValidatorSetKey).
  { subst s2. unfold AddValidator.
    destruct (MarshalBinaryBare validator) as [bz |]; [| reflexivity].
    cbn. rewrite !lookup_insert_ne by discriminate. reflexivity. }
  split; [| split; [| split; [exact H2 |]]].
  - destruct H1 as [-> | [bz ->]]; [reflexivity |].
    apply lookup_insert_ne. discriminate.
  - destruct H1 as [-> | [bz ->]]; [reflexivity |].
    apply lookup_insert_ne. discriminate.
  - unfold GetValidatorSet, bind, store_Get, ret. rewrite H2.
    destruct (UnmarshalBinaryBare (default [] (s !! CurrentValidatorSetKey))); reflexivity.
Qed.

End ValidatorSetFacts.

(** ** More on the cycles of the listener *)

Section ListenerCycles.
Import Listener.

Lemma ProcessHeader_query_decision (rl : RootChainListener) (env : Env)
    (newHeader : Header) (w : World) (q : FilterQuery) :
  In q (queries (emitted (ProcessHeader rl env newHeader) w)) ->
  exists (rootchainContext : RootChainListenerContext) (sigs : list Signature),
    range_decision env newHeader (storage w)
    = Some (rootchainContext, FromBlock q, ToBlock q)
    /\ storage (snd (ProcessHeader rl env newHeader w))
       = (if Put_fails env then storage w
          else <[lastRootBlockKey := big_String (ToBlock q)]> (storage w))
    /\ emitted (ProcessHeader rl env newHeader) w
       = EPut lastRootBlockKey (big_String (ToBlock q)) (negb (Put_fails env))
           :: EFilterLogs q :: map ESendTask sigs
    /\ q = {| FromBlock := FromBlock q; ToBlock := ToBlock q;
              Addresses :=
                [ RootChainAddress (ChainParams (ChainmanagerParams rootchainContext));
                  StakingInfoAddress (ChainParams (ChainmanagerParams rootchainContext));
                  StateSenderAddress (ChainParams (ChainmanagerParams rootchainContext)) ] |}.
Proof.
  intros Hq.
  destruct (ProcessHeader_queries rl env newHeader w q Hq) as (ctx & Hd & Hone).
  pose proof (ProcessHeader_cycle rl env newHeader w _ _ _ Hd) as Hcycle.
  cbv zeta in Hcycle. destruct Hcycle as (sigs & Hs & Ht & _).
  pose proof (emitted_of_trace _ _ _ Ht) as Hem.
  rewrite Hem, queries_cycle in Hone. injection Hone as Hquery.
  rewrite Hquery in Hem.
  exists ctx, sigs. split; [exact Hd |]. split; [exact Hs |]. split; [exact Hem |].
  rewrite <- Hquery. reflexivity.
Qed.

(** X19: successive scans leave no gap.  When a cycle queries a range and
    its write of the watermark succeeds, the next cycle that queries starts
    at the block after the upper end of that range. *)
Theorem consecutive_scans_are_contiguous (rl : RootChainListener) (env1 env2 : Env)
    (header1 header2 : Header) (w : World) (q1 q2 : FilterQuery) :
  In q1 (queries (emitted (ProcessHeader rl env1 header1) w)) ->
  Put_fails env1 = false ->
  Number header1 < 2 ^ 64 ->
  Has_fails env2 = false ->
  Number header2 < 2 ^ 64 ->
  In q2 (queries (emitted (ProcessHeader rl env2 header2)
                    (snd (ProcessHeader rl env1 header1 w)))) ->
  FromBlock q2 = ToBlock q1 + 1.
Proof.
  intros Hq1 Hput Hh1 Hhas Hh2 Hq2.
  destruct (ProcessHeader_query_decision rl env1 header1 w q1 Hq1)
    as (ctx1 & sigs1 & Hd1 & Hs1 & _ & _).
  destruct (range_decision_range _ _ _ _ _ _ Hd1) as (_ & Hgt1 & Hto1 & _).
  cbv zeta in Hgt1, Hto1.
  set (w1 := snd (ProcessHeader rl env1 header1 w)) in *.
  rewrite Hput in Hs1.
  assert (Hwm : storage w1 !! lastRootBlockKey ≫= ParseUint = Some (Z.to_N (ToBlock q1))).
  { rewrite Hs1, lookup_insert_eq. simpl. apply ParseUint_big_String. lia. }
  destruct (ProcessHeader_query_decision rl env2 header2 w1 q2 Hq2)
    as (ctx2 & sigs2 & Hd2 & _ & _ & _).
  destruct (range_decision_watermark _ _ _ _ _ _ _ Hhas Hwm Hh2 Hd2) as [_ Hfrom].
  rewrite Hfrom. lia.
Qed.

(** X20: a failing [Has] hides the watermark.  The cycle then queries the
    confirmed head alone and, when its write succeeds, overwrites whatever
    watermark was stored, a higher one included. *)
Theorem Has_failure_hides_watermark (rl : RootChainListener) (env : Env)
    (newHeader : Header) (w : World) (rootchainContext : RootChainListenerContext) :
  getRootChainContext env = Some rootchainContext ->
  Has_fails env = true ->
  Z.of_N (MainchainTxConfirmations (ChainmanagerParams rootchainContext)) < Number newHeader ->
  let confirmedHead :=
    Number newHeader
    - Z.of_N (MainchainTxConfirmations (ChainmanagerParams rootchainContext)) in
  exists q : FilterQuery,
    queries (emitted (ProcessHeader rl env newHeader) w) = [q]
    /\ FromBlock q = confirmedHead /\ ToBlock q = confirmedHead
    /\ (Put_fails env = false ->
        storage (snd (ProcessHeader rl env newHeader w)) !! lastRootBlockKey
        = Some (big_String confirmedHead)).
Proof.
  intros Hctx Hhas Hgt confirmedHead.
  assert (Hd : range_decision env newHeader (storage w)
               = Some (rootchainContext, confirmedHead, confirmedHead)).
  { unfold range_decision. rewrite Hctx, Hhas. cbv zeta.
    replace (Number newHeader <=? _) with false by (symmetry; apply Z.leb_gt; exact Hgt).
    reflexivity. }
  pose proof (ProcessHeader_cycle rl env newHeader w _ _ _ Hd) as Hcycle.
  cbv zeta in Hcycle. destruct Hcycle as (sigs & Hs & Ht & _).
  eexists. rewrite (emitted_of_trace _ _ _ Ht), queries_cycle.
  split; [reflexivity |]. split; [reflexivity |]. split; [reflexivity |].
  intros Hput. rewrite Hs, Hput. apply lookup_insert_eq.
Qed.

(** X21: reading the stored value.  When [Has] finds the key and [Get]
    fails, the cycle is given up and the world is as before.  When the
    stored value is not a decimal number that fits 64 bits, the cycle
    queries the confirmed head alone and, when its write succeeds, replaces
    the value. *)
Theorem stored_value_unreadable (rl : RootChainListener) (env : Env)
    (newHeader : Header) (w : World) (rootchainContext : RootChainListenerContext)
    (lastBlockBytes : string) :
  getRootChainContext env = Some rootchainContext ->
  Has_fails env = false ->
  storage w !! lastRootBlockKey = Some lastBlockBytes ->
  Z.of_N (MainchainTxConfirmations (ChainmanagerParams rootchainContext)) < Number newHeader ->
  let confirmedHead :=
    Number newHeader
    - Z.of_N (MainchainTxConfirmations (ChainmanagerParams rootchainContext)) in
  (Get_fails env = true -> snd (ProcessHeader rl env newHeader w) = w)
  /\ (Get_fails env = false -> ParseUint lastBlockBytes = None ->
      exists q : FilterQuery,
        queries (emitted (ProcessHeader rl env newHeader) w) = [q]
        /\ FromBlock q = confirmedHead /\ ToBlock q = confirmedHead
        /\ (Put_fails env = false ->
            storage (snd (ProcessHeader rl env newHeader w)) !! lastRootBlockKey
            = Some (big_String confirmedHead))).
Proof.
  intros Hctx Hhas Hst Hgt confirmedHead.
  assert (Hleb : (Number newHeader
                  <=? Z.of_N (MainchainTxConfirmations (ChainmanagerParams rootchainContext)))
                 = false) by (apply Z.leb_gt; exact Hgt).
  split.
  - intros Hget. apply ProcessHeader_skips.
    unfold range_decision. rewrite Hctx, Hhas, Hst, Hget. cbv zeta. rewrite Hleb.
    reflexivity.
  - intros Hget Hparse.
    assert (Hd : range_decision env newHeader (storage w)
                 = Some (rootchainContext, confirmedHead, confirmedHead)).
    { unfold range_decision. rewrite Hctx, Hhas, Hst, Hget, Hparse. cbv zeta.
      rewrite Hleb. reflexivity. }
    pose proof (ProcessHeader_cycle rl env newHeader w _ _ _ Hd) as Hcycle.
    cbv zeta in Hcycle. destruct Hcycle as (sigs & Hs & Ht & _).
    eexists. rewrite (emitted_of_trace _ _ _ Ht), queries_cycle.
    split; [reflexivity |]. split; [reflexivity |]. split; [reflexivity |].
    intros Hput. rewrite Hs, Hput. apply lookup_insert_eq.
Qed.

(** X22: a failing write of the watermark does not stop the scan, and the
    range is scanned again.  When a cycle queries a range and its write
    fails, the storage is as before, and a later cycle for the same head
    with the same answers queries the same range. *)
Theorem Put_failure_rescans (rl : RootChainListener) (env : Env)
    (newHeader : Header) (w : World) (q : FilterQuery) :
  In q (queries (emitted (ProcessHeader rl env newHeader) w)) ->
  Put_fails env = true ->
  let w' := snd (ProcessHeader rl env newHeader w) in
  storage w' = storage w
  /\ queries (emitted (ProcessHeader rl env newHeader) w') = [q].
Proof.
  intros Hq Hput w'.
  destruct (ProcessHeader_query_decision rl env newHeader w q Hq)
    as (ctx & sigs & Hd & Hs & _ & Hshape).
  fold w' in Hs. rewrite Hput in Hs. split; [exact Hs |].
  rewrite <- Hs in Hd.
  pose proof (ProcessHeader_cycle rl env newHeader w' _ _ _ Hd) as Hcycle.
  cbv zeta in Hcycle. destruct Hcycle as (sigs' & _ & Ht & _).
  rewrite (emitted_of_trace _ _ _ Ht), queries_cycle, <- Hshape. reflexivity.
Qed.

End ListenerCycles.

(** ** What a cycle sends, and how it ends *)

Section ListenerTasks.
Import Listener.

Lemma ProcessHeader_skips_full (rl : RootChainListener) (env : Env) (newHeader : Header)
    (w : World) :
  range_decision env newHeader (storage w) = None ->
  ProcessHeader rl env newHeader w = (Returned (header_after env newHeader), w).
Proof.
  unfold ProcessHeader, range_decision, header_after.
  destruct (getRootChainContext env) as [rootchainContext |]; [| reflexivity].
  cbv zeta. unfold big_SetUint64.
  destruct (Number newHeader <=? _); [reflexivity |].
  unfold bind at 1. unfold storage_Has, bind, get_state, ret. cbn beta iota.
  destruct (Has_fails env).
  - discriminate.
  - destruct (storage w !! lastRootBlockKey) as [lastBlockBytes |] eqn:E.
    + rewrite bool_decide_eq_true_2 by eauto.
      unfold storage_Get, bind, get_state, ret. cbn beta iota. rewrite E.
      destruct (Get_fails env); [reflexivity |].
      destruct (ParseUint lastBlockBytes) as [result |]; [| discriminate].
      cbn [Number].
      destruct (_ <=? result)%N; [reflexivity |].
      destruct (_ <? _)%N; discriminate.
    + discriminate.
Qed.

Lemma ProcessHeader_scans_full (rl : RootChainListener) (env : Env) (newHeader : Header)
    (w : World) (rootchainContext : RootChainListenerContext) (fromBlock toBlock : Z) :
  range_decision env newHeader (storage w) = Some (rootchainContext, fromBlock, toBlock) ->
  let query := query_of rootchainContext fromBlock toBlock in
  ProcessHeader rl env newHeader w
  = match FilterLogs env query with
    | None => (Returned (header_after env newHeader), before_logs env w query)
    | Some logs =>
        match log_loop rl env logs (before_logs env w query) with
        | (Returned _, w') => (Returned (header_after env newHeader), w')
        | (Panicked msg, w') => (Panicked msg, w')
        end
    end.
Proof.
  unfold ProcessHeader, range_decision, header_after.
  destruct (getRootChainContext env) as [ctx |]; [| discriminate].
  cbv zeta. unfold big_SetUint64.
  destruct (Z.leb_spec (Number newHeader)
              (Z.of_N (MainchainTxConfirmations (ChainmanagerParams ctx))))
    as [Hle | Hgt]; [discriminate |].
  cbn [Number].
  set (toB := Number newHeader - Z.of_N (MainchainTxConfirmations (ChainmanagerParams ctx))).
  assert (Hfinish : forall fromB,
    fromB <= toB ->
    (storage_Put env lastRootBlockKey (big_String toB) ;;;
       queryAndBroadcastEvents rl env ctx (if toB <? fromB then toB else fromB) toB ;;;
       ret {| Number := toB |})%exec w
    = match FilterLogs env (query_of ctx fromB toB) with
      | None => (Returned {| Number := toB |}, before_logs env w (query_of ctx fromB toB))
      | Some logs =>
          match log_loop rl env logs (before_logs env w (query_of ctx fromB toB)) with
          | (Returned _, w') => (Returned {| Number := toB |}, w')
          | (Panicked msg, w') => (Panicked msg, w')
          end
      end).
  { intros fromB Hfrom.
    replace (toB <? fromB) with false by (symmetry; apply Z.ltb_ge; exact Hfrom).
    unfold queryAndBroadcastEvents. fold (query_of ctx fromB toB).
    unfold bind at 1.
    assert (Hput : storage_Put env lastRootBlockKey (big_String toB) w
                   = (Returned (negb (Put_fails env)),
                      {| storage := if Put_fails env then storage w
                                    else <[lastRootBlockKey := big_String toB]> (storage w);
                         trace := trace w ++ [EPut lastRootBlockKey (big_String toB)
                                                (negb (Put_fails env))];
                         oracleCalls := oracleCalls w |})).
    { unfold storage_Put, bind, emit, modify_state, ret.
      destruct (Put_fails env); [destruct w |]; reflexivity. }
    rewrite Hput. cbn beta iota.
    unfold bind at 1. unfold bind at 1.
    unfold client_FilterLogs, bind, emit, modify_state, ret. cbn beta iota.
    cbn [storage trace oracleCalls].
    unfold before_logs. cbn [ToBlock query_of]. rewrite <- app_assoc. cbn [app].
    destruct (FilterLogs env (query_of ctx fromB toB)) as [logs |]; [| reflexivity].
    match goal with |- context [log_loop rl env logs ?w0] =>
      destruct (log_loop rl env logs w0) as [[[] | msg] w3] end; reflexivity. }
  assert (Hhas : forall key w0, storage_Has env key w0
            = (Returned (if Has_fails env then false
                         else bool_decide (is_Some (storage w0 !! key))), w0))
    by reflexivity.
  assert (Hget : forall key w0, storage_Get env key w0
            = (Returned (if Get_fails env then None else storage w0 !! key), w0))
    by reflexivity.
  unfold bind at 1. rewrite Hhas. cbn beta iota.
  destruct (Has_fails env).
  - intros [= <- <- <-]. unfold bind at 1. unfold ret at 1. cbn beta iota.
    apply Hfinish. lia.
  - destruct (storage w !! lastRootBlockKey) as [lastBlockBytes |] eqn:E.
    + rewrite bool_decide_eq_true_2 by eauto.
      unfold bind at 1. unfold bind at 1. rewrite Hget, E. cbn beta iota.
      destruct (Get_fails env); [discriminate |].
      destruct (ParseUint lastBlockBytes) as [result |].
      * destruct (_ <=? result)%N; [discriminate |].
        destruct (N.ltb_spec (uint64_add result 1) (big_Uint64 toB)) as [Hlt | Hge].
        -- intros [= <- <- <-]. unfold ret at 1. cbn beta iota. apply Hfinish.
           pose proof (big_Uint64_le toB ltac:(lia)). lia.
        -- intros [= <- <- <-]. unfold ret at 1. cbn beta iota. apply Hfinish. lia.
      * intros [= <- <- <-]. unfold ret at 1. cbn beta iota. apply Hfinish. lia.
    + rewrite bool_decide_eq_false_2 by (intros [x Hx]; discriminate).
      intros [= <- <- <-]. unfold bind at 1. unfold ret at 1. cbn beta iota.
      apply Hfinish. lia.
Qed.


Lemma send_if_current_shape (rl : RootChainListener) (env : Env) (taskName : string)
    (selectedEvent : Event) (vLog : Log) (w : World) :
  exists (w' : World) (sigs : list Signature),
    send_if_current rl env taskName selectedEvent vLog w = (Returned tt, w')
    /\ sent w w' sigs
    /\ Forall (fun sg =>
                 TaskName sg = taskName
                 /\ Args sg = [ {| ArgType := "string";
                                   Value := StringValue (Name selectedEvent) |};
                                {| ArgType := "string"; Value := JSONValue vLog |};
                                {| ArgType := "string";
                                   Value := StringValue (rootChainType rl) |} ]
                 /\ RetryCount sg = 3 /\ RetryTimeout sg = 3) sigs
    /\ ((forall n, fst (CalculateTaskDelay env n) = false) -> sigs = []).
Proof.
  unfold send_if_current, bind, util_CalculateTaskDelay, bind, get_state, modify_state, ret.
  destruct (CalculateTaskDelay env (oracleCalls w)) as [[|] delay] eqn:E.
  - eexists _, [_]. split; [reflexivity |]. split; [split; reflexivity |].
    split; [repeat constructor |].
    intros Hnever. specialize (Hnever (oracleCalls w)). rewrite E in Hnever. discriminate.
  - eexists _, []. split; [reflexivity |].
    split; [split; [reflexivity | simpl; rewrite app_nil_r; reflexivity] |].
    split; [constructor | reflexivity].
Qed.

Lemma switch_event_shape (rl : RootChainListener) (env : Env)
    (selectedEvent : Event) (vLog : Log) (w : World) :
  exists (w' : World) (sigs : list Signature),
    switch_event rl env selectedEvent vLog w = (Returned tt, w')
    /\ sent w w' sigs
    /\ Forall (fun sg =>
                 (Name selectedEvent, TaskName sg) ∈ dispatch_table
                 /\ Args sg = [ {| ArgType := "string";
                                   Value := StringValue (Name selectedEvent) |};
                                {| ArgType := "string"; Value := JSONValue vLog |};
                                {| ArgType := "string";
                                   Value := StringValue (rootChainType rl) |} ]
                 /\ RetryCount sg = 3 /\ RetryTimeout sg = 3) sigs
    /\ ((forall n, fst (CalculateTaskDelay env n) = false) -> sigs = []).
Proof.
  assert (Hcase : forall taskName,
    (Name selectedEvent, taskName) ∈ dispatch_table ->
    exists (w' : World) (sigs : list Signature),
      send_if_current rl env taskName selectedEvent vLog w = (Returned tt, w')
      /\ sent w w' sigs
      /\ Forall (fun sg =>
                   (Name selectedEvent, TaskName sg) ∈ dispatch_table
                   /\ Args sg = [ {| ArgType := "string";
                                     Value := StringValue (Name selectedEvent) |};
                                  {| ArgType := "string"; Value := JSONValue vLog |};
                                  {| ArgType := "string";
                                     Value := StringValue (rootChainType rl) |} ]
                   /\ RetryCount sg = 3 /\ RetryTimeout sg = 3) sigs
      /\ ((forall n, fst (CalculateTaskDelay env n) = false) -> sigs = [])).
  { intros taskName Hin.
    destruct (send_if_current_shape rl env taskName selectedEvent vLog w)
      as (w' & sigs & Hrun & Hsent & Hall & Hnever).
    exists w', sigs. split; [exact Hrun |]. split; [exact Hsent |]. split; [| exact Hnever].
    eapply Forall_impl; [exact Hall |].
    intros sg (-> & Hargs & Hretry). auto. }
  unfold switch_event, dispatch_table.
  destruct (String.eqb_spec (Name selectedEvent) "NewHeaderBlock") as [E | _].
  { apply Hcase. rewrite E. set_solver. }
  destruct (String.eqb_spec (Name selectedEvent) "StateSynced") as [E | _].
  { apply Hcase. rewrite E. set_solver. }
  destruct (String.eqb_spec (Name selectedEvent) "StakeAck") as [E | _].
  { apply Hcase. rewrite E. set_solver. }
  exists w, []. split; [reflexivity |]. split; [apply sent_refl |].
  split; [constructor | reflexivity].
Qed.

Lemma abi_loop_shape (rl : RootChainListener) (env : Env) (remaining : list ABI)
    (vLog : Log) (topic : bytes) (w : World) :
  Topics vLog !! 0%nat = Some topic ->
  exists (w' : World) (sigs : list Signature),
    abi_loop rl env remaining vLog topic w = (Returned tt, w')
    /\ sent w w' sigs
    /\ Forall (task_of_log rl remaining vLog) sigs
    /\ ((forall n, fst (CalculateTaskDelay env n) = false) -> sigs = [])
    /\ (matching_abis remaining topic = [] -> w' = w).
Proof.
  intros Htopic. revert w. induction remaining as [| abiObject rest IH]; intros w.
  - exists w, []. split; [reflexivity |]. split; [apply sent_refl |].
    split; [constructor |]. split; reflexivity.
  - cbn [abi_loop]. unfold matching_abis. cbn [List.filter].
    destruct (EventByID abiObject topic) as [selectedEvent |] eqn:E.
    + destruct (switch_event_shape rl env selectedEvent vLog w)
        as (w1 & sigs1 & Hrun1 & Hsent1 & Hall1 & Hnever1).
      destruct (IH w1) as (w2 & sigs2 & Hrun2 & Hsent2 & Hall2 & Hnever2 & _).
      exists w2, (sigs1 ++ sigs2). unfold bind at 1. rewrite Hrun1.
      split; [exact Hrun2 |]. split; [eapply sent_trans; eauto |].
      split; [| split].
      * apply Forall_app. split.
        -- eapply Forall_impl; [exact Hall1 |].
           intros sg (Hin & Hargs & Hc & Ht).
           exists abiObject, selectedEvent, topic, (TaskName sg).
           repeat split; try assumption. left.
        -- eapply Forall_impl; [exact Hall2 |].
           intros sg (a & ev & tp & tn & Hin & Hrest).
           exists a, ev, tp, tn. split; [right; exact Hin | exact Hrest].
      * intros Hnever. rewrite (Hnever1 Hnever), (Hnever2 Hnever). reflexivity.
      * rewrite bool_decide_eq_true_2 by eauto. discriminate.
    + destruct (IH w) as (w2 & sigs2 & Hrun2 & Hsent2 & Hall2 & Hnever2 & Hnone2).
      exists w2, sigs2. unfold bind at 1, ret.
      split; [exact Hrun2 |]. split; [exact Hsent2 |].
      split; [| split; [exact Hnever2 |]].
      * eapply Forall_impl; [exact Hall2 |].
        intros sg (a & ev & tp & tn & Hin & Hrest).
        exists a, ev, tp, tn. split; [right; exact Hin | exact Hrest].
      * rewrite bool_decide_eq_false_2 by (intros [x Hx]; discriminate).
        exact Hnone2.
Qed.

Lemma log_loop_shape (rl : RootChainListener) (env : Env) (logs : list Log) (w : World) :
  exists sigs : list Signature,
    sent w (snd (log_loop rl env logs w)) sigs
    /\ Forall (fun sg => exists vLog, vLog ∈ logs /\ task_of_log rl (abis rl) vLog sg) sigs
    /\ ((forall n, fst (CalculateTaskDelay env n) = false) -> sigs = []).
Proof.
  revert w. induction logs as [| vLog rest IH]; intros w.
  - exists []. split; [apply sent_refl |]. split; [constructor | reflexivity].
  - cbn [log_loop]. destruct (Topics vLog !! 0%nat) as [topic |] eqn:Htopic.
    + destruct (abi_loop_shape rl env (abis rl) vLog topic w Htopic)
        as (w1 & sigs1 & Hrun1 & Hsent1 & Hall1 & Hnever1 & _).
      destruct (IH w1) as (sigs2 & Hsent2 & Hall2 & Hnever2).
      exists (sigs1 ++ sigs2). unfold bind at 1. rewrite Hrun1.
      split; [eapply sent_trans; eauto |]. split.
      * apply Forall_app. split.
        -- eapply Forall_impl; [exact Hall1 |]. intros sg Hsg.
           exists vLog. split; [left | exact Hsg].
        -- eapply Forall_impl; [exact Hall2 |]. intros sg (l & Hin & Hsg).
           exists l. split; [right; exact Hin | exact Hsg].
      * intros Hnever. rewrite (Hnever1 Hnever), (Hnever2 Hnever). reflexivity.
    + exists []. split; [apply sent_refl |]. split; [constructor | reflexivity].
Qed.

Lemma log_loop_unrecognized (rl : RootChainListener) (env : Env) (logs : list Log)
    (w : World) :
  Forall (fun vLog => exists topic, Topics vLog !! 0%nat = Some topic
                                    /\ matching_abis (abis rl) topic = []) logs ->
  log_loop rl env logs w = (Returned tt, w).
Proof.
  intros Hall. induction Hall as [| vLog rest (topic & Htopic & Hnone) _ IH].
  - reflexivity.
  - cbn [log_loop]. rewrite Htopic.
    destruct (abi_loop_shape rl env (abis rl) vLog topic w Htopic)
      as (w1 & sigs1 & Hrun1 & _ & _ & _ & Hsame).
    unfold bind at 1. rewrite Hrun1, (Hsame Hnone). exact IH.
Qed.

Lemma log_loop_outcome (rl : RootChainListener) (env : Env) (logs : list Log) (w : World) :
  (Forall (fun vLog => Topics vLog <> []) logs ->
   fst (log_loop rl env logs w) = Returned tt)
  /\ (Exists (fun vLog => Topics vLog = []) logs ->
      fst (log_loop rl env logs w) = Panicked "index out of range [0] with length 0").
Proof.
  revert w. induction logs as [| vLog rest IH]; intros w.
  - split; [reflexivity | intros H; inversion H].
  - cbn [log_loop]. destruct (Topics vLog) as [| topic more] eqn:Htopics.
    + split; [intros H; apply Forall_cons in H as [H _]; congruence | reflexivity].
    + cbn [lookup list_lookup].
      assert (Htopic : Topics vLog !! 0%nat = Some topic) by (rewrite Htopics; reflexivity).
      destruct (abi_loop_shape rl env (abis rl) vLog topic w Htopic)
        as (w1 & sigs1 & Hrun1 & _).
      assert (Hstep : (abi_loop rl env (abis rl) vLog topic ;;; log_loop rl env rest)%exec w
                      = log_loop rl env rest w1)
        by (unfold bind; rewrite Hrun1; reflexivity).
      rewrite Hstep.
      destruct (IH w1) as [IH1 IH2]. split.
      * intros H. apply Forall_cons in H as [_ H]. auto.
      * intros H. apply Exists_cons in H as [Hhd | Htl]; [congruence | auto].
Qed.

(** A cycle that reaches the query, in full: what it adds to the trace,
    what the tasks are, and what it leaves in the storage. *)
Lemma ProcessHeader_emitted (rl : RootChainListener) (env : Env) (newHeader : Header)
    (w : World) (rootchainContext : RootChainListenerContext) (fromBlock toBlock : Z) :
  range_decision env newHeader (storage w) = Some (rootchainContext, fromBlock, toBlock) ->
  let query := query_of rootchainContext fromBlock toBlock in
  let w' := snd (ProcessHeader rl env newHeader w) in
  exists sigs : list Signature,
    emitted (ProcessHeader rl env newHeader) w
    = EPut lastRootBlockKey (big_String toBlock) (negb (Put_fails env))
        :: EFilterLogs query :: map ESendTask sigs
    /\ storage w' = (if Put_fails env then storage w
                     else <[lastRootBlockKey := big_String toBlock]> (storage w))
    /\ Forall (fun sg => exists logs vLog,
                 FilterLogs env query = Some logs /\ vLog ∈ logs
                 /\ task_of_log rl (abis rl) vLog sg) sigs
    /\ ((forall n, fst (CalculateTaskDelay env n) = false) -> sigs = []).
Proof.
  intros Hd query w'. subst w'.
  pose proof (ProcessHeader_scans_full rl env newHeader w _ _ _ Hd) as Hrun.
  cbv zeta in Hrun. fold query in Hrun.
  assert (Hsnd : snd (ProcessHeader rl env newHeader w)
                 = match FilterLogs env query with
                   | None => before_logs env w query
                   | Some logs => snd (log_loop rl env logs (before_logs env w query))
                   end).
  { rewrite Hrun. destruct (FilterLogs env query) as [logs |]; [| reflexivity].
    destruct (log_loop rl env logs (before_logs env w query)) as [[[] | msg] w3];
      reflexivity. }
  destruct (FilterLogs env query) as [logs |] eqn:Hf.
  - destruct (log_loop_shape rl env logs (before_logs env w query))
      as (sigs & [Hs Ht] & Hall & Hnever).
    exists sigs.
    split; [apply emitted_of_trace; rewrite Hsnd, Ht; unfold before_logs;
            cbn [trace]; rewrite <- app_assoc; reflexivity |].
    split; [rewrite Hsnd, Hs; reflexivity |].
    split; [| exact Hnever].
    eapply Forall_impl; [exact Hall |]. intros sg (vLog & Hin & Hsg).
    exists logs, vLog. auto.
  - exists []. split; [apply emitted_of_trace; rewrite Hsnd; reflexivity |].
    split; [rewrite Hsnd; reflexivity |]. split; [constructor | reflexivity].
Qed.

(** X23: every task a cycle sends is built from a fetched log.  For each
    task sent there is a log returned by the query of the cycle and an ABI
    of the listener holding the first topic of that log, such that the
    event found is [NewHeaderBlock], [StateSynced] or [StakeAck], the task
    name is the one paired with it, the arguments are the event name, the
    log and the chain type, and the retry count and timeout are 3. *)
Theorem tasks_are_built_from_fetched_logs (rl : RootChainListener) (env : Env)
    (newHeader : Header) (w : World) (sg : Signature) :
  In sg (tasks (emitted (ProcessHeader rl env newHeader) w)) ->
  exists (q : FilterQuery) (logs : list Log) (vLog : Log),
    queries (emitted (ProcessHeader rl env newHeader) w) = [q]
    /\ FilterLogs env q = Some logs
    /\ vLog ∈ logs
    /\ task_of_log rl (abis rl) vLog sg.
Proof.
  intros Hsg.
  destruct (range_decision env newHeader (storage w)) as [[[ctx fromBlock] toBlock] |] eqn:Hd.
  - pose proof (ProcessHeader_emitted rl env newHeader w _ _ _ Hd) as Hem.
    cbv zeta in Hem. destruct Hem as (sigs & Hem & _ & Hall & _).
    rewrite Hem in Hsg |- *. rewrite queries_cycle.
    change (In sg (tasks (map ESendTask sigs))) in Hsg. rewrite tasks_tasks in Hsg.
    rewrite Forall_forall in Hall. apply list_elem_of_In in Hsg.
    destruct (Hall sg Hsg) as (logs & vLog & Hlogs & Hin & Htask).
    eexists _, logs, vLog. split; [reflexivity |]. auto.
  - exfalso. unfold emitted in Hsg.
    rewrite (ProcessHeader_skips rl env newHeader w Hd), drop_all in Hsg. exact Hsg.
Qed.

(** X24: a node that the rank oracle never reports as a current validator
    sends no task, whatever the logs are; its cycles still write the
    watermark. *)
Theorem non_validator_sends_nothing (rl : RootChainListener) (env : Env)
    (newHeader : Header) (w : World) :
  (forall n, fst (CalculateTaskDelay env n) = false) ->
  tasks (emitted (ProcessHeader rl env newHeader) w) = []
  /\ (forall q, In q (queries (emitted (ProcessHeader rl env newHeader) w)) ->
      Put_fails env = false ->
      storage (snd (ProcessHeader rl env newHeader w)) !! lastRootBlockKey
      = Some (big_String (ToBlock q))).
Proof.
  intros Hnever.
  destruct (range_decision env newHeader (storage w)) as [[[ctx fromBlock] toBlock] |] eqn:Hd.
  - pose proof (ProcessHeader_emitted rl env newHeader w _ _ _ Hd) as Hem.
    cbv zeta in Hem. destruct Hem as (sigs & Hem & Hs & _ & Hnone).
    rewrite (Hnone Hnever) in Hem. rewrite Hem. split; [reflexivity |].
    intros q [<- | []] Hput. rewrite Hs, Hput. apply lookup_insert_eq.
  - unfold emitted. rewrite (ProcessHeader_skips rl env newHeader w Hd), drop_all.
    split; [reflexivity | intros q []].
Qed.

(** X25: logs that no ABI recognises are passed over.  When every log the
    query can return has a first topic that no ABI of the listener holds,
    the cycle returns, sends no task and does not ask the rank oracle. *)
Theorem unrecognized_logs_are_ignored (rl : RootChainListener) (env : Env)
    (newHeader : Header) (w : World) :
  (forall q logs, FilterLogs env q = Some logs ->
     Forall (fun vLog => exists topic, Topics vLog !! 0%nat = Some topic
                                       /\ matching_abis (abis rl) topic = []) logs) ->
  (exists header', fst (ProcessHeader rl env newHeader w) = Returned header')
  /\ tasks (emitted (ProcessHeader rl env newHeader) w) = []
  /\ oracleCalls (snd (ProcessHeader rl env newHeader w)) = oracleCalls w.
Proof.
  intros Hlogs.
  destruct (range_decision env newHeader (storage w)) as [[[ctx fromBlock] toBlock] |] eqn:Hd.
  - pose proof (ProcessHeader_scans_full rl env newHeader w _ _ _ Hd) as Hrun.
    cbv zeta in Hrun. unfold emitted. rewrite Hrun.
    destruct (FilterLogs env (query_of ctx fromBlock toBlock)) as [logs |] eqn:Hf.
    + rewrite (log_loop_unrecognized rl env logs _ (Hlogs _ _ Hf)).
      split; [eexists; reflexivity |]. cbn [snd before_logs trace oracleCalls].
      rewrite drop_app_length. split; reflexivity.
    + split; [eexists; reflexivity |]. cbn [snd before_logs trace oracleCalls].
      rewrite drop_app_length. split; reflexivity.
  - unfold emitted. rewrite (ProcessHeader_skips_full rl env newHeader w Hd).
    cbn [fst snd]. rewrite drop_all.
    split; [eexists; reflexivity |]. split; reflexivity.
Qed.

(** X26: a fetched log without topics ends the cycle in a panic, after the
    watermark was written.  When the query of a cycle returns logs, the
    cycle panics on the index of the first topic if one of the logs has no
    topic, and returns if all have one; in both cases a successful write
    has left the upper end of the range in the storage. *)
Theorem log_without_topics_panics (rl : RootChainListener) (env : Env)
    (newHeader : Header) (w : World) (q : FilterQuery) (logs : list Log) :
  In q (queries (emitted (ProcessHeader rl env newHeader) w)) ->
  FilterLogs env q = Some logs ->
  (Exists (fun vLog => Topics vLog = []) logs ->
   fst (ProcessHeader rl env newHeader w)
   = Panicked "index out of range [0] with length 0")
  /\ (Forall (fun vLog => Topics vLog <> []) logs ->
      exists header', fst (ProcessHeader rl env newHeader w) = Returned header')
  /\ (Put_fails env = false ->
      storage (snd (ProcessHeader rl env newHeader w)) !! lastRootBlockKey
      = Some (big_String (ToBlock q))).
Proof.
  intros Hq Hf.
  destruct (ProcessHeader_query_decision rl env newHeader w q Hq)
    as (ctx & sigs & Hd & Hs & _ & Hshape).
  pose proof (ProcessHeader_scans_full rl env newHeader w _ _ _ Hd) as Hrun.
  cbv zeta in Hrun. unfold query_of in Hrun. rewrite <- Hshape, Hf in Hrun.
  destruct (log_loop_outcome rl env logs (before_logs env w q)) as [Hret Hpanic].
  split; [| split].
  - intros Hex. rewrite Hrun. specialize (Hpanic Hex).
    destruct (log_loop rl env logs (before_logs env w q)) as [[[] | msg] w3];
      cbn [fst] in *; congruence.
  - intros Hall. rewrite Hrun. specialize (Hret Hall).
    destruct (log_loop rl env logs (before_logs env w q)) as [[[] | msg] w3];
      cbn [fst] in *; [eexists; reflexivity | discriminate].
  - intros Hput. rewrite Hs, Hput. apply lookup_insert_eq.
Qed.

(** X27: [ProcessHeader] changes the header it is given.  Whenever the
    head is deeper than the required confirmations, the header the call
    leaves behind carries the confirmed head, the number minus the
    confirmations, whether the cycle queried or returned before; a head
    that is not deeper is left as it is. *)
Theorem ProcessHeader_changes_header (rl : RootChainListener) (env : Env)
    (newHeader header' : Header) (w : World)
    (rootchainContext : RootChainListenerContext) :
  getRootChainContext env = Some rootchainContext ->
  fst (ProcessHeader rl env newHeader w) = Returned header' ->
  let c := Z.of_N (MainchainTxConfirmations (ChainmanagerParams rootchainContext)) in
  (c < Number newHeader -> Number header' = Number newHeader - c)
  /\ (Number newHeader <= c -> header' = newHeader).
Proof.
  intros Hctx Hret c.
  assert (Hafter : header' = header_after env newHeader).
  { destruct (range_decision env newHeader (storage w))
      as [[[ctx fromBlock] toBlock] |] eqn:Hd.
    - pose proof (ProcessHeader_scans_full rl env newHeader w _ _ _ Hd) as Hrun.
      cbv zeta in Hrun. rewrite Hrun in Hret.
      destruct (FilterLogs env (query_of ctx fromBlock toBlock)) as [logs |].
      + destruct (log_loop rl env logs _) as [[[] | msg] w3]; cbn [fst] in Hret; congruence.
      + cbn [fst] in Hret. congruence.
    - rewrite (ProcessHeader_skips_full rl env newHeader w Hd) in Hret.
      cbn [fst] in Hret. congruence. }
  subst header'. unfold header_after. rewrite Hctx. cbv zeta. fold c.
  destruct (Z.leb_spec (Number newHeader) c) as [Hle | Hgt].
  - split; [lia | reflexivity].
  - split; [reflexivity | lia].
Qed.

End ListenerTasks.

(** ** The Tron client *)

Section TronFacts.
Import Tron.
Context `{!WalletClient} `{!RootchainABI}.
Variable FromHex : string -> bytes.
Variable code_text : Z -> string.

Lemma TriggerConstantContract_answers (contractAddress : string) (data out : bytes) :
  answers FromHex contractAddress data out ->
  TriggerConstantContract FromHex code_text contractAddress data = Returned (out, ErrNil).
Proof.
  intros (response & result & Hcall & Hresult & Hcode & Hfirst).
  unfold TriggerConstantContract. rewrite Hcall, Hresult, Hcode, Hfirst. reflexivity.
Qed.

(** X28: a constant call yields data only for a success code.  When
    [TriggerConstantContract] returns without error, the remote call
    answered, its result code is the success code and the data returned is
    the first constant result; when it returns an error it returns no data,
    and the error is that of the remote call or the one built from a code
    other than success; it panics exactly when the answer carries no result
    or carries the success code with no constant result. *)
Theorem TriggerConstantContract_outcomes (contractAddress : string) (data : bytes) :
  let request :=
    {| OwnerAddress := []; ContractAddress := FromHex contractAddress;
       CallValue := 0; Data := data; CallTokenValue := 0; TokenId := 0 |} in
  let call := TriggerConstantContract FromHex code_text contractAddress data in
  (forall out, call = Returned (out, ErrNil) <->
     exists response result,
       client_TriggerConstantContract request = inl response
       /\ Result response = Some result
       /\ Code result = Return_SUCCESS
       /\ ConstantResult response !! 0%nat = Some out)
  /\ (forall out msg, call = Returned (out, Err msg) ->
        out = []
        /\ (client_TriggerConstantContract request = inr msg
            \/ exists response result,
                 client_TriggerConstantContract request = inl response
                 /\ Result response = Some result
                 /\ Code result <> Return_SUCCESS
                 /\ Err msg = code_error code_text result))
  /\ ((exists msg, call = Panicked msg) <->
      exists response,
        client_TriggerConstantContract request = inl response
        /\ (Result response = None
            \/ exists result, Result response = Some result
                              /\ Code result = Return_SUCCESS
                              /\ ConstantResult response = [])).
Proof.
  intros request call. subst call. unfold TriggerConstantContract. fold request.
  destruct (client_TriggerConstantContract request) as [response | err] eqn:Hcall.
  2: { split; [| split].
       - intros out. split; [discriminate |]. intros (r & res & ? & _). discriminate.
       - intros out msg [= <- <-]. auto.
       - split; [intros [msg ?]; discriminate |]. intros (r & ? & _). discriminate. }
  destruct (Result response) as [result |] eqn:Hresult.
  2: { split; [| split].
       - intros out. split; [discriminate |].
         intros (r & res & [= <-] & Hr & _). congruence.
       - intros out msg. discriminate.
       - split; [| intros _; eexists; reflexivity].
         intros _. exists response. auto. }
  destruct (Z.eqb_spec (Code result) Return_SUCCESS) as [Hcode | Hcode]; cbn [negb].
  2: { split; [| split].
       - intros out. split; [discriminate |].
         intros (r & res & [= <-] & Hr & Hc & _). congruence.
       - intros out msg [= <- Hmsg]. split; [reflexivity |]. right.
         exists response, result. unfold code_error. rewrite Hmsg. auto.
       - split; [intros [msg ?]; discriminate |].
         intros (r & [= <-] & [Hr | (res & Hr & Hc & _)]); congruence. }
  destruct (ConstantResult response) as [| first rest] eqn:Hres; cbn [lookup list_lookup].
  - split; [| split].
    + intros out. split; [discriminate |].
      intros (r & res & [= <-] & _ & _ & Hnone). rewrite Hres in Hnone. discriminate.
    + intros out msg. discriminate.
    + split; [| intros _; eexists; reflexivity].
      intros _. exists response. split; [reflexivity |]. right. exists result. auto.
  - split; [| split].
    + intros out. split.
      * intros [= <-]. exists response, result. rewrite Hres. auto.
      * intros (r & res & [= <-] & _ & _ & Hfirst).
        rewrite Hres in Hfirst. injection Hfirst as <-. reflexivity.
    + intros out msg. discriminate.
    + split; [intros [msg ?]; discriminate |].
      intros (r & [= <-] & [Hr | (res & _ & _ & Hr)]); congruence.
Qed.

(** X29: which decoding failures the readers of the root chain contract
    report.  Once the remote wallet has answered the call,
    [CurrentHeaderBlock] and [GetLastChildBlock] return a nil error
    whatever [Unpack] says: a decoding error gives 0 with a nil error.
    When decoding succeeds they return the low 64 bits of the number,
    [CurrentHeaderBlock] divided by the interval, and it panics for a zero
    interval.  [GetHeaderInfo] returns the decoding error, with zero
    values. *)
Theorem readers_and_decoding_errors (contractAddress : string)
    (childBlockInterval number : N) (pack1 pack2 pack3 data1 data2 data3 : bytes) :
  Pack "currentHeaderBlock" [] = inl pack1 ->
  answers FromHex contractAddress pack1 data1 ->
  Pack "getLastChildBlock" [] = inl pack2 ->
  answers FromHex contractAddress pack2 data2 ->
  Pack "headerBlocks"
    [Listener.big_SetUint64 number * Listener.big_SetUint64 childBlockInterval]
  = inl pack3 ->
  answers FromHex contractAddress pack3 data3 ->
  CurrentHeaderBlock FromHex code_text contractAddress childBlockInterval
  = match Unpack_number "currentHeaderBlock" data1 with
    | inr _ => Returned (0%N, ErrNil)
    | inl ret0 =>
        if (childBlockInterval =? 0)%N then Panicked "integer divide by zero"
        else Returned ((Listener.big_Uint64 ret0 / childBlockInterval)%N, ErrNil)
    end
  /\ GetLastChildBlock FromHex code_text contractAddress
     = match Unpack_number "getLastChildBlock" data2 with
       | inr _ => Returned (0%N, ErrNil)
       | inl ret0 => Returned (Listener.big_Uint64 ret0, ErrNil)
       end
  /\ GetHeaderInfo FromHex code_text number contractAddress childBlockInterval
     = match Unpack_headerBlock "headerBlocks" data3 with
       | inr err =>
           Returned (repeat Byte.x00 32, 0%N, 0%N, 0%N, repeat Byte.x00 20, Err err)
       | inl ret =>
           Returned (Root ret, Listener.big_Uint64 (Start ret),
                     Listener.big_Uint64 (End_ ret),
                     Listener.big_Uint64 (CreatedAt ret), Proposer ret, ErrNil)
       end.
Proof.
  intros Hp1 Ha1 Hp2 Ha2 Hp3 Ha3.
  unfold CurrentHeaderBlock, GetLastChildBlock, GetHeaderInfo.
  rewrite Hp1, Hp2, Hp3.
  rewrite (TriggerConstantContract_answers _ _ _ Ha1),
    (TriggerConstantContract_answers _ _ _ Ha2),
    (TriggerConstantContract_answers _ _ _ Ha3).
  repeat split.
Qed.

(** X30: the other calls succeed only on what the remote wallet sent.
    [TriggerContract] returns a nil error only when the remote call
    answered with the success code, and then returns the transaction of the
    answer; [BroadcastTransaction] returns a nil error only for the success
    code, with the message of the answer in hexadecimal; [GetNowBlock]
    returns a nil error only with the number found in the raw data of the
    block header. *)
Theorem remote_calls_succeed_on_success_only (hex_EncodeToString : bytes -> string)
    (ownerAddress contractAddress : string) (data : bytes) (trx : Transaction) :
  (forall transaction,
     TriggerContract FromHex code_text ownerAddress contractAddress data
     = Returned (transaction, ErrNil) ->
     exists response result,
       client_TriggerContract
         {| OwnerAddress := FromHex ("41" ++ ownerAddress);
            ContractAddress := FromHex contractAddress;
            CallValue := 0; Data := data; CallTokenValue := 0; TokenId := 0 |}
       = inl response
       /\ Result response = Some result
       /\ Code result = Return_SUCCESS
       /\ transaction = TransactionOf response)
  /\ (forall text,
        BroadcastTransaction hex_EncodeToString code_text trx = Returned (text, ErrNil) ->
        exists result,
          client_BroadcastTransaction trx = inl result
          /\ Code result = Return_SUCCESS
          /\ text = hex_EncodeToString (Message result))
  /\ (forall number,
        GetNowBlock = Returned (number, ErrNil) ->
        exists block header raw,
          client_GetNowBlock2 = inl block
          /\ BlockHeaderOf block = Some header
          /\ BlockHeader_RawData header = Some raw
          /\ Number raw = number).
Proof.
  split; [| split].
  - intros transaction. unfold TriggerContract.
    destruct (client_TriggerContract _) as [response | err]; [| discriminate].
    destruct (Result response) as [result |] eqn:Hresult; [| discriminate].
    destruct (Z.eqb_spec (Code result) Return_SUCCESS) as [Hcode | Hcode]; cbn [negb];
      [| discriminate].
    intros [= <-]. exists response, result. auto.
  - intros text. unfold BroadcastTransaction.
    destruct (client_BroadcastTransaction trx) as [result | err]; [| discriminate].
    destruct (Z.eqb_spec (Code result) Return_SUCCESS) as [Hcode | Hcode]; cbn [negb];
      [| discriminate].
    intros [= <-]. exists result. auto.
  - intros number. unfold GetNowBlock.
    destruct client_GetNowBlock2 as [block | err]; [| discriminate].
    destruct (BlockHeaderOf block) as [header |] eqn:Hheader; [| discriminate].
    destruct (BlockHeader_RawData header) as [raw |] eqn:Hraw; [| discriminate].
    intros [= <-]. exists block, header, raw. auto.
Qed.

End TronFacts.


(** ** The further properties on the sample data *)


(** X2: adding [B] and [C] to the queue [[A]]. *)
Lemma enqueue_all_appends_in_order_witness :
  let s := Sample.store_with [Sample.recA] in
  let s' := snd (@Staking.enqueue_all Sample.queue_codec Sample.queueKey Sample.rootID
                   [Sample.recB; Sample.recC] s) in
  @Staking.persisted_list Sample.queue_codec Sample.queueKey s' Sample.rootID
  = Some [Sample.recA; Sample.recB; Sample.recC]
  /\ fst (@Staking.GetNextStakingRecordFromQueue Sample.queue_codec Sample.queueKey
            Sample.rootID s')
     = Returned (Some Sample.recA, ErrNil).
Proof.
  destruct (@enqueue_all_appends_in_order Sample.queue_codec (bit_codec_laws _)
              Sample.queueKey (Sample.store_with [Sample.recA]) Sample.rootID
              [Sample.recA] [Sample.recB; Sample.recC] ltac:(vm_compute; reflexivity))
    as (_ & Hlist & Hhead).
  split; [exact Hlist |]. apply Hhead; [reflexivity | discriminate].
Defined.

(** X3: adding to the queue of root 1 leaves the queue of root 2. *)
Lemma queues_of_other_roots_untouched_witness :
  let s := Sample.store_with [Sample.recA] in
  let s1 := snd (@Staking.AddStakingRecordToQueue Sample.queue_codec Sample.queueKey
                   Sample.rootID Sample.recB s) in
  s1 !! Staking.getStakingQueueKey Sample.queueKey SampleMore.otherRoot
  = s !! Staking.getStakingQueueKey Sample.queueKey SampleMore.otherRoot.
Proof.
  destruct (@queues_of_other_roots_untouched Sample.queue_codec Sample.queueKey
              (Sample.store_with [Sample.recA]) Sample.rootID SampleMore.otherRoot
              Sample.recB 1 7 ltac:(discriminate)) as (H1 & _).
  exact H1.
Defined.

(** X4 on a store whose blob is the single byte 2. *)
Lemma undecodable_queue_blocks_witness :
  @Staking.AddStakingRecordToQueue Sample.queue_codec Sample.queueKey Sample.rootID
    Sample.recA SampleMore.corrupt_store = (Returned tt, SampleMore.corrupt_store)
  /\ @Staking.GetNextStakingRecordFromQueue Sample.queue_codec Sample.queueKey
       Sample.rootID SampleMore.corrupt_store
     = (Returned (None, amino_error), SampleMore.corrupt_store).
Proof.
  destruct (@undecodable_queue_blocks Sample.queue_codec Sample.queueKey
              SampleMore.corrupt_store Sample.rootID [Byte.x02] Sample.recA 1 7
              ltac:(vm_compute; reflexivity) ltac:(vm_compute; reflexivity))
    as (Hadd & _ & _ & Hnext).
  split; [exact Hadd | exact Hnext].
Defined.


(** X6: nothing in the queue [[A; C]] has validator ID 2 and nonce 3. *)
Lemma remove_without_match_is_noop_witness :
  let s := Sample.store_with [Sample.recA; Sample.recC] in
  @Staking.removeStakingRecordFromQueue Sample.queue_codec Sample.queueKey
    Sample.rootID 2 3 s = (Returned tt, s).
Proof.
  apply (@remove_without_match_is_noop Sample.queue_codec Sample.queueKey
           (Sample.store_with [Sample.recA; Sample.recC]) Sample.rootID 2 3
           [Sample.recA; Sample.recC]).
  - vm_compute. reflexivity.
  - repeat constructor.
Defined.


(** X7 for a second validator added to the sample store. *)
Lemma AddValidator_then_lookups_witness :
  exists s' : Staking.KVStore,
    @Staking.AddValidator Sample.validator_codec Sample.id_bytes SampleMore.validator2
      Sample.validator_store = (Returned ErrNil, s')
    /\ @Staking.GetValidatorInfo Sample.validator_codec SampleMore.thirdSigner s'
       = (Returned (SampleMore.validator2, ErrNil), s')
    /\ @Staking.GetLastUpdated Sample.validator_codec Sample.id_bytes 5 s'
       = (Returned (9%N, true), s').
Proof.
  destruct (@AddValidator_then_lookups Sample.validator_codec (bit_codec_laws _)
              Sample.id_bytes Sample.validator_store SampleMore.validator2 eq_refl)
    as (s' & Hadd & Hinfo & _ & _ & Hlast).
  exists s'. split; [exact Hadd |]. split; [exact Hinfo | exact Hlast].
Defined.

(** X8: ID 9 has no index entry in the sample store. *)
Lemma lookups_by_unknown_ID_witness :
  @Staking.GetValidatorFromValID Sample.validator_codec Sample.id_bytes 9
    Sample.validator_store
  = (Returned (Staking.zero_Validator, false), Sample.validator_store)
  /\ @Staking.GetLastUpdated Sample.validator_codec Sample.id_bytes 9
       Sample.validator_store
     = (Returned (0%N, false), Sample.validator_store).
Proof.
  apply (@lookups_by_unknown_ID Sample.validator_codec Sample.id_bytes
           Sample.validator_store 9).
  left. vm_compute. reflexivity.
Defined.

(** X9: adding the second validator leaves the record of the first. *)
Lemma AddValidator_leaves_others_witness :
  let s' := snd (@Staking.AddValidator Sample.validator_codec Sample.id_bytes
                   SampleMore.validator2 Sample.validator_store) in
  fst (@Staking.GetValidatorInfo Sample.validator_codec Sample.signerOld s')
  = fst (@Staking.GetValidatorInfo Sample.validator_codec Sample.signerOld
           Sample.validator_store)
  /\ fst (Staking.GetSignerFromValidatorID Sample.id_bytes 4 s')
     = fst (Staking.GetSignerFromValidatorID Sample.id_bytes 4 Sample.validator_store).
Proof.
  destruct (@AddValidator_leaves_others Sample.validator_codec (bit_codec_laws _)
              Sample.id_bytes Sample.validator_store SampleMore.validator2
              Sample.signerOld 4) as [Hrecord Hindex].
  split.
  - apply Hrecord. vm_compute. discriminate.
  - apply Hindex. vm_compute. discriminate.
Defined.

(** X10: an update with end epoch 0 is refused, one with end epoch 30 is
    stored. *)
Lemma AddDeactivationEpoch_cases_witness :
  @Staking.AddDeactivationEpoch Sample.validator_codec Sample.id_bytes Sample.validator1
    SampleMore.validator2 Sample.validator_store
  = (Returned (Err "Deactivation period not set"), Sample.validator_store)
  /\ exists s' : Staking.KVStore,
       @Staking.AddDeactivationEpoch Sample.validator_codec Sample.id_bytes
         Sample.validator1 (Staking.set_EndEpoch SampleMore.validator2 30)
         Sample.validator_store = (Returned ErrNil, s')
       /\ @Staking.GetValidatorInfo Sample.validator_codec Sample.signerOld s'
          = (Returned (Staking.set_EndEpoch Sample.validator1 30, ErrNil), s').
Proof.
  split.
  - apply (@AddDeactivationEpoch_cases Sample.validator_codec (bit_codec_laws _)
             Sample.id_bytes Sample.validator_store Sample.validator1
             SampleMore.validator2).
    reflexivity.
  - apply (@AddDeactivationEpoch_cases Sample.validator_codec (bit_codec_laws _)
             Sample.id_bytes Sample.validator_store Sample.validator1
             (Staking.set_EndEpoch SampleMore.validator2 30)).
    discriminate.
Defined.

(** X11: no record is stored under the third signer. *)
Lemma UpdateSigner_unknown_signer_witness :
  @Staking.UpdateSigner Sample.validator_codec Sample.id_bytes Sample.signerNew
    [Byte.xbb] SampleMore.thirdSigner Sample.validator_store
  = (Returned (Err "Validator not found"), Sample.validator_store).
Proof.
  apply (@UpdateSigner_unknown_signer Sample.validator_codec Sample.id_bytes
           Sample.validator_store Sample.signerNew [Byte.xbb] SampleMore.thirdSigner).
  vm_compute. reflexivity.
Defined.

(** X12: validator 4 changes its public key and keeps its signer. *)
Lemma UpdateSigner_same_signer_keeps_power_witness :
  exists (s' : Staking.KVStore) (stored : Staking.Validator),
    @Staking.UpdateSigner Sample.validator_codec Sample.id_bytes Sample.signerOld
      [Byte.xbb] Sample.signerOld Sample.validator_store = (Returned ErrNil, s')
    /\ @Staking.GetValidatorInfo Sample.validator_codec Sample.signerOld s'
       = (Returned (stored, ErrNil), s')
    /\ Staking.Power stored = 10%N
    /\ Staking.PubKey stored = [Byte.xbb]
    /\ Staking.ID stored = 4%N.
Proof.
  apply (@UpdateSigner_same_signer_keeps_power Sample.validator_codec (bit_codec_laws _)
           Sample.id_bytes Sample.validator_store Sample.signerOld [Byte.xbb]
           Sample.validator1).
  - vm_compute. reflexivity.
  - reflexivity.
Defined.

(** X13: after the rotation of validator 4 its ID leads to the rotated
    record. *)
Lemma UpdateSigner_ID_follows_and_others_stay_witness :
  let s' := snd (@Staking.UpdateSigner Sample.validator_codec Sample.id_bytes
                   Sample.signerNew [Byte.xbb] Sample.signerOld Sample.validator_store) in
  (exists rotated : Staking.Validator,
     @Staking.GetValidatorFromValID Sample.validator_codec Sample.id_bytes 4 s'
     = (Returned (rotated, true), s')
     /\ Staking.Signer rotated = Sample.signerNew
     /\ Staking.Power rotated = 10%N
     /\ @Staking.GetLastUpdated Sample.validator_codec Sample.id_bytes 4 s'
        = (Returned (0%N, true), s'))
  /\ fst (@Staking.GetValidatorInfo Sample.validator_codec SampleMore.thirdSigner s')
     = fst (@Staking.GetValidatorInfo Sample.validator_codec SampleMore.thirdSigner
              Sample.validator_store).
Proof.
  destruct (@UpdateSigner_ID_follows_and_others_stay Sample.validator_codec
              (bit_codec_laws _) Sample.id_bytes Sample.validator_store Sample.signerNew
              [Byte.xbb] Sample.signerOld Sample.validator1 SampleMore.thirdSigner
              ltac:(vm_compute; reflexivity) eq_refl eq_refl) as [Hid Hothers].
  split; [exact Hid |].
  apply Hothers; vm_compute; discriminate.
Defined.

(** X16: after the rotation of validator 4 both its records are listed. *)
Lemma UpdateSigner_leaves_two_records_witness :
  let s' := snd (@Staking.UpdateSigner Sample.validator_codec Sample.id_bytes
                   Sample.signerNew [Byte.xbb] Sample.signerOld Sample.validator_store) in
  exists (validators : list Staking.Validator) (retired rotated : Staking.Validator),
    @Staking.GetAllValidators Sample.validator_codec (fun _ => Staking.zero_Validator) s'
    = (Returned validators, s')
    /\ retired ∈ validators /\ rotated ∈ validators
    /\ Staking.Signer retired = Sample.signerOld /\ Staking.Power retired = 0%N
    /\ Staking.Signer rotated = Sample.signerNew /\ Staking.Power rotated = 10%N
    /\ Staking.ID retired = 4%N /\ Staking.ID rotated = 4%N.
Proof.
  apply (@UpdateSigner_leaves_two_records Sample.validator_codec (bit_codec_laws _)
           Sample.id_bytes (fun _ => Staking.zero_Validator) Sample.validator_store
           Sample.signerNew [Byte.xbb] Sample.signerOld Sample.validator1).
  - vm_compute. reflexivity.
  - reflexivity.
  - vm_compute. discriminate.
Defined.



(** X19 from watermark 100: the head 110 queries up to 107, the head 120
    then starts at 108. *)
Lemma consecutive_scans_are_contiguous_witness :
  let q1 := {| Listener.FromBlock := 101; Listener.ToBlock := 107;
               Listener.Addresses := [[Byte.xa1]; [Byte.xa2]; [Byte.xa3]] |} in
  let q2 := {| Listener.FromBlock := 108; Listener.ToBlock := 117;
               Listener.Addresses := [[Byte.xa1]; [Byte.xa2]; [Byte.xa3]] |} in
  let w1 := snd (Listener.ProcessHeader SampleChain.listener SampleChain.env
                   {| Listener.Number := 110 |} SampleChain.at100) in
  In q1 (Listener.queries
           (Listener.emitted
              (Listener.ProcessHeader SampleChain.listener SampleChain.env
                 {| Listener.Number := 110 |}) SampleChain.at100))
  /\ In q2 (Listener.queries
              (Listener.emitted
                 (Listener.ProcessHeader SampleChain.listener SampleChain.env
                    {| Listener.Number := 120 |}) w1))
  /\ Listener.FromBlock q2 = Listener.ToBlock q1 + 1.
Proof.
  intros q1 q2 w1.
  assert (H1 : In q1 (Listener.queries
                        (Listener.emitted
                           (Listener.ProcessHeader SampleChain.listener SampleChain.env
                              {| Listener.Number := 110 |}) SampleChain.at100)))
    by (vm_compute; left; reflexivity).
  assert (H2 : In q2 (Listener.queries
                        (Listener.emitted
                           (Listener.ProcessHeader SampleChain.listener SampleChain.env
                              {| Listener.Number := 120 |}) w1)))
    by (vm_compute; left; reflexivity).
  split; [exact H1 |]. split; [exact H2 |].
  apply (consecutive_scans_are_contiguous SampleChain.listener SampleChain.env
           SampleChain.env {| Listener.Number := 110 |} {| Listener.Number := 120 |}
           SampleChain.at100 q1 q2 H1 eq_refl ltac:(simpl; lia) eq_refl
           ltac:(simpl; lia) H2).
Defined.

(** X20 at watermark 100 with a failing [Has]: the head 50 queries block
    47 and stores 47. *)
Lemma Has_failure_hides_watermark_witness :
  exists q : Listener.FilterQuery,
    Listener.queries
      (Listener.emitted
         (Listener.ProcessHeader SampleChain.listener
            (SampleChainMore.with_failures true false false) {| Listener.Number := 50 |})
         SampleChain.at100) = [q]
    /\ Listener.FromBlock q = 50 - 3 /\ Listener.ToBlock q = 50 - 3
    /\ Listener.storage
         (snd (Listener.ProcessHeader SampleChain.listener
                 (SampleChainMore.with_failures true false false)
                 {| Listener.Number := 50 |} SampleChain.at100))
         !! Listener.lastRootBlockKey = Some (Listener.big_String (50 - 3)).
Proof.
  destruct (Has_failure_hides_watermark SampleChain.listener
              (SampleChainMore.with_failures true false false)
              {| Listener.Number := 50 |} SampleChain.at100 SampleChain.context
              eq_refl eq_refl ltac:(simpl; lia)) as (q & Hq & Hfrom & Hto & Hput).
  exists q. split; [exact Hq |]. split; [exact Hfrom |]. split; [exact Hto |].
  apply Hput. reflexivity.
Defined.

(** X21: a failing [Get] at watermark 100, and the stored value [12x]. *)
Lemma stored_value_unreadable_witness :
  snd (Listener.ProcessHeader SampleChain.listener
         (SampleChainMore.with_failures false true false)
         {| Listener.Number := 110 |} SampleChain.at100) = SampleChain.at100
  /\ exists q : Listener.FilterQuery,
       Listener.queries
         (Listener.emitted
            (Listener.ProcessHeader SampleChain.listener SampleChain.env
               {| Listener.Number := 110 |}) SampleChainMore.garbled) = [q]
       /\ Listener.FromBlock q = 110 - 3 /\ Listener.ToBlock q = 110 - 3.
Proof.
  split.
  - apply (stored_value_unreadable SampleChain.listener
             (SampleChainMore.with_failures false true false)
             {| Listener.Number := 110 |} SampleChain.at100 SampleChain.context
             "100"%string eq_refl eq_refl ltac:(vm_compute; reflexivity)
             ltac:(simpl; lia)).
    reflexivity.
  - destruct (stored_value_unreadable SampleChain.listener SampleChain.env
                {| Listener.Number := 110 |} SampleChainMore.garbled SampleChain.context
                "12x"%string eq_refl eq_refl ltac:(vm_compute; reflexivity)
                ltac:(simpl; lia)) as [_ Hparse].
    destruct (Hparse eq_refl ltac:(vm_compute; reflexivity)) as (q & Hq & Hfrom & Hto & _).
    exists q. auto.
Defined.

(** X22 at watermark 100 with a failing [Put]: the head 110 queries
    [101, 107], and does so again. *)
Lemma Put_failure_rescans_witness :
  let q := {| Listener.FromBlock := 101; Listener.ToBlock := 107;
              Listener.Addresses := [[Byte.xa1]; [Byte.xa2]; [Byte.xa3]] |} in
  let env := SampleChainMore.with_failures false false true in
  let w' := snd (Listener.ProcessHeader SampleChain.listener env
                   {| Listener.Number := 110 |} SampleChain.at100) in
  Listener.storage w' = Listener.storage SampleChain.at100
  /\ Listener.queries
       (Listener.emitted
          (Listener.ProcessHeader SampleChain.listener env {| Listener.Number := 110 |}) w')
     = [q].
Proof.
  intros q env.
  apply (Put_failure_rescans SampleChain.listener env {| Listener.Number := 110 |}
           SampleChain.at100 q).
  - vm_compute. left. reflexivity.
  - reflexivity.
Defined.

(** X23 for the first task of the sample cycle at head 105. *)
Lemma tasks_are_built_from_fetched_logs_witness :
  exists (sg : Listener.Signature) (q : Listener.FilterQuery) (logs : list Listener.Log)
         (vLog : Listener.Log),
    Listener.TaskName sg = "sendStateSyncedToHeimdall"%string
    /\ Listener.FilterLogs SampleChain.env q = Some logs
    /\ vLog ∈ logs
    /\ Listener.task_of_log SampleChain.listener (Listener.abis SampleChain.listener)
         vLog sg.
Proof.
  set (sg := {| Listener.TaskName := "sendStateSyncedToHeimdall"%string;
                Listener.Args :=
                  [ {| Listener.ArgType := "string"%string;
                       Listener.Value := Listener.StringValue "StateSynced" |};
                    {| Listener.ArgType := "string"%string;
                       Listener.Value := Listener.JSONValue SampleChain.stateSyncedLog |};
                    {| Listener.ArgType := "string"%string;
                       Listener.Value := Listener.StringValue "eth" |} ];
                Listener.RetryCount := 3; Listener.RetryTimeout := 3;
                Listener.ETA := 0 |}).
  destruct (tasks_are_built_from_fetched_logs SampleChain.listener SampleChain.env
              {| Listener.Number := 105 |} SampleChain.fresh sg
              ltac:(vm_compute; left; reflexivity))
    as (q & logs & vLog & _ & Hlogs & Hin & Htask).
  exists sg, q, logs, vLog. split; [reflexivity |]. auto.
Defined.

(** X24: the sample cycle at head 105 on a node that is not a current
    validator. *)
Lemma non_validator_sends_nothing_witness :
  Listener.tasks
    (Listener.emitted
       (Listener.ProcessHeader SampleChain.listener SampleChainMore.env_not_validator
          {| Listener.Number := 105 |}) SampleChain.fresh) = []
  /\ Listener.storage
       (snd (Listener.ProcessHeader SampleChain.listener SampleChainMore.env_not_validator
               {| Listener.Number := 105 |} SampleChain.fresh))
       !! Listener.lastRootBlockKey = Some (Listener.big_String 102).
Proof.
  destruct (non_validator_sends_nothing SampleChain.listener
              SampleChainMore.env_not_validator {| Listener.Number := 105 |}
              SampleChain.fresh ltac:(intros n; reflexivity)) as [Hnone Hput].
  split; [exact Hnone |].
  apply (Hput {| Listener.FromBlock := 102; Listener.ToBlock := 102;
                 Listener.Addresses := [[Byte.xa1]; [Byte.xa2]; [Byte.xa3]] |}).
  - vm_compute. left. reflexivity.
  - reflexivity.
Defined.

(** X25: a cycle whose only log has a topic that no ABI holds. *)
Lemma unrecognized_logs_are_ignored_witness :
  let env := SampleChainMore.env_with_logs [SampleChainMore.unknownLog] in
  (exists header',
     fst (Listener.ProcessHeader SampleChain.listener env {| Listener.Number := 105 |}
            SampleChain.fresh) = Returned header')
  /\ Listener.tasks
       (Listener.emitted
          (Listener.ProcessHeader SampleChain.listener env {| Listener.Number := 105 |})
          SampleChain.fresh) = []
  /\ Listener.oracleCalls
       (snd (Listener.ProcessHeader SampleChain.listener env {| Listener.Number := 105 |}
               SampleChain.fresh)) = 0%nat.
Proof.
  intros env.
  apply (unrecognized_logs_are_ignored SampleChain.listener env
           {| Listener.Number := 105 |} SampleChain.fresh).
  intros q logs [= <-]. constructor; [| constructor].
  exists [Byte.x09]. split; reflexivity.
Defined.

(** X26: a cycle that fetches a recognised log and then a log without
    topics. *)
Lemma log_without_topics_panics_witness :
  let env := SampleChainMore.env_with_logs
               [SampleChain.stateSyncedLog; SampleChainMore.bareLog] in
  fst (Listener.ProcessHeader SampleChain.listener env {| Listener.Number := 105 |}
         SampleChain.fresh)
  = Panicked "index out of range [0] with length 0"
  /\ Listener.storage
       (snd (Listener.ProcessHeader SampleChain.listener env {| Listener.Number := 105 |}
               SampleChain.fresh))
       !! Listener.lastRootBlockKey = Some (Listener.big_String 102).
Proof.
  intros env.
  destruct (log_without_topics_panics SampleChain.listener env
              {| Listener.Number := 105 |} SampleChain.fresh
              {| Listener.FromBlock := 102; Listener.ToBlock := 102;
                 Listener.Addresses := [[Byte.xa1]; [Byte.xa2]; [Byte.xa3]] |}
              [SampleChain.stateSyncedLog; SampleChainMore.bareLog]
              ltac:(vm_compute; left; reflexivity) eq_refl)
    as (Hpanic & _ & Hput).
  split.
  - apply Hpanic. right. left. reflexivity.
  - apply Hput. reflexivity.
Defined.

(** X27: the header 105 comes back as 102, the header 3 as it is. *)
Lemma ProcessHeader_changes_header_witness :
  fst (Listener.ProcessHeader SampleChain.listener SampleChain.env
         {| Listener.Number := 105 |} SampleChain.fresh)
  = Returned {| Listener.Number := 102 |}
  /\ Listener.Number {| Listener.Number := 102 |} = 105 - 3.
Proof.
  assert (Hret : fst (Listener.ProcessHeader SampleChain.listener SampleChain.env
                        {| Listener.Number := 105 |} SampleChain.fresh)
                 = Returned {| Listener.Number := 102 |}) by (vm_compute; reflexivity).
  split; [exact Hret |].
  apply (ProcessHeader_changes_header SampleChain.listener SampleChain.env
           {| Listener.Number := 105 |} {| Listener.Number := 102 |} SampleChain.fresh
           SampleChain.context eq_refl Hret).
  simpl. lia.
Defined.

(** X29 with the sample wallet and ABI: every number decodes as 1200 and
    no header block decodes. *)
Lemma readers_and_decoding_errors_witness :
  @Tron.CurrentHeaderBlock SampleTron.wallet SampleTron.abi SampleTron.fromHex
    SampleTron.codeText "a1" 100 = Returned (12%N, ErrNil)
  /\ @Tron.GetLastChildBlock SampleTron.wallet SampleTron.abi SampleTron.fromHex
       SampleTron.codeText "a1" = Returned (1200%N, ErrNil)
  /\ @Tron.GetHeaderInfo SampleTron.wallet SampleTron.abi SampleTron.fromHex
       SampleTron.codeText 7 "a1" 100
     = Returned (repeat Byte.x00 32, 0%N, 0%N, 0%N, repeat Byte.x00 20, Err "bad data").
Proof.
  apply (@readers_and_decoding_errors SampleTron.wallet SampleTron.abi SampleTron.fromHex
           SampleTron.codeText "a1"%string 100%N 7%N
           [Byte.x01] [Byte.x01] [Byte.x01] [Byte.x01] [Byte.x01] [Byte.x01]);
    try reflexivity;
    (eexists _, _; repeat split; reflexivity).
Defined.
